(** * Calendar application: event text parsers and week lane layout

    A shallow embedding of
    - [client/src/lib/bulkParser.ts]  ([guessType], [cleanTitle],
      [parseLineToEvents], [parseBulkText]),
    - [client/src/lib/dateParser.ts]  ([formatDateSafe],
      [parseNaturalLanguage]),
    - the calendar component's [assignEventLanes] and the filter of the
      events handed to it,
    - the calendar component's [groupDaysIntoWeeks] and year view
      ([allQuartersData]), the position of a [SpanningEventCard], the
      sidebar's [handleQuickAdd],
    - the refinement of [createEventSchema] and the calendar store's
      [isEventOnDate],
    together with the properties their specification states.

    JavaScript strings are lists of UTF-16 code units, regular expressions
    are run by a backtracking matcher that follows the ECMAScript matching
    order (leftmost start, alternatives left to right, greedy quantifiers). *)

From Stdlib Require Import ZArith NArith List String Ascii Bool Lia.
From Stdlib Require Import Permutation.
From Stdlib Require Import DecimalString.
From stdpp Require Import gmap.
Import ListNotations.

Local Open Scope Z_scope.

(* ===================================================================== *)
(** ** JavaScript strings *)
(* ===================================================================== *)

Module JS.

(** A code unit of a JavaScript string. *)
Definition char := N.
Definition jsstring := list char.

(** An ASCII literal as a JavaScript string. *)
Definition lit (s : string) : jsstring :=
  List.map N_of_ascii (list_ascii_of_string s).

Definition ch (c : ascii) : char := N_of_ascii c.

Definition char_eqb (a b : char) : bool := N.eqb a b.

Fixpoint str_eqb (a b : jsstring) : bool :=
  match a, b with
  | [], [] => true
  | x :: a', y :: b' => char_eqb x y && str_eqb a' b'
  | _, _ => false
  end.

Definition between (lo hi c : N) : bool := (N.leb lo c && N.leb c hi)%bool.

Definition isDigit (c : char) : bool := between 48 57 c.
Definition isUpper (c : char) : bool := between 65 90 c.
Definition isLower (c : char) : bool := between 97 122 c.
Definition isAlpha (c : char) : bool := (isUpper c || isLower c)%bool.

(** [\w]: ASCII letters, digits and the underscore. *)
Definition isWordChar (c : char) : bool :=
  (isAlpha c || isDigit c || N.eqb c 95)%bool.

(** [\s] and the characters removed by [trim]: WhiteSpace and
    LineTerminator of ECMAScript. *)
Definition isSpace (c : char) : bool :=
  (between 9 13 c || N.eqb c 32 || N.eqb c 160 || N.eqb c 5760
   || between 8192 8202 c || N.eqb c 8232 || N.eqb c 8233
   || N.eqb c 8239 || N.eqb c 8287 || N.eqb c 12288 || N.eqb c 65279)%bool.

(** [toLowerCase].  ASCII and Latin-1 capitals get their small letter.
    Two code units have a small letter in ASCII: the Kelvin sign (U+212A)
    gives k, and the capital I with a dot above (U+0130) gives i followed
    by the combining dot above (U+0307), one unit more; the Angstrom sign
    (U+212B) gives the Latin-1 letter U+00E5.  Every other code unit is
    kept: where it has a small letter, that is again one unit outside ASCII
    that is no white space, and the parsers, whose keywords and patterns are
    ASCII, look at the lower-cased text only to find them. *)
Definition lowerChar (c : char) : char :=
  if isUpper c then (c + 32)%N
  else if (between 192 222 c && negb (N.eqb c 215))%bool then (c + 32)%N
  else c.

Definition lowerUnits (c : char) : list char :=
  if N.eqb c 304 then [105; 775]%N
  else if N.eqb c 8490 then [107]%N
  else if N.eqb c 8491 then [229]%N
  else [lowerChar c].

Definition toLowerCase (s : jsstring) : jsstring := List.flat_map lowerUnits s.

(** Canonicalize of a case-insensitive pattern without the unicode flag,
    restricted to what an ASCII pattern character can be equal to. *)
Definition upperAscii (c : char) : char :=
  if isLower c then (c - 32)%N else c.

Definition char_eqb_ci (a b : char) : bool :=
  N.eqb (upperAscii a) (upperAscii b).

Fixpoint dropSpaces (s : jsstring) : jsstring :=
  match s with
  | c :: t => if isSpace c then dropSpaces t else s
  | [] => []
  end.

Definition trim (s : jsstring) : jsstring :=
  List.rev (dropSpaces (List.rev (dropSpaces s))).

Fixpoint startsWith (p s : jsstring) : bool :=
  match p, s with
  | [], _ => true
  | x :: p', y :: s' => char_eqb x y && startsWith p' s'
  | _ :: _, [] => false
  end.

(** [s.indexOf(p)], [None] standing for -1. *)
Fixpoint indexOf (p s : jsstring) : option nat :=
  if startsWith p s then Some 0%nat
  else match s with
       | [] => None
       | _ :: t => option_map S (indexOf p t)
       end.

Definition includes (s p : jsstring) : bool :=
  match indexOf p s with Some _ => true | None => false end.

(** [s.slice(0, n)] and [s.slice(n)] for [0 <= n]. *)
Definition sliceTo (s : jsstring) (n : nat) : jsstring := List.firstn n s.
Definition sliceFrom (s : jsstring) (n : nat) : jsstring := List.skipn n s.

(** [s.padStart(n, '0')]. *)
Definition padStart0 (n : nat) (s : jsstring) : jsstring :=
  List.repeat 48%N (n - List.length s) ++ s.

(** [Number.prototype.toString] of an integer. *)
Definition toString (z : Z) : jsstring :=
  lit (NilZero.string_of_int (Z.to_int z)).

(** [parseInt] of a string of decimal digits (what the patterns capture). *)
Definition parseInt (s : jsstring) : Z :=
  List.fold_left (fun acc c => 10 * acc + (Z.of_N c - 48)) s 0.

(** Truthiness of a string value that may be [undefined]. *)
Definition truthy (o : option jsstring) : bool :=
  match o with
  | Some (_ :: _) => true
  | _ => false
  end.

(** [a || b] on strings. *)
Definition orElse (a b : jsstring) : jsstring :=
  match a with [] => b | _ => a end.

(* --------------------------------------------------------------------- *)
(** *** Regular expressions *)
(* --------------------------------------------------------------------- *)

Inductive regex : Type :=
| Eps
| Cls (p : char -> bool)                       (* one code unit in a class *)
| Seq (a b : regex)
| Alt (a b : regex)                            (* a|b, left first *)
| Rep (a : regex) (lo : nat) (hi : option nat) (* greedy a{lo,hi} *)
| Grp (i : nat) (a : regex)                    (* capturing group number i *)
| WordB                                        (* \b *)
| StartOfInput                                 (* ^ without the m flag *)
| EndOfInput.                                  (* $ without the m flag *)

(** The matcher state: the input before the current position (last
    character first), the input from the current position, and the captures
    recorded so far (most recent first). *)
Record mstate := MState {
  before : list char;
  after : list char;
  caps : list (nat * jsstring)
}.

Definition advance (s : mstate) : option (char * mstate) :=
  match after s with
  | [] => None
  | c :: t => Some (c, MState (c :: before s) t (caps s))
  end.

(** Text consumed between two states of one run. *)
Definition consumed (s s' : mstate) : jsstring :=
  List.rev (List.firstn (List.length (before s') - List.length (before s))
                        (before s')).

Definition capture (i : nat) (s s' : mstate) : mstate :=
  MState (before s') (after s') ((i, consumed s s') :: caps s').

Definition progressed (s s' : mstate) : bool :=
  negb (Nat.eqb (List.length (before s)) (List.length (before s'))).

Definition atWordBoundary (s : mstate) : bool :=
  let a := match before s with c :: _ => isWordChar c | [] => false end in
  let b := match after s with c :: _ => isWordChar c | [] => false end in
  xorb a b.

Definition orTry {A} (x y : option A) : option A :=
  match x with Some _ => x | None => y end.

(** A greedy quantifier over a matcher [body]: the quantifier tries one
    more iteration before it tries to stop; an iteration that consumes
    nothing is rejected; [n] counts the iterations done, [fuel] bounds those
    still allowed. *)
Fixpoint iterate (body : (mstate -> option mstate) -> mstate -> option mstate)
  (lo : nat) (k : mstate -> option mstate) (fuel n : nat) (s : mstate)
  : option mstate :=
  let stop := if (lo <=? n)%nat then k s else None in
  match fuel with
  | O => stop
  | S fuel' =>
      orTry (body (fun s' => if progressed s s'
                             then iterate body lo k fuel' (S n) s'
                             else None) s)
            stop
  end.

(** Backtracking matcher in continuation-passing style: [run r k s] matches
    [r] at [s] and hands the state reached to [k]; when [k] fails the next
    alternative of [r] is tried.  An unbounded quantifier needs at most one
    iteration per remaining character. *)
Fixpoint run (r : regex) (k : mstate -> option mstate) (s : mstate)
  : option mstate :=
  match r with
  | Eps => k s
  | Cls p =>
      match advance s with
      | Some (c, s') => if p c then k s' else None
      | None => None
      end
  | Seq a b => run a (run b k) s
  | Alt a b => orTry (run a k s) (run b k s)
  | Grp i a => run a (fun s' => k (capture i s s')) s
  | Rep a lo hi =>
      iterate (run a) lo k
        (match hi with Some h => h | None => List.length (after s) end)
        0%nat s
  | WordB => if atWordBoundary s then k s else None
  | StartOfInput => match before s with [] => k s | _ :: _ => None end
  | EndOfInput => match after s with [] => k s | _ :: _ => None end
  end.

(** The result of [exec]: index of the match, matched text ([m[0]]), the
    groups, and the input that follows the match. *)
Record jsmatch := JSMatch {
  m_index : nat;
  m_text : jsstring;
  m_caps : list (nat * jsstring);
  m_rest : jsstring
}.

(** [m[i]] for [i >= 1]; [None] is [undefined]. *)
Fixpoint lookupCap (i : nat) (l : list (nat * jsstring)) : option jsstring :=
  match l with
  | [] => None
  | (j, v) :: t => if Nat.eqb i j then Some v else lookupCap i t
  end.

Definition group (m : jsmatch) (i : nat) : option jsstring :=
  lookupCap i (m_caps m).

(** Leftmost match at or after the current position. *)
Fixpoint execFrom (r : regex) (pre : list char) (s : jsstring)
  : option jsmatch :=
  let s0 := MState pre s [] in
  match run r Some s0 with
  | Some s' =>
      Some (JSMatch (List.length pre) (consumed s0 s') (caps s') (after s'))
  | None =>
      match s with
      | [] => None
      | c :: t => execFrom r (c :: pre) t
      end
  end.

(** [s.match(r)] for a pattern without the g flag. *)
Definition exec (r : regex) (s : jsstring) : option jsmatch :=
  execFrom r [] s.

(** [r.test(s)]. *)
Definition test (r : regex) (s : jsstring) : bool :=
  match exec r s with Some _ => true | None => false end.

(** [s.replace(r, by)] for a pattern without the g flag ([by] holds no
    [$] pattern). *)
Definition replace (r : regex) (by_ : jsstring) (s : jsstring) : jsstring :=
  match exec r s with
  | None => s
  | Some m => List.firstn (m_index m) s ++ by_ ++ m_rest m
  end.

(** [s.replace(r, by)] with the g flag: matches are replaced left to right,
    the search resuming where the previous match ended (one character
    further after an empty match). *)
Fixpoint replaceAllFrom (fuel : nat) (r : regex) (by_ : jsstring)
  (pre : list char) (s : jsstring) : jsstring :=
  match fuel with
  | O => s
  | S fuel' =>
      match execFrom r pre s with
      | None => s
      | Some m =>
          let skipped := List.firstn (m_index m - List.length pre) s in
          match m_text m, m_rest m with
          | [], c :: t =>
              skipped ++ by_ ++ c ::
                replaceAllFrom fuel' r by_ (c :: List.rev skipped ++ pre) t
          | [], [] => skipped ++ by_
          | _ :: _, rest =>
              skipped ++ by_ ++
                replaceAllFrom fuel' r by_
                  (List.rev (m_text m) ++ List.rev skipped ++ pre) rest
          end
      end
  end.

Definition replaceAll (r : regex) (by_ : jsstring) (s : jsstring) : jsstring :=
  replaceAllFrom (S (List.length s)) r by_ [] s.

(** What a match is, apart from the order in which the matcher tries the
    alternatives: [matches r s s'] when [r] can take the state [s] to [s'].
    [chain step n] is a run of [n] iterations, each consuming input. *)
Fixpoint chain (step : mstate -> mstate -> Prop) (n : nat) (s s' : mstate)
  : Prop :=
  match n with
  | O => s' = s
  | S n' =>
      exists s1, step s s1 /\ progressed s s1 = true /\ chain step n' s1 s'
  end.

Fixpoint matches (r : regex) (s s' : mstate) : Prop :=
  match r with
  | Eps => s' = s
  | Cls p => exists c, advance s = Some (c, s') /\ p c = true
  | Seq a b => exists s1, matches a s s1 /\ matches b s1 s'
  | Alt a b => matches a s s' \/ matches b s s'
  | Grp i a => exists s1, matches a s s1 /\ s' = capture i s s1
  | Rep a lo hi =>
      exists n, (lo <= n)%nat /\
                match hi with Some h => (n <= h)%nat | None => True end /\
                chain (matches a) n s s'
  | WordB => atWordBoundary s = true /\ s' = s
  | StartOfInput => before s = [] /\ s' = s
  | EndOfInput => after s = [] /\ s' = s
  end.

(** [s'] is [s] after the text [w]. *)
Definition extends (s : mstate) (w : jsstring) (s' : mstate) : Prop :=
  before s' = List.rev w ++ before s /\ after s = w ++ after s'.

(** A pattern without capturing groups. *)
Fixpoint noGroups (r : regex) : bool :=
  match r with
  | Seq a b | Alt a b => noGroups a && noGroups b
  | Rep a _ _ => noGroups a
  | Grp _ _ => false
  | _ => true
  end.

(** Pattern syntax. *)
Definition chr (c : ascii) : regex := Cls (char_eqb (ch c)).
Definition chr_i (c : ascii) : regex := Cls (char_eqb_ci (ch c)).

Fixpoint seqOf (l : list regex) : regex :=
  match l with
  | [] => Eps
  | [a] => a
  | a :: t => Seq a (seqOf t)
  end.

Fixpoint altOf (l : list regex) : regex :=
  match l with
  | [] => Cls (fun _ => false)
  | [a] => a
  | a :: t => Alt a (altOf t)
  end.

Definition word (s : string) : regex :=
  seqOf (List.map chr (list_ascii_of_string s)).
Definition word_i (s : string) : regex :=
  seqOf (List.map chr_i (list_ascii_of_string s)).

Definition words (l : list string) : regex := altOf (List.map word l).
Definition words_i (l : list string) : regex := altOf (List.map word_i l).

Definition digit : regex := Cls isDigit.                 (* \d *)
Definition space : regex := Cls isSpace.                 (* \s *)
Definition letter : regex := Cls isAlpha.                (* [a-zA-Z] *)
Definition opt (a : regex) : regex := Rep a 0 (Some 1%nat).     (* a? *)
Definition star (a : regex) : regex := Rep a 0 None.            (* a* *)
Definition plus (a : regex) : regex := Rep a 1 None.            (* a+ *)
Definition digits (lo hi : nat) : regex := Rep digit lo (Some hi).
Definition spaces : regex := star space.                 (* \s* *)
Definition spaces1 : regex := plus space.                (* \s+ *)

End JS.

(* ===================================================================== *)
(** ** Dates: the JavaScript [Date] object and the date-fns functions used *)
(* ===================================================================== *)

Module DateFns.
Import JS.

(** A valid [Date] is modelled by its local calendar day, counted from
    1970-01-01; the time of day never reaches an output of the modelled
    functions.  An Invalid Date is [None] of [option Date]. *)
Definition Date := Z.

(** Proleptic Gregorian calendar: day number of year/month/day, [m] in
    1..12. *)
Definition daysFromCivil (y m d : Z) : Z :=
  let y' := if m <=? 2 then y - 1 else y in
  let era := y' / 400 in
  let yoe := y' - era * 400 in
  let mp := if m >? 2 then m - 3 else m + 9 in
  let doy := (153 * mp + 2) / 5 + d - 1 in
  let doe := yoe * 365 + yoe / 4 - yoe / 100 + doy in
  era * 146097 + doe - 719468.

Definition civilFromDays (z : Z) : Z * Z * Z :=
  let z' := z + 719468 in
  let era := z' / 146097 in
  let doe := z' - era * 146097 in
  let yoe := (doe - doe / 1460 + doe / 36524 - doe / 146096) / 365 in
  let doy := doe - (365 * yoe + yoe / 4 - yoe / 100) in
  let mp := (5 * doy + 2) / 153 in
  let d := doy - (153 * mp + 2) / 5 + 1 in
  let m := if mp <? 10 then mp + 3 else mp - 9 in
  let y := yoe + era * 400 in
  (if m <=? 2 then y + 1 else y, m, d).

Definition getFullYear (d : Date) : Z := fst (fst (civilFromDays d)).
Definition getMonth (d : Date) : Z := snd (fst (civilFromDays d)) - 1.
Definition getDate (d : Date) : Z := snd (civilFromDays d).

(** [new Date(year, month, day)] at local midnight, [month] from 0. *)
Definition mkDate (year month day : Z) : Date :=
  daysFromCivil year (month + 1) day.

(** [addDays(d, n)]. *)
Definition addDays (d : Date) (n : Z) : Date := d + n.

(** [addLeadingZeros(n, len)]. *)
Definition addLeadingZeros (n : Z) (len : nat) : jsstring :=
  (if n <? 0 then lit "-" else []) ++ padStart0 len (toString (Z.abs n)).

(** [formatISO(d, { representation: "date" })]. *)
Definition formatISO (d : Date) : jsstring :=
  addLeadingZeros (getFullYear d) 4 ++ lit "-" ++
  addLeadingZeros (getMonth d + 1) 2 ++ lit "-" ++
  addLeadingZeros (getDate d) 2.

(** [eachDayOfInterval({ start, end })] of date-fns 3: the days from
    [start] to [end]; for a negative interval the days in descending order;
    the empty array when an end of the interval is an Invalid Date. *)
Definition daysUpFrom (d : Date) (n : nat) : list Date :=
  List.map (fun i => d + Z.of_nat i) (List.seq 0 n).

Definition eachDayOfInterval (start end_ : option Date) : list Date :=
  match start, end_ with
  | Some s, Some e =>
      if s >? e then List.rev (daysUpFrom e (Z.to_nat (s - e + 1)))
      else daysUpFrom s (Z.to_nat (e - s + 1))
  | _, _ => []
  end.

(** The en-US month patterns of date-fns ([match.month]). *)
Definition monthNames : list string :=
  ["january"; "february"; "march"; "april"; "may"; "june"; "july";
   "august"; "september"; "october"; "november"; "december"]%string.
Definition monthAbbrevs : list string :=
  ["jan"; "feb"; "mar"; "apr"; "may"; "jun"; "jul"; "aug"; "sep"; "oct";
   "nov"; "dec"]%string.

Definition matchMonthWide : regex := Seq StartOfInput (words_i monthNames).
Definition matchMonthAbbreviated : regex :=
  Seq StartOfInput (words_i monthAbbrevs).
Definition matchMonthNarrow : regex :=
  Seq StartOfInput
      (Cls (fun c => includes (lit "jfmasond") [lowerChar c])).

Definition parseMonthAny : list string :=
  ["ja"; "f"; "mar"; "ap"; "may"; "jun"; "jul"; "au"; "s"; "o"; "n"; "d"]%string.
Definition parseMonthNarrow : list string :=
  ["j"; "f"; "m"; "a"; "m"; "j"; "j"; "a"; "s"; "o"; "n"; "d"]%string.

(** [findIndex(patterns, p => p.test(matched))], each pattern being
    [/^prefix/i]. *)
Fixpoint findPattern (ps : list string) (matched : jsstring) (i : Z)
  : option Z :=
  match ps with
  | [] => None
  | p :: t =>
      if test (Seq StartOfInput (word_i p)) matched then Some i
      else findPattern t matched (i + 1)
  end.

(** The parser of the token [LLLL]: the wide name, else the abbreviated
    one, else the narrow one. *)
Definition parseMonthToken (s : jsstring) : option (Z * jsstring) :=
  let finish ps m :=
    match findPattern ps (m_text m) 0 with
    | Some i => Some (i, sliceFrom s (List.length (m_text m)))
    | None => None
    end in
  match exec matchMonthWide s with
  | Some m => finish parseMonthAny m
  | None =>
      match exec matchMonthAbbreviated s with
      | Some m => finish parseMonthAny m
      | None =>
          match exec matchMonthNarrow s with
          | Some m => finish parseMonthNarrow m
          | None => None
          end
      end
  end.

(** [parseNumericPattern(pattern, s)]. *)
Definition parseNumericPattern (r : regex) (s : jsstring)
  : option (Z * jsstring) :=
  match exec r s with
  | Some m => Some (parseInt (m_text m), sliceFrom s (List.length (m_text m)))
  | None => None
  end.

(** [numericPatterns.date] = /^(3[0-1]|[0-2]?\d)/ and
    [numericPatterns.fourDigits] = /^\d{1,4}/. *)
Definition numericDate : regex :=
  Seq StartOfInput
      (Alt (Seq (chr "3") (Cls (between 48 49)))
           (Seq (opt (Cls (between 48 50))) digit)).
Definition numericFourDigits : regex := Seq StartOfInput (digits 1 4).

(** A literal token of the format: cut it from the input or fail. *)
Definition cutLiteral (tok : string) (s : jsstring) : option jsstring :=
  if startsWith (lit tok) s then Some (sliceFrom s (List.length (lit tok)))
  else None.

Definition isLeapYearIndex (year : Z) : bool :=
  (year mod 400 =? 0) || ((year mod 4 =? 0) && negb (year mod 100 =? 0)).

Definition daysInMonth (year month : Z) : Z :=
  let table := if isLeapYearIndex year
               then [31; 29; 31; 30; 31; 30; 31; 31; 30; 31; 30; 31]
               else [31; 28; 31; 30; 31; 30; 31; 31; 30; 31; 30; 31] in
  List.nth (Z.to_nat month) table 0.

(** [parse(s, "LLLL d, yyyy", new Date())] of date-fns 3 with the default
    locale: the tokens are cut from the input one after the other, only
    white space may remain, and the values are validated (a year above 0,
    a day of the month that exists); [None] is the Invalid Date. *)
Definition parseExact (s : jsstring) : option Date :=
  match parseMonthToken s with
  | None => None
  | Some (month, s1) =>
  match cutLiteral " " s1 with
  | None => None
  | Some s2 =>
  match parseNumericPattern numericDate s2 with
  | None => None
  | Some (day, s3) =>
  match cutLiteral "," s3 with
  | None => None
  | Some s4 =>
  match cutLiteral " " s4 with
  | None => None
  | Some s5 =>
  match parseNumericPattern numericFourDigits s5 with
  | None => None
  | Some (year, s6) =>
      if negb (List.forallb isSpace s6) then None
      else if negb (year >? 0) then None
      else if negb ((1 <=? day) && (day <=? daysInMonth year month)) then None
      else Some (mkDate year month day)
  end end end end end end.

End DateFns.

(* ===================================================================== *)
(** ** client/src/lib/bulkParser.ts *)
(* ===================================================================== *)

Inductive EventType := PLANNING | MEETING | MONTHLY_REVIEW | HOLIDAYS.

Module BulkParser.
Import JS DateFns.

Record BulkEvent := mkBulkEvent {
  type : EventType;
  title : jsstring;
  date : jsstring;
  startDate : option jsstring;
  endDate : option jsstring
}.

(** Heuristic type guesser. *)
Definition guessType (titleRaw : jsstring) : EventType :=
  let t := toLowerCase titleRaw in
  if includes t (lit "monthly review") then MONTHLY_REVIEW
  else if includes t (lit "holiday") || includes t (lit "annual leave")
          || includes t (lit "pto") then HOLIDAYS
  else if includes t (lit "meeting") || includes t (lit "review")
          || includes t (lit "alignment") || includes t (lit "kickoff")
       then MEETING
  else PLANNING.

Definition notCloseParen : regex :=
  Cls (fun c => negb (char_eqb c (ch ")"))).

(** /\s*\([^)]+\)\s*$/ *)
Definition trailingParens : regex :=
  seqOf [spaces; chr "("; plus notCloseParen; chr ")"; spaces; EndOfInput].

Definition cleanTitle (s : jsstring) : jsstring :=
  trim (replace trailingParens [] s).

(** /[–—]/g, /\s*-\s*/g and /\([^)]+\)/g *)
Definition dashes : regex :=
  Cls (fun c => N.eqb c 8211 || N.eqb c 8212).
Definition spacedHyphen : regex := seqOf [spaces; chr "-"; spaces].
Definition parens : regex := seqOf [chr "("; plus notCloseParen; chr ")"].

(** /week of\s+/i *)
Definition weekOfRegex : regex := Seq (word_i "week of") spaces1.

(** /\b(jan|feb|...|dec|january|...|december)\b/i *)
Definition monthRegex : regex :=
  seqOf [WordB; Grp 1 (words_i (monthAbbrevs ++ monthNames)); WordB].

(** /([a-zA-Z]+)\s+(\d{1,2})\s*-\s*([a-zA-Z]+)?\s*(\d{1,2}),\s*(\d{4})/ *)
Definition range1 : regex :=
  seqOf [Grp 1 (plus letter); spaces1; Grp 2 (digits 1 2); spaces; chr "-";
         spaces; opt (Grp 3 (plus letter)); spaces; Grp 4 (digits 1 2);
         chr ","; spaces; Grp 5 (digits 4 4)].

(** /([a-zA-Z]+)\s+(\d{1,2})-(\d{1,2}),\s*(\d{4})/ *)
Definition range2 : regex :=
  seqOf [Grp 1 (plus letter); spaces1; Grp 2 (digits 1 2); chr "-";
         Grp 3 (digits 1 2); chr ","; spaces; Grp 4 (digits 4 4)].

(** [r[i]] inside a template literal. *)
Definition sub (r : jsmatch) (i : nat) : jsstring :=
  match group r i with Some v => v | None => lit "undefined" end.

(** [r[i] || r[j]] inside a template literal. *)
Definition subOr (r : jsmatch) (i j : nat) : jsstring :=
  if truthy (group r i) then sub r i else sub r j.

(** The text [`${m} ${d}, ${yyyy}`] handed to date-fns. *)
Definition dateText (m d yyyy : jsstring) : jsstring :=
  m ++ lit " " ++ d ++ lit ", " ++ yyyy.

Definition expandRange1 (r : jsmatch) : list Date :=
  let m1 := sub r 1 in let d1 := sub r 2 in
  let m2 := subOr r 3 1 in let d2 := sub r 4 in let yyyy := sub r 5 in
  let start := parseExact (dateText m1 d1 yyyy) in
  let end_ := parseExact (dateText m2 d2 yyyy) in
  eachDayOfInterval start end_.

Definition expandRange2 (r : jsmatch) : list Date :=
  let m := sub r 1 in let d1 := sub r 2 in
  let d2 := sub r 3 in let yyyy := sub r 4 in
  let start := parseExact (dateText m d1 yyyy) in
  let end_ := parseExact (dateText m d2 yyyy) in
  eachDayOfInterval start end_.

(** What a call of [chrono.parseDate] does: it throws, or it returns a date
    or [null]. *)
Inductive chronoOutcome := Threw | Returned (d : option Date).

Section WithChrono.

(** [chrono.parseDate] of the chrono-node package. *)
Variable chrono_parseDate : jsstring -> chronoOutcome.

(** The body of the [try] block: the dates of the line, or [None] when an
    exception reached the [catch]. *)
Definition lineDates (weekOf : bool) (datePart : jsstring)
  : option (list Date) :=
  if test range1 datePart then
    match exec range1 datePart with
    | Some r => Some (expandRange1 r)
    | None => Some []
    end
  else if test range2 datePart then
    match exec range2 datePart with
    | Some r => Some (expandRange2 r)
    | None => Some []
    end
  else if weekOf then
    let after := replace weekOfRegex [] datePart in
    if test range1 after then
      match exec range1 after with
      | Some r => Some (expandRange1 r)
      | None => Some []
      end
    else if test range2 after then
      match exec range2 after with
      | Some r => Some (expandRange2 r)
      | None => Some []
      end
    else
      match chrono_parseDate after with
      | Threw => None
      | Returned (Some d) =>
          let start := d in
          let end_ := addDays start 4 in
          Some (eachDayOfInterval (Some start) (Some end_))
      | Returned None => Some []
      end
  else
    match chrono_parseDate datePart with
    | Threw => None
    | Returned (Some d) => Some [d]
    | Returned None => Some []
    end.

Definition parseLineToEvents (line : jsstring) : list BulkEvent :=
  let raw := trim line in
  match raw with
  | [] => []
  | _ :: _ =>
      let s := replaceAll spacedHyphen (lit " - ")
                 (replaceAll dashes (lit "-") raw) in
      let s := trim (replaceAll parens [] s) in
      let weekOf := test weekOfRegex s in
      let '(titlePart, datePart) :=
        match exec monthRegex s with
        | Some m =>
            match indexOf (toLowerCase (m_text m)) (toLowerCase s) with
            | Some idx => (cleanTitle (sliceTo s idx), sliceFrom s idx)
            | None => (cleanTitle (sliceTo s (List.length s - 1)),
                       sliceFrom s (List.length s - 1))
            end
        | None => (cleanTitle s, s)
        end in
      match lineDates weekOf datePart with
      | None => []
      | Some dates =>
          let title := orElse (cleanTitle titlePart) (lit "Event") in
          let type := guessType title in
          if (1 <? List.length dates)%nat then
            let startDate := formatISO (List.nth 0 dates 0) in
            let endDate :=
              formatISO (List.nth (List.length dates - 1) dates 0) in
            [ mkBulkEvent type title startDate (Some startDate) (Some endDate) ]
          else
            List.map (fun d => mkBulkEvent type title (formatISO d) None None)
                     dates
      end
  end.

End WithChrono.

End BulkParser.

(* ===================================================================== *)
(** ** client/src/lib/dateParser.ts *)
(* ===================================================================== *)

Module DateParser.
Import JS DateFns.

(** Format a date without timezone issues. *)
Definition formatDateSafe (date : Date) : jsstring :=
  let year := getFullYear date in
  let month := padStart0 2 (toString (getMonth date + 1)) in
  let day := padStart0 2 (toString (getDate date)) in
  toString year ++ lit "-" ++ month ++ lit "-" ++ day.

Record ParsedEvent := mkParsedEvent {
  title : jsstring;
  date : jsstring;
  endDate : option jsstring;
  startTime : option jsstring;
  endTime : option jsstring;
  type : option EventType
}.

(** [s.includes(k)] for a keyword. *)
Definition has (s : jsstring) (k : string) : bool := includes s (lit k).

(** Extract event type from common keywords. *)
Definition extractType (cleanInput : jsstring) : option EventType :=
  if has cleanInput "planning" || has cleanInput "pi planning" || has cleanInput "qbr planning"
  then Some PLANNING
  else if has cleanInput "monthly review" || has cleanInput "month review" || has cleanInput "monthly"
  then Some MONTHLY_REVIEW
  else if has cleanInput "meeting" || has cleanInput "standup" || has cleanInput "review"
          || has cleanInput "retrospective" || has cleanInput "qbr"
  then Some MEETING
  else if has cleanInput "holiday" || has cleanInput "vacation" || has cleanInput "thanksgiving"
          || has cleanInput "veterans" || has cleanInput "christmas"
  then Some HOLIDAYS
  else None.

Definition monthAbbr : regex := words_i monthAbbrevs.

(** The three date range patterns: "15-17 Oct", "12/1-12/3", "Dec 1-3". *)
Definition dateRangePatterns : list regex :=
  [ seqOf [Grp 1 (digits 1 2); spaces; chr "-"; spaces; Grp 2 (digits 1 2);
           spaces1; Grp 3 monthAbbr];
    seqOf [Grp 1 (digits 1 2); chr "/"; Grp 2 (digits 1 2); spaces; chr "-";
           spaces; Grp 3 (digits 1 2); chr "/"; Grp 4 (digits 1 2)];
    seqOf [Grp 1 monthAbbr; spaces1; Grp 2 (digits 1 2); spaces; chr "-";
           spaces; Grp 3 (digits 1 2)] ].

(** The single date patterns. *)
Definition datePatterns : list regex :=
  [ seqOf [Grp 1 (digits 1 2); spaces1; Grp 2 monthAbbr];
    seqOf [Grp 1 (digits 1 2); chr "/"; Grp 2 (digits 1 2); chr "/";
           Grp 3 (digits 4 4)];
    seqOf [Grp 1 (digits 1 2); chr "/"; Grp 2 (digits 1 2)];
    Grp 1 (words_i ["today"; "tomorrow"]%string);
    Grp 1 (words_i ["monday"; "tuesday"; "wednesday"; "thursday"; "friday";
                    "saturday"; "sunday"]%string) ].

(** The time patterns. *)
Definition ampm : regex := words_i ["am"; "pm"]%string.

Definition timePatterns : list regex :=
  [ seqOf [Grp 1 (digits 1 2); spaces; chr "-"; spaces; Grp 2 (digits 1 2);
           spaces; opt (Grp 3 ampm)];
    seqOf [Grp 1 (digits 1 2); chr ":"; Grp 2 (digits 2 2); spaces; chr "-";
           spaces; Grp 3 (digits 1 2); chr ":"; Grp 4 (digits 2 2)];
    seqOf [Grp 1 (digits 1 2); spaces; Grp 2 ampm] ].

(** [for (const pattern of patterns) { const match = s.match(pattern);
    if (match) { ...; break; } }]: the match of the first pattern that
    matches. *)
Fixpoint firstMatch (patterns : list regex) (s : jsstring) : option jsmatch :=
  match patterns with
  | [] => None
  | pattern :: rest =>
      match exec pattern s with
      | Some m => Some m
      | None => firstMatch rest s
      end
  end.

(** [monthMap[key]]; [None] is [undefined].  The keys looked up are
    lower-cased captures: digits or month abbreviations. *)
Fixpoint lookupMonth (names : list string) (key : jsstring) (i : Z)
  : option Z :=
  match names with
  | [] => None
  | n :: rest =>
      if str_eqb (lit n) key then Some i else lookupMonth rest key (i + 1)
  end.

Definition monthMap (key : jsstring) : option Z :=
  lookupMonth monthAbbrevs key 0.

(** [match[i]] where the code has tested it, or uses it as a string. *)
Definition sub (m : jsmatch) (i : nat) : jsstring :=
  match group m i with Some v => v | None => [] end.

Definition pad2 (n : Z) : jsstring := padStart0 2 (toString n).

(** [`${year}-${month}-${day}`] *)
Definition isoText (year : Z) (month day : jsstring) : jsstring :=
  toString year ++ lit "-" ++ month ++ lit "-" ++ day.

Section WithToday.

(** [new Date()], the current local date. *)
Variable today : Date.

(** Check for date ranges first: [(parsedDate, parsedEndDate)]. *)
Definition extractDateRange (cleanInput : jsstring)
  : option jsstring * option jsstring :=
  match firstMatch dateRangePatterns cleanInput with
  | None => (None, None)
  | Some m =>
      let year := getFullYear today in
      if truthy (group m 3) && truthy (group m 1) && truthy (group m 2) then
        (* Pattern: "15-17 Oct" *)
        match monthMap (toLowerCase (sub m 3)) with
        | Some month =>
            let startDay := parseInt (sub m 1) in
            let endDay := parseInt (sub m 2) in
            let monthStr := pad2 (month + 1) in
            (Some (isoText year monthStr (pad2 startDay)),
             Some (isoText year monthStr (pad2 endDay)))
        | None => (None, None)
        end
      else if truthy (group m 1) && truthy (group m 2) && truthy (group m 3)
              && truthy (group m 4) then
        (* Pattern: "12/1-12/3" *)
        let startMonth := parseInt (sub m 1) in
        let startDay := parseInt (sub m 2) in
        let endMonth := parseInt (sub m 3) in
        let endDay := parseInt (sub m 4) in
        (Some (isoText year (pad2 startMonth) (pad2 startDay)),
         Some (isoText year (pad2 endMonth) (pad2 endDay)))
      else if truthy (group m 1) && truthy (group m 2) && truthy (group m 3)
      then
        (* Pattern: "Oct 15-17" *)
        match monthMap (toLowerCase (sub m 1)) with
        | Some month =>
            let startDay := parseInt (sub m 2) in
            let endDay := parseInt (sub m 3) in
            let monthStr := pad2 (month + 1) in
            (Some (isoText year monthStr (pad2 startDay)),
             Some (isoText year monthStr (pad2 endDay)))
        | None => (None, None)
        end
      else (None, None)
  end.

(** If no date range was found, check for single dates. *)
Definition extractSingleDate (cleanInput : jsstring) : option jsstring :=
  match firstMatch datePatterns cleanInput with
  | None => None
  | Some m =>
      if str_eqb (toLowerCase (m_text m)) (lit "today") then
        Some (formatDateSafe today)
      else if str_eqb (toLowerCase (m_text m)) (lit "tomorrow") then
        let tomorrow := addDays today 1 in
        Some (formatDateSafe tomorrow)
      else if truthy (group m 1) && truthy (group m 2) then
        (* "15 Oct" format *)
        match monthMap (toLowerCase (sub m 2)) with
        | Some month =>
            let year := getFullYear today in
            let day := parseInt (sub m 1) in
            let monthStr := pad2 (month + 1) in
            let dayStr := pad2 day in
            Some (isoText year monthStr dayStr)
        | None => None
        end
      else None
  end.

Definition extractDates (cleanInput : jsstring)
  : option jsstring * option jsstring :=
  let '(parsedDate, parsedEndDate) := extractDateRange cleanInput in
  if negb (truthy parsedDate)
  then (extractSingleDate cleanInput, parsedEndDate)
  else (parsedDate, parsedEndDate).

End WithToday.

Definition hourText (h : Z) : jsstring := pad2 h ++ lit ":00".

(** Extract time patterns: [(startTime, endTime)]. *)
Definition extractTimes (cleanInput : jsstring)
  : option jsstring * option jsstring :=
  match firstMatch timePatterns cleanInput with
  | None => (None, None)
  | Some m =>
      if truthy (group m 3) && truthy (group m 1) && truthy (group m 2) then
        (* Format like "2-4pm" or "9-11am" *)
        let isPM := str_eqb (toLowerCase (sub m 3)) (lit "pm") in
        let start := parseInt (sub m 1) in
        let end_ := parseInt (sub m 2) in
        let start := if isPM && negb (start =? 12) then start + 12 else start in
        let end_ := if isPM && negb (end_ =? 12) then end_ + 12 else end_ in
        (Some (hourText start), Some (hourText end_))
      else if truthy (group m 1) && truthy (group m 2) then
        (* Format like "9am" *)
        let hour := parseInt (sub m 1) in
        let isPM := truthy (group m 2)
                    && str_eqb (toLowerCase (sub m 2)) (lit "pm") in
        let hour := if isPM && negb (hour =? 12) then hour + 12 else hour in
        (Some (hourText hour), None)
      else (None, None)
  end.

(** The patterns removed from the title. *)
Definition titleDayMonth : regex :=
  seqOf [spaces1; opt (Grp 1 (words_i ["on"; "at"]%string)); spaces1;
         digits 1 2; spaces1; Grp 2 monthAbbr].
Definition titleTodayTomorrow : regex :=
  seqOf [spaces1; Grp 1 (words_i ["today"; "tomorrow"]%string)].
Definition titleNumericDate : regex :=
  seqOf [spaces1; digits 1 2; chr "/"; digits 1 2;
         opt (Grp 1 (Seq (chr "/") (digits 4 4)))].
Definition titleHourRange : regex :=
  seqOf [spaces1; digits 1 2; spaces; chr "-"; spaces; digits 1 2; spaces;
         opt (Grp 1 ampm)].
Definition titleClockRange : regex :=
  seqOf [spaces1; digits 1 2; chr ":"; digits 2 2; spaces; chr "-"; spaces;
         digits 1 2; chr ":"; digits 2 2].
Definition titleHour : regex :=
  seqOf [spaces1; digits 1 2; spaces; Grp 1 ampm].

(** Extract title (everything before the date/time info). *)
Definition extractTitle (input : jsstring)
  (parsedDate startTime endTime : option jsstring) : jsstring :=
  let title := input in
  let title :=
    if truthy parsedDate then
      replace titleNumericDate []
        (replace titleTodayTomorrow []
           (replace titleDayMonth [] title))
    else title in
  let title :=
    if truthy startTime || truthy endTime then
      replace titleHour []
        (replace titleClockRange []
           (replace titleHourRange [] title))
    else title in
  trim title.

Definition parseNaturalLanguage (today : Date) (input : jsstring)
  : option ParsedEvent :=
  let cleanInput := toLowerCase (trim input) in
  let type := extractType cleanInput in
  let '(parsedDate, parsedEndDate) := extractDates today cleanInput in
  let '(startTime, endTime) := extractTimes cleanInput in
  let title := extractTitle input parsedDate startTime endTime in
  match title, parsedDate with
  | _ :: _, Some ((_ :: _) as date) =>
      Some (mkParsedEvent title date parsedEndDate startTime endTime type)
  | _, _ => None
  end.

End DateParser.

(* ===================================================================== *)
(** ** The calendar component: lanes of multi-day events *)
(* ===================================================================== *)

(** The fields of an [Event] (shared/schema) read by the lane layout. *)
Module Schema.
Import JS.

Record Event := mkEvent {
  id : jsstring;
  date : jsstring;
  endDate : option jsstring
}.

End Schema.

Module Calendar.
Import JS DateFns.

(** [format(d, 'yyyy-MM-dd')] of date-fns: a [RangeError] ([None]) on an
    Invalid Date; the token [yyyy] prints the year of the era. *)
Definition format (d : option Date) : option jsstring :=
  match d with
  | None => None
  | Some d =>
      let signedYear := getFullYear d in
      let year := if signedYear >? 0 then signedYear else 1 - signedYear in
      Some (addLeadingZeros year 4 ++ lit "-" ++
            addLeadingZeros (getMonth d + 1) 2 ++ lit "-" ++
            addLeadingZeros (getDate d) 2)
  end.

Record Interval := mkInterval {
  event : Schema.Event;
  start : Z;
  end_ : Z;
  startDate : option Date;
  endDate : option Date
}.

Record LaneEntry := mkLaneEntry {
  l_start : Z;
  l_end : Z;
  eventId : jsstring
}.

Record LaneResult := mkLaneResult {
  eventLanes : gmap jsstring nat;
  maxLanes : nat
}.

(** [arr.findIndex(f)] where [f] may throw ([None]). *)
Fixpoint findIndexFrom {A} (f : A -> option bool) (l : list A) (i : Z)
  : option Z :=
  match l with
  | [] => Some (-1)
  | x :: t =>
      match f x with
      | None => None
      | Some true => Some i
      | Some false => findIndexFrom f t (i + 1)
      end
  end.

Definition findIndex {A} (f : A -> option bool) (l : list A) : option Z :=
  findIndexFrom f l 0.

(** [arr.map(f)] where [f] may throw. *)
Fixpoint mapThrowing {A B} (f : A -> option B) (l : list A)
  : option (list B) :=
  match l with
  | [] => Some []
  | x :: t =>
      match f x with
      | None => None
      | Some y =>
          match mapThrowing f t with
          | None => None
          | Some ys => Some (y :: ys)
          end
      end
  end.

(** The comparator handed to [sort]: by start day, then longer first. *)
Definition compareIntervals (a b : Interval) : Z :=
  if negb (start a =? start b) then start a - start b
  else (end_ b - start b) - (end_ a - start a).

(** [Array.prototype.sort] is stable; with a comparator that is a
    consistent ordering its result is that of the stable insertion sort. *)
Fixpoint insertSorted {A} (cmp : A -> A -> Z) (x : A) (l : list A) : list A :=
  match l with
  | [] => [x]
  | y :: t => if cmp y x >? 0 then x :: y :: t else y :: insertSorted cmp x t
  end.

Definition sort {A} (cmp : A -> A -> Z) (l : list A) : list A :=
  List.fold_left (fun acc x => insertSorted cmp x acc) l [].

(** The test of the inner loop: the interval overlaps an entry of a lane. *)
Definition overlaps (interval : Interval) (existing : LaneEntry) : bool :=
  negb ((end_ interval <? l_start existing)
        || (start interval >? l_end existing)).

Definition canFit (interval : Interval) (lane : list LaneEntry) : bool :=
  List.forallb (fun existing => negb (overlaps interval existing)) lane.

Definition entryOf (interval : Interval) : LaneEntry :=
  mkLaneEntry (start interval) (end_ interval) (Schema.id (event interval)).

(** Try to assign to an existing lane, from [laneIndex] on: the lane
    found and the lanes after the push, or [None] ([assignedLane] stays
    -1). *)
Fixpoint tryLanes (interval : Interval) (lanes : list (list LaneEntry))
  (laneIndex : nat) : option (nat * list (list LaneEntry)) :=
  match lanes with
  | [] => None
  | lane :: rest =>
      if canFit interval lane
      then Some (laneIndex, (lane ++ [entryOf interval]) :: rest)
      else match tryLanes interval rest (S laneIndex) with
           | Some (i, rest') => Some (i, lane :: rest')
           | None => None
           end
  end.

(** One turn of the greedy loop. *)
Definition assignOne (st : list (list LaneEntry) * gmap jsstring nat)
  (interval : Interval) : list (list LaneEntry) * gmap jsstring nat :=
  let '(lanes, eventLanes) := st in
  let '(assignedLane, lanes) :=
    match tryLanes interval lanes 0 with
    | Some (i, lanes') => (i, lanes')
    | None =>
        (* no existing lane works, create new lane *)
        (List.length lanes, lanes ++ [[entryOf interval]])
    end in
  (lanes, <[Schema.id (event interval) := assignedLane]> eventLanes).

Definition assignLoop (intervals : list Interval)
  : list (list LaneEntry) * gmap jsstring nat :=
  List.fold_left assignOne intervals ([], empty).

Section WithDateConstructor.

(** [new Date(text)] for a string: the host's [Date.parse], [None] being
    the Invalid Date. *)
Variable newDate : jsstring -> option Date.

(** [event.endDate! + 'T00:00:00'] *)
Definition endDateText (e : Schema.Event) : jsstring :=
  match Schema.endDate e with
  | Some t => t
  | None => lit "undefined"
  end.

Definition sameDay (d : option Date) (day : Date) : option bool :=
  match format (Some day), format d with
  | Some a, Some b => Some (str_eqb a b)
  | _, _ => None
  end.

(** Convert an event to an interval with its indices within this week. *)
Definition toInterval (weekDays : list Date) (e : Schema.Event)
  : option Interval :=
  let startDate := newDate (Schema.date e ++ lit "T00:00:00") in
  let endDate := newDate (endDateText e ++ lit "T00:00:00") in
  match findIndex (sameDay startDate) weekDays with
  | None => None
  | Some startIdx =>
      match findIndex (sameDay endDate) weekDays with
      | None => None
      | Some endIdx =>
          Some (mkInterval e
                  (if startIdx >=? 0 then startIdx else 0)
                  (if endIdx >=? 0 then endIdx
                   else Z.of_nat (List.length weekDays) - 1)
                  startDate endDate)
      end
  end.

(** The intervals of the week, filtered and sorted; [None] when [format]
    threw. *)
Definition weekIntervals (events : list Schema.Event) (weekDays : list Date)
  : option (list Interval) :=
  match mapThrowing (toInterval weekDays) events with
  | None => None
  | Some intervals =>
      Some (sort compareIntervals
              (List.filter (fun interval => start interval <=? end_ interval)
                           intervals))
  end.

(** Lane assignment algorithm for multi-day events; [None] when an
    exception escaped. *)
Definition assignEventLanes (events : list Schema.Event)
  (weekDays : list Date) : option LaneResult :=
  match events with
  | [] => Some (mkLaneResult empty 0)
  | _ :: _ =>
      match weekIntervals events weekDays with
      | None => None
      | Some intervals =>
          let '(lanes, eventLanes) := assignLoop intervals in
          Some (mkLaneResult eventLanes (List.length lanes))
      end
  end.

(** The events handed to [assignEventLanes] by [renderMonth]: those with
    [eventEnd >= weekStart && eventStart <= weekEnd] (a comparison with
    an Invalid Date is false). *)
Definition weekSpanningEvents (multiDayEvents : list Schema.Event)
  (weekDays : list Date) : list Schema.Event :=
  List.filter
    (fun e =>
       match newDate (Schema.date e ++ lit "T00:00:00"),
             newDate (endDateText e ++ lit "T00:00:00"),
             List.head weekDays, List.last (List.map Some weekDays) None with
       | Some eventStart, Some eventEnd, Some weekStart, Some weekEnd =>
           (eventEnd >=? weekStart) && (eventStart <=? weekEnd)
       | _, _, _, _ => false
       end)
    multiDayEvents.

End WithDateConstructor.

(** A host for the examples: [new Date(text)] as V8 reads a text of the
    form [YYYY-MM-DDT00:00:00], local midnight of the day written; a day
    number up to 31 that is past the end of the month runs on into the next
    month ("2025-02-30T00:00:00" is 2 March).  A text of another form is
    answered with the Invalid Date. *)
Definition isoDateTime : regex :=
  seqOf [StartOfInput; Grp 1 (digits 4 4); chr "-"; Grp 2 (digits 2 2);
         chr "-"; Grp 3 (digits 2 2); word "T00:00:00"; EndOfInput].

Definition parseISO (text : jsstring) : option Date :=
  match exec isoDateTime text with
  | None => None
  | Some m =>
      let get i := match group m i with Some v => parseInt v | None => 0 end in
      let y := get 1%nat in let mo := get 2%nat in let d := get 3%nat in
      if (1 <=? mo) && (mo <=? 12) && (1 <=? d) && (d <=? 31)
      then Some (mkDate y (mo - 1) d) else None
  end.

End Calendar.

(* ===================================================================== *)
(** ** More of the host: [split], [Date.parse], days of the week *)
(* ===================================================================== *)

Module Host.
Import JS DateFns.

(** [s.split(r)] for a pattern without capturing groups
    (RegExp.prototype[@@split]): the pattern is tried at each position [q]
    in turn; [piece] is the text from the start [p] of the current piece to
    [q], last character first; a match that ends at [p] is passed over. *)
Fixpoint splitLoop (fuel : nat) (r : regex) (pre piece : list char)
  (s : jsstring) : list jsstring :=
  match fuel with
  | O => [List.rev piece ++ s]
  | S fuel' =>
      match s with
      | [] => [List.rev piece]
      | c :: t =>
          match run r Some (MState pre s []) with
          | Some s' =>
              if Nat.eqb (List.length (before s')) (List.length pre)
                 && match piece with [] => true | _ :: _ => false end
              then splitLoop fuel' r (c :: pre) (c :: piece) t
              else List.rev piece
                     :: splitLoop fuel' r (before s') [] (after s')
          | None => splitLoop fuel' r (c :: pre) (c :: piece) t
          end
      end
  end.

Definition split (r : regex) (s : jsstring) : list jsstring :=
  match s with
  | [] => match run r Some (MState [] [] []) with
          | Some _ => []
          | None => [[]]
          end
  | _ :: _ => splitLoop (2 * List.length s + 1) r [] [] s
  end.

(** [arr.join(sep)]. *)
Fixpoint join (sep : jsstring) (l : list jsstring) : jsstring :=
  match l with
  | [] => []
  | [a] => a
  | a :: t => a ++ sep ++ join sep t
  end.

(** [date.getDay()]: 0 is Sunday; 1 January 1970 was a Thursday. *)
Definition getDay (d : Date) : Z := (d + 4) mod 7.

(** MakeDay of ECMAScript, as in [new Date(year, month, day)] and
    [setFullYear(year, month, day)]: months beyond 0..11 move the year,
    days beyond the month move the date. *)
Definition makeDay (year month day : Z) : Date :=
  mkDate (year + month / 12) (month mod 12) day.

(** [new Date(year, month, day)]: a year from 0 to 99 stands for the year
    1900 + year. *)
Definition newDateYMD (year month day : Z) : Date :=
  makeDay (if (0 <=? year) && (year <=? 99) then 1900 + year else year)
          month day.

(** A time value is a number of milliseconds since the epoch; [None] is
    NaN, the time value of an Invalid Date. *)
Definition msPerDay : Z := 86400000.

(** The date-only form [YYYY-MM-DD] of the ECMAScript date-time string
    format, read strictly: the day number it denotes. *)
Definition isoDate : regex :=
  seqOf [StartOfInput; Grp 1 (digits 4 4); chr "-"; Grp 2 (digits 2 2);
         chr "-"; Grp 3 (digits 2 2); EndOfInput].

Definition parseISODate (text : jsstring) : option Z :=
  match exec isoDate text with
  | None => None
  | Some m =>
      let get i := match group m i with Some v => parseInt v | None => 0 end in
      let y := get 1%nat in let mo := get 2%nat in let d := get 3%nat in
      if (1 <=? mo) && (mo <=? 12) && (1 <=? d) && (d <=? daysInMonth y (mo - 1))
      then Some (mkDate y (mo - 1) d) else None
  end.

(** [a < b], [a > b], [a <= b], [a >= b] on time values: a comparison with
    NaN is false. *)
Definition lt (a b : option Z) : bool :=
  match a, b with Some x, Some y => x <? y | _, _ => false end.
Definition le (a b : option Z) : bool :=
  match a, b with Some x, Some y => x <=? y | _, _ => false end.
Definition gt (a b : option Z) : bool := lt b a.
Definition ge (a b : option Z) : bool := le b a.

(** What the host's [new Date(text)] has to do by the ECMAScript
    specification: a date-only form is read as UTC midnight of its day, and
    the form [YYYY-MM-DDT00:00:00] as local midnight of its day.  Texts in
    no form of the specification are left to the host. *)
Definition readsDateOnly (dateParse : jsstring -> option Z) : Prop :=
  forall text d, parseISODate text = Some d ->
    dateParse text = Some (d * msPerDay).


End Host.
(* ===================================================================== *)
(** ** client/src/lib/bulkParser.ts: [parseBulkText] *)
(* ===================================================================== *)

Module BulkText.
Import JS DateFns BulkParser.

(** /\r?\n/ *)
Definition lineBreak : regex :=
  Seq (opt (Cls (char_eqb 13%N))) (Cls (char_eqb 10%N)).

(** [isBefore] and [isAfter] of date-fns. *)
Definition isBefore (date dateToCompare : option Z) : bool :=
  Host.lt date dateToCompare.
Definition isAfter (date dateToCompare : option Z) : bool :=
  Host.gt date dateToCompare.

Section WithHost.

Variable chrono_parseDate : jsstring -> chronoOutcome.

(** [new Date(text)]: the time value of the date, by the host's
    [Date.parse]. *)
Variable dateParse : jsstring -> option Z.

(** Operating Year 2025-26. *)
Definition OPERATING_START : option Z := dateParse (lit "2025-08-01").
Definition OPERATING_END : option Z := dateParse (lit "2026-07-31").

(** Parse many lines to events; optionally clip to the operating window.
    ([filter(Boolean)] keeps every event, an object.) *)
Definition parseBulkText (text : jsstring) (clipToOperatingYear : bool)
  : list BulkEvent :=
  let all :=
    List.flat_map (parseLineToEvents chrono_parseDate)
                  (Host.split lineBreak text) in
  if negb clipToOperatingYear then all
  else
    List.filter
      (fun e =>
         let d := dateParse (date e) in
         negb (isBefore d OPERATING_START) && negb (isAfter d OPERATING_END))
      all.

End WithHost.

End BulkText.
(* ===================================================================== *)
(** ** shared/schema: the refinement of [createEventSchema] *)
(* ===================================================================== *)

(** An event at run time is an object whose properties hold strings or
    [undefined]. *)
Module Obj.
Import JS.

Definition value := option jsstring.
Definition object := gmap jsstring value.

(** [o.k] *)
Definition get (o : object) (k : string) : value :=
  match o !! lit k with
  | Some v => v
  | None => None
  end.

(** [{ ...o, k: v }] *)
Definition set (k : string) (v : jsstring) (o : object) : object :=
  <[lit k := Some v]> o.

(** [{ ...a, ...b }]: the properties of [b] win. *)
Definition spread (a b : object) : object := b ∪ a.

(** A value inside a string concatenation. *)
Definition text (v : value) : jsstring :=
  match v with
  | Some t => t
  | None => lit "undefined"
  end.

(** [v === s] for a string [s]. *)
Definition isString (v : value) (s : jsstring) : bool :=
  match v with
  | Some t => str_eqb t s
  | None => false
  end.

End Obj.

Module SharedSchema.
Import JS Obj.

Section WithHost.

Variable dateParse : jsstring -> option Z.

(** The refinement of [createEventSchema]: if [endDate] is provided, it
    should be on or after the start date. *)
Definition endDateOnOrAfterDate (data : object) : bool :=
  if truthy (get data "endDate") && truthy (get data "date") then
    Host.ge (dateParse (text (get data "endDate")))
            (dateParse (text (get data "date")))
  else true.

End WithHost.

End SharedSchema.

(* ===================================================================== *)
(** ** The calendar store ([useCalendarStore]): the events of a date *)
(* ===================================================================== *)

Module CalendarStore.
Import JS DateFns Obj.

Section WithDateConstructor.

(** [new Date(text)] for a text that ends in 'T00:00:00'. *)
Variable newDate : jsstring -> option Date.

(** Check if the event occurs on the given date. *)
Definition isEventOnDate (event : object) (date : jsstring) : bool :=
  let eventDate := newDate (text (get event "date") ++ lit "T00:00:00") in
  let checkDate := newDate (date ++ lit "T00:00:00") in
  if negb (truthy (get event "endDate")) then
    (* single day event *)
    isString (get event "date") date
  else
    (* multi-day event: the date falls within the range *)
    let endDate := newDate (text (get event "endDate") ++ lit "T00:00:00") in
    Host.ge checkDate eventDate && Host.le checkDate endDate.

(** [getEventsForDate], [events] being the events of the store. *)
Definition getEventsForDate (events : list object) (date : jsstring)
  : list object :=
  List.filter (fun event => isEventOnDate event date) events.

End WithDateConstructor.

End CalendarStore.

(* ===================================================================== *)
(** ** The calendar component: the months of the year view and the weeks
    of a month *)
(* ===================================================================== *)

Module CalendarView.
Import JS DateFns.

(** [startOfMonth], [endOfMonth], [startOfWeek] and [endOfWeek] of
    date-fns, the week starting on Sunday. *)
Definition startOfMonth (d : Date) : Date :=
  Host.makeDay (getFullYear d) (getMonth d) 1.
Definition endOfMonth (d : Date) : Date :=
  Host.makeDay (getFullYear d) (getMonth d + 1) 0.
Definition startOfWeek (d : Date) : Date := d - Host.getDay d.
Definition endOfWeek (d : Date) : Date := d + (6 - Host.getDay d).

(** A month shown: its first day and the days of its weeks. *)
Record MonthData := mkMonthData {
  month : Date;
  days : list Date
}.

Definition monthData (monthYear monthIndex : Z) : MonthData :=
  let month := Host.newDateYMD monthYear monthIndex 1 in
  let monthStart := startOfMonth month in
  let monthEnd := endOfMonth month in
  let calendarStart := startOfWeek monthStart in
  let calendarEnd := endOfWeek monthEnd in
  mkMonthData month
    (eachDayOfInterval (Some calendarStart) (Some calendarEnd)).

(** [quarter.months.includes(10)] *)
Definition includes10 (months : list Z) : bool :=
  List.existsb (fun m => m =? 10) months.

(** Generate data for all 4 quarters at once; [today] is [new Date()]. *)
Record QuarterData := mkQuarterData {
  quarterName : jsstring;
  months : list MonthData
}.

Definition quarters : list (jsstring * list Z) :=
  [ (lit "Q1", [7; 8; 9]); (lit "Q2", [10; 11; 0]);
    (lit "Q3", [1; 2; 3]); (lit "Q4", [4; 5; 6]) ].

Definition allQuartersData (today : Date) : list QuarterData :=
  let currentYear := getFullYear today in
  List.map
    (fun quarter : jsstring * list Z =>
       let '(name, quarterMonths) := quarter in
       let monthsData :=
         List.map
           (fun monthIndex =>
              let monthYear :=
                if (monthIndex =? 0) && includes10 quarterMonths
                then currentYear + 1
                else if str_eqb name (lit "Q3") || str_eqb name (lit "Q4")
                then currentYear + 1
                else currentYear in
              monthData monthYear monthIndex)
           quarterMonths in
       mkQuarterData name monthsData)
    quarters.

(** Monday (1) to Friday (5). *)
Definition isWorkDay (day : Date) : bool :=
  let dayOfWeek := Host.getDay day in
  (dayOfWeek >=? 1) && (dayOfWeek <=? 5).

(** One turn of the [forEach] of [groupDaysIntoWeeks], on [weeks] and
    [currentWeek]. *)
Definition groupStep (st : list (list Date) * list Date) (day : Date)
  : list (list Date) * list Date :=
  let '(weeks, currentWeek) := st in
  let dayOfWeek := Host.getDay day in
  if (dayOfWeek =? 1) && (0 <? List.length currentWeek)%nat
  then (weeks ++ [currentWeek], [day])
  else (weeks, currentWeek ++ [day]).

(** Group days into weeks for spanning events. *)
Definition groupDaysIntoWeeks (days : list Date) : list (list Date) :=
  let workDays := List.filter isWorkDay days in
  let '(weeks, currentWeek) := List.fold_left groupStep workDays ([], []) in
  if (0 <? List.length currentWeek)%nat then weeks ++ [currentWeek]
  else weeks.

End CalendarView.

(* ===================================================================== *)
(** ** The sidebar: quick add *)
(* ===================================================================== *)

Module Sidebar.
Import JS DateFns Obj.

(** What [handleQuickAdd] does with the input: nothing, a toast about the
    text that could not be parsed, or a call of the store's [createEvent]
    with an event. *)
Inductive quickAdd :=
| Ignored
| ParseError
| Create (eventData : object).

Definition typeName (t : EventType) : jsstring :=
  match t with
  | PLANNING => lit "PLANNING"
  | MEETING => lit "MEETING"
  | MONTHLY_REVIEW => lit "MONTHLY_REVIEW"
  | HOLIDAYS => lit "HOLIDAYS"
  end.

(** [{ title, type, date, startTime, endTime }], a property whose value is
    [undefined] included. *)
Definition eventData (title type date : jsstring) (startTime endTime : value)
  : object :=
  <[lit "endTime" := endTime]>
    (<[lit "startTime" := startTime]>
       (<[lit "date" := Some date]>
          (<[lit "type" := Some type]>
             (<[lit "title" := Some title]> ∅)))).

Definition handleQuickAdd (today : Date) (quickAddInput : jsstring)
  : quickAdd :=
  match trim quickAddInput with
  | [] => Ignored
  | _ :: _ =>
      match DateParser.parseNaturalLanguage today quickAddInput with
      | None => ParseError
      | Some parsed =>
          Create
            (eventData
               (DateParser.title parsed)
               (match DateParser.type parsed with
                | Some t => typeName t
                | None => lit "MEETING"
                end)
               (DateParser.date parsed)
               (DateParser.startTime parsed)
               (DateParser.endTime parsed))
      end
  end.

End Sidebar.

(* ===================================================================== *)
(** ** The card of a multi-day event in a week ([SpanningEventCard]) *)
(* ===================================================================== *)

Module SpanningEventCard.
Import JS DateFns.

(** [format(a, 'yyyy-MM-dd') === format(b, 'yyyy-MM-dd')] for two dates
    that are valid, as the days of an interval and the days of a week
    are. *)
Definition sameText (a b : Date) : bool :=
  match Calendar.format (Some a), Calendar.format (Some b) with
  | Some x, Some y => str_eqb x y
  | _, _ => false
  end.

(** [arr.findIndex(f)] *)
Fixpoint findIndexFrom {A} (f : A -> bool) (l : list A) (i : Z) : Z :=
  match l with
  | [] => -1
  | x :: t => if f x then i else findIndexFrom f t (i + 1)
  end.

Definition findIndex {A} (f : A -> bool) (l : list A) : Z :=
  findIndexFrom f l 0.

(** Where the card is drawn: from the day [startIndex] of the week, over
    [spanDays] days ([left] is 20% per day, [width] 20% per day less
    0.5). *)
Record Bar := mkBar {
  startIndex : Z;
  spanDays : nat
}.

(** The position of the card, [None] when the component returns [null]:
    the days of the week on which the event lies. *)
Definition position (startDate endDate : option Date) (weekDays : list Date)
  : option Bar :=
  let eventDays := eachDayOfInterval startDate endDate in
  let weekEventDays :=
    List.filter
      (fun weekDay =>
         List.existsb (fun eventDay => sameText eventDay weekDay) eventDays)
      weekDays in
  match weekEventDays with
  | [] => None
  | first :: _ =>
      let startIndex :=
        findIndex (fun day => sameText day first) weekDays in
      let spanDays := List.length weekEventDays in
      Some (mkBar startIndex spanDays)
  end.

End SpanningEventCard.

(* ===================================================================== *)
(** ** Vocabulary of the specification *)
(* ===================================================================== *)

Module Spec.
Import JS DateFns.

(** [a <= b] on strings: the order of their code units, which on ISO dates
    of equal width is the order of the dates. *)
Fixpoint str_leb (a b : jsstring) : bool :=
  match a, b with
  | [], _ => true
  | _ :: _, [] => false
  | x :: a', y :: b' =>
      if N.ltb x y then true
      else if N.eqb x y then str_leb a' b' else false
  end.

Definition str_ltb (a b : jsstring) : bool := negb (str_leb b a).

(** The order of year, month and day. *)
Definition civilLtb (a b : Z * Z * Z) : bool :=
  let '(y1, m1, d1) := a in
  let '(y2, m2, d2) := b in
  (y1 <? y2) || ((y1 =? y2) && ((m1 <? m2) || ((m1 =? m2) && (d1 <? d2)))).

(** [f] holds on the [p] integers from [z] on. *)
Fixpoint allFrom (p : positive) (z : Z) (f : Z -> bool) : bool :=
  match p with
  | xH => f z
  | xO p' => allFrom p' z f && allFrom p' (z + Zpos p') f
  | xI p' => f z && allFrom p' (z + 1) f && allFrom p' (z + 1 + Zpos p') f
  end.

(** The day of the era on which the year [y] of the era starts (a 1st of
    March), and the day of such a year on which its month [mp] starts. *)
Definition yearStart (y : Z) : Z := 365 * y + y / 4 - y / 100.
Definition monthStart (mp : Z) : Z := (153 * mp + 2) / 5.

(** The intermediate values of [civilFromDays]: era, year of the era, month
    counted from March, day of the month. *)
Definition civilParts (z : Z) : Z * Z * Z * Z :=
  let z' := z + 719468 in
  let era := z' / 146097 in
  let doe := z' - era * 146097 in
  let yoe := (doe - doe / 1460 + doe / 36524 - doe / 146096) / 365 in
  let doy := doe - (365 * yoe + yoe / 4 - yoe / 100) in
  let mp := (5 * doy + 2) / 153 in
  (era, yoe, mp, doy - (153 * mp + 2) / 5 + 1).

Definition partsLtb (a b : Z * Z * Z * Z) : bool :=
  let '(e1, y1, m1, d1) := a in
  let '(e2, y2, m2, d2) := b in
  (e1 <? e2) || ((e1 =? e2) &&
    ((y1 <? y2) || ((y1 =? y2) && ((m1 <? m2) || ((m1 =? m2) && (d1 <? d2)))))).

(** The check of one number printed on [w] digits: its width, and the next
    number is printed later in the order of strings. *)
Definition paddedOk (w : nat) (n : Z) : bool :=
  Nat.eqb (List.length (addLeadingZeros n w)) w
  && Nat.eqb (List.length (addLeadingZeros (n + 1) w)) w
  && str_ltb (addLeadingZeros n w) (addLeadingZeros (n + 1) w).

(** The fields of a draft the two shapes are about. *)
Record Draft := mkDraft {
  d_date : jsstring;
  d_startDate : option jsstring;
  d_endDate : option jsstring;
  d_startTime : option jsstring;
  d_endTime : option jsstring
}.

(** A [BulkEvent] has no time fields, a [ParsedEvent] no [startDate]. *)
Definition ofBulk (e : BulkParser.BulkEvent) : Draft :=
  mkDraft (BulkParser.date e) (BulkParser.startDate e) (BulkParser.endDate e)
          None None.

Definition ofParsed (e : DateParser.ParsedEvent) : Draft :=
  mkDraft (DateParser.date e) None (DateParser.endDate e)
          (DateParser.startTime e) (DateParser.endTime e).

Definition singleDay (d : Draft) : Prop :=
  d_startDate d = None /\ d_endDate d = None.

Definition multiDay (d : Draft) : Prop :=
  d_startDate d <> None /\ d_endDate d <> None /\
  d_startTime d = None /\ d_endTime d = None.

Definition oneShape (d : Draft) : Prop := singleDay d \/ multiDay d.

(** The end date, when set, is not before the draft's date. *)
Definition ordered (d : Draft) : Prop :=
  forall e, d_endDate d = Some e -> str_leb (d_date d) e = true.

(** The pattern of "15-17 Oct" and the pattern of "2-4pm": the first date
    range pattern and the first time pattern. *)
Definition dayRangePattern : regex :=
  List.nth 0 DateParser.dateRangePatterns Eps.
Definition hourRangePattern : regex :=
  List.nth 0 DateParser.timePatterns Eps.

(** The intermediate values of [parseNaturalLanguage]. *)
Definition cleanInputOf (input : jsstring) : jsstring :=
  toLowerCase (trim input).

Definition parsedDateOf (today : Date) (input : jsstring) : option jsstring :=
  fst (DateParser.extractDates today (cleanInputOf input)).

Definition titleOf (today : Date) (input : jsstring) : jsstring :=
  let '(startTime, endTime) := DateParser.extractTimes (cleanInputOf input) in
  DateParser.extractTitle input (parsedDateOf today input) startTime endTime.

(** A current date for the examples: 15 January 2025. *)
Definition day0 : Date := mkDate 2025 0 15.

(** A week for the examples, Monday 7 to Friday 11 July 2025, and events
    written with their id, start date and end date. *)
Definition week0 : list Date := daysUpFrom (mkDate 2025 6 7) 5.

Definition ev (id date endDate : string) : Schema.Event :=
  Schema.mkEvent (lit id) (lit date) (Some (lit endDate)).

Definition evA : Schema.Event := ev "a" "2025-07-07" "2025-07-11".
Definition evB : Schema.Event := ev "b" "2025-07-07" "2025-07-08".
Definition evC : Schema.Event := ev "c" "2025-07-09" "2025-07-10".

(** Two week intervals overlap unless one ends before the other starts. *)
Definition disjoint (s1 e1 s2 e2 : Z) : Prop := e1 < s2 \/ e2 < s1.

(** The date range [s..e] of an event meets the days of the week shown. *)
Definition intersectsWeek (s e : Date) (weekDays : list Date) : Prop :=
  exists d, In d weekDays /\ s <= d <= e.

(** An event of August 2025, outside [week0]. *)
Definition evX : Schema.Event := ev "x" "2025-08-04" "2025-08-06".

(** An event from the Thursday before [week0] to its Wednesday. *)
Definition evP : Schema.Event := ev "p" "2025-07-03" "2025-07-09".

Definition entriesDisjoint (a b : Calendar.LaneEntry) : Prop :=
  disjoint (Calendar.l_start a) (Calendar.l_end a)
           (Calendar.l_start b) (Calendar.l_end b).

(** The id under which an interval is entered in [eventLanes]. *)
Definition key (iv : Calendar.Interval) : jsstring :=
  Schema.id (Calendar.event iv).

(** Lanes without collisions: in each lane no two entries overlap. *)
Definition lanesOk (lanes : list (list Calendar.LaneEntry)) : Prop :=
  Forall (ForallOrdPairs entriesDisjoint) lanes.

(** The state of the loop after the intervals [done]: the lanes are free of
    collisions, every processed interval sits in the lane the map gives to
    its id, and the map holds processed ids only. *)
Definition loopInv (done : list Calendar.Interval)
  (st : list (list Calendar.LaneEntry) * gmap jsstring nat) : Prop :=
  lanesOk (fst st) /\
  (forall iv, In iv done ->
     exists l lane, snd st !! key iv = Some l /\ fst st !! l = Some lane /\
                    In (Calendar.entryOf iv) lane) /\
  (forall k l, snd st !! k = Some l -> exists iv, In iv done /\ key iv = k).

(** The text [s] contains the text [k]. *)
Definition contains (s k : jsstring) : Prop :=
  exists pre post, s = pre ++ k ++ post.

(** The lower-cased title contains the keyword. *)
Definition mentions (title : jsstring) (k : string) : Prop :=
  contains (toLowerCase title) (lit k).

(** The calendar date (year, month from 1, day of the month) of a local
    day, as the getters of [Date] give it. *)
Definition localDate (d : Date) : Z * Z * Z :=
  (getFullYear d, getMonth d + 1, getDate d).

(** The Gregorian rule of leap years and the lengths of the months. *)
Definition leapYear (y : Z) : bool :=
  ((y mod 4 =? 0) && negb (y mod 100 =? 0)) || (y mod 400 =? 0).

Definition monthLength (y m : Z) : Z :=
  if m =? 2 then (if leapYear y then 29 else 28)
  else if (m =? 4) || (m =? 6) || (m =? 9) || (m =? 11) then 30
  else 31.

(** The calendar date that follows a calendar date. *)
Definition nextDay (c : Z * Z * Z) : Z * Z * Z :=
  let '(y, m, d) := c in
  if d <? monthLength y m then (y, m, d + 1)
  else if m <? 12 then (y, m + 1, 1)
  else (y + 1, 1, 1).

(** The ISO 8601 text YYYY-MM-DD of a calendar date, digit by digit. *)
Definition digitChar (n : Z) : char := Z.to_N (48 + n).

Definition twoDigits (n : Z) : jsstring :=
  [digitChar (n / 10); digitChar (n mod 10)].

Definition fourDigits (n : Z) : jsstring :=
  [digitChar (n / 1000); digitChar (n / 100 mod 10);
   digitChar (n / 10 mod 10); digitChar (n mod 10)].

Definition isoDateText (c : Z * Z * Z) : jsstring :=
  let '(y, m, d) := c in
  fourDigits y ++ lit "-" ++ twoDigits m ++ lit "-" ++ twoDigits d.

(** The years an ISO date writes with four digits and no sign. *)
Definition fourDigitYear (c : Z * Z * Z) : Prop :=
  1000 <= fst (fst c) <= 9999.

(** The check of one number: [toString], and [padStart] to two characters,
    print its digits. *)
Definition fourDigitsOk (n : Z) : bool := str_eqb (toString n) (fourDigits n).
Definition twoDigitsOk (n : Z) : bool :=
  str_eqb (padStart0 2 (toString n)) (twoDigits n).

(** The intermediate values of [parseLineToEvents]: the normalised line,
    its date part, the test for "week of" and the date part without it. *)
Definition normalizedOf (line : jsstring) : jsstring :=
  let raw := trim line in
  let s := replaceAll BulkParser.spacedHyphen (lit " - ")
             (replaceAll BulkParser.dashes (lit "-") raw) in
  trim (replaceAll BulkParser.parens [] s).

Definition datePartOf (line : jsstring) : jsstring :=
  let s := normalizedOf line in
  match exec BulkParser.monthRegex s with
  | Some m =>
      match indexOf (toLowerCase (m_text m)) (toLowerCase s) with
      | Some idx => sliceFrom s idx
      | None => sliceFrom s (List.length s - 1)
      end
  | None => s
  end.

Definition weekOfOf (line : jsstring) : bool :=
  test BulkParser.weekOfRegex (normalizedOf line).

Definition afterWeekOf (line : jsstring) : jsstring :=
  replace BulkParser.weekOfRegex [] (datePartOf line).

(** The two days written in a date part: the days date-fns reads from
    "Month D, YYYY" for the start and for the end of the range matched by
    the first range pattern ("July 9 - 10, 2025", "July 30 - Aug 1, 2025"),
    or else by the second one. *)
Definition writtenDays (datePart : jsstring) (start end_ : Date) : Prop :=
  (exists r,
      exec BulkParser.range1 datePart = Some r /\
      parseExact (BulkParser.dateText (BulkParser.sub r 1) (BulkParser.sub r 2)
                    (BulkParser.sub r 5)) = Some start /\
      parseExact (BulkParser.dateText (BulkParser.subOr r 3 1)
                    (BulkParser.sub r 4) (BulkParser.sub r 5)) = Some end_) \/
  (exec BulkParser.range1 datePart = None /\
   exists r,
      exec BulkParser.range2 datePart = Some r /\
      parseExact (BulkParser.dateText (BulkParser.sub r 1) (BulkParser.sub r 2)
                    (BulkParser.sub r 4)) = Some start /\
      parseExact (BulkParser.dateText (BulkParser.sub r 1) (BulkParser.sub r 3)
                    (BulkParser.sub r 4)) = Some end_).

Definition noRange (datePart : jsstring) : Prop :=
  exec BulkParser.range1 datePart = None /\
  exec BulkParser.range2 datePart = None.

(** The range written in a line: in its date part, or for a "week of" line
    in the date part without "week of". *)
Definition writtenInLine (line : jsstring) (start end_ : Date) : Prop :=
  writtenDays (datePartOf line) start end_ \/
  (noRange (datePartOf line) /\ weekOfOf line = true /\
   writtenDays (afterWeekOf line) start end_).

(** The week of a "week of" line without a written range: the day chrono
    reads and the fourth day after it. *)
Definition weekOfLine (chrono_parseDate : jsstring -> BulkParser.chronoOutcome)
  (line : jsstring) (start end_ : Date) : Prop :=
  noRange (datePartOf line) /\ weekOfOf line = true /\
  noRange (afterWeekOf line) /\
  chrono_parseDate (afterWeekOf line) = BulkParser.Returned (Some start) /\
  end_ = addDays start 4.

(** The range a match of the [i]-th date range pattern writes, as the
    comments of the three branches of [parseNaturalLanguage] read it
    ("15-17 Oct", "12/1-12/3", "Oct 15-17"): the month and the day of the
    start, the month and the day of the end, months from 1. *)
Definition readRange (i : nat) (m : jsmatch) : option (Z * Z * Z * Z) :=
  match i with
  | 0%nat =>
      match DateParser.monthMap (toLowerCase (DateParser.sub m 3)) with
      | Some month =>
          Some (month + 1, parseInt (DateParser.sub m 1),
                month + 1, parseInt (DateParser.sub m 2))
      | None => None
      end
  | 1%nat =>
      Some (parseInt (DateParser.sub m 1), parseInt (DateParser.sub m 2),
            parseInt (DateParser.sub m 3), parseInt (DateParser.sub m 4))
  | 2%nat =>
      match DateParser.monthMap (toLowerCase (DateParser.sub m 1)) with
      | Some month =>
          Some (month + 1, parseInt (DateParser.sub m 2),
                month + 1, parseInt (DateParser.sub m 3))
      | None => None
      end
  | _ => None
  end.

Fixpoint firstRange (i : nat) (patterns : list regex) (s : jsstring)
  : option (Z * Z * Z * Z) :=
  match patterns with
  | [] => None
  | pattern :: rest =>
      match exec pattern s with
      | Some m => readRange i m
      | None => firstRange (S i) rest s
      end
  end.

(** The range written in an input: that of the first date range pattern
    that matches. *)
Definition writtenRange (cleanInput : jsstring) : option (Z * Z * Z * Z) :=
  firstRange 0 DateParser.dateRangePatterns cleanInput.

(** The order of two dates of one year, given by month and day. *)
Definition monthDayLe (mo1 d1 mo2 d2 : Z) : Prop :=
  mo1 < mo2 \/ (mo1 = mo2 /\ d1 <= d2).

(** The check of one number printed on [w] digits: its width, its digits,
    and [parseInt] reads the number back. *)
Definition printedOk (w : nat) (n : Z) : bool :=
  let t := addLeadingZeros n w in
  Nat.eqb (List.length t) w && List.forallb isDigit t && (parseInt t =? n).

(** The check of one year of four digits: [toString] prints it as
    [addLeadingZeros] does. *)
Definition paddedYearOk (n : Z) : bool :=
  str_eqb (toString n) (addLeadingZeros n 4).

(** The check of one year below 1000: [toString] prints fewer than four
    characters. *)
Definition shortYearOk (n : Z) : bool :=
  (List.length (toString n) <? 4)%nat.

(** The pattern of "15 Oct" and the pattern of "today" and "tomorrow": the
    first and the fourth single date pattern. *)
Definition dayMonthPattern : regex :=
  List.nth 0 DateParser.datePatterns Eps.
Definition todayPattern : regex :=
  List.nth 3 DateParser.datePatterns Eps.

(** The pattern of "9:30-10:45": the second time pattern. *)
Definition clockRangePattern : regex :=
  List.nth 1 DateParser.timePatterns Eps.

(** A line holds no line feed and no carriage return. *)
Definition isLineChar (c : char) : bool :=
  negb (N.eqb c 10) && negb (N.eqb c 13).
Definition isLine (l : jsstring) : bool := List.forallb isLineChar l.

(** The first and the last day of the operating year 2025-26. *)
Definition operatingStart : Date := mkDate 2025 7 1.
Definition operatingEnd : Date := mkDate 2026 6 31.

(** A host that reads the date-only texts and nothing else. *)
Definition strictDateParse (text : jsstring) : option Z :=
  option_map (fun d => d * Host.msPerDay) (Host.parseISODate text).

(** An event object with a date and an end date. *)
Definition spanning (date endDate : string) : Obj.object :=
  <[lit "endDate" := Some (lit endDate)]>
    (<[lit "date" := Some (lit date)]> ∅).

(** The state after the text [w]. *)
Definition shift (s : mstate) (w t : jsstring) : mstate :=
  MState (List.rev w ++ before s) t (caps s).

(** The last day of a list of days. *)
Definition lastDay (l : list Date) : option Date :=
  match l with
  | [] => None
  | _ :: _ => Some (List.last l 0)
  end.

(** Work days that follow on: each is the day after the one before it, or
    a Monday. *)
Fixpoint followOn (prev : option Date) (l : list Date) : Prop :=
  match l with
  | [] => True
  | x :: t =>
      match prev with
      | None => True
      | Some p => x = p + 1 \/ Host.getDay x = 1
      end /\
      CalendarView.isWorkDay x = true /\ followOn (Some x) t
  end.

(** A week of the grid: work days in a row. *)
Definition workWeek (w : list Date) : Prop :=
  exists m k, w = daysUpFrom m (S k) /\
              List.forallb CalendarView.isWorkDay w = true.

(** The first days of the months of the year view, quarter by quarter. *)
Definition yearViewMonths (today : Date) : list Date :=
  List.map CalendarView.month
    (List.flat_map CalendarView.months (CalendarView.allQuartersData today)).

End Spec.

(* ===================================================================== *)
(** ** Properties *)
(* ===================================================================== *)

Import JS DateFns Spec.

(** *** The calendar *)

Lemma allFrom_spec p : forall z f,
  allFrom p z f = true -> forall i, z <= i < z + Zpos p -> f i = true.
Proof.
  induction p as [p IH | p IH | ]; intros z f H i Hi; cbn in H.
  - apply andb_prop in H. destruct H as [H H3].
    apply andb_prop in H. destruct H as [H1 H2].
    destruct (Z.eq_dec i z) as [-> | Hne]; [ assumption | ].
    destruct (Z_lt_le_dec i (z + 1 + Zpos p)).
    + apply (IH _ _ H2). lia.
    + apply (IH _ _ H3). lia.
  - apply andb_prop in H. destruct H as [H1 H2].
    destruct (Z_lt_le_dec i (z + Zpos p)).
    + apply (IH _ _ H1). lia.
    + apply (IH _ _ H2). lia.
  - replace i with z by lia. assumption.
Qed.

Lemma padded4_checked : allFrom 9999 0 (paddedOk 4) = true.
Proof. vm_compute. reflexivity. Qed.

Lemma padded2_checked : allFrom 99 0 (paddedOk 2) = true.
Proof. vm_compute. reflexivity. Qed.

Lemma yearStart_mono y1 y2 : y1 <= y2 -> yearStart y1 <= yearStart y2.
Proof. unfold yearStart. intros. Z.div_mod_to_equations; lia. Qed.

Lemma monthStart_mono m1 m2 : m1 <= m2 -> monthStart m1 <= monthStart m2.
Proof. unfold monthStart. intros. Z.div_mod_to_equations; lia. Qed.

Lemma civilParts_spec z :
  let '(era, yoe, mp, d) := civilParts z in
  0 <= yoe <= 399 /\ 0 <= mp <= 11 /\ 1 <= d <= 31 /\
  z + 719468 = era * 146097 + yearStart yoe + monthStart mp + d - 1 /\
  monthStart mp + d - 1 < monthStart (mp + 1) /\
  (yearStart yoe + monthStart mp + d - 1 < yearStart (yoe + 1) \/
   (yoe = 399 /\ monthStart mp + d - 1 <= 365)).
Proof.
  unfold civilParts. cbv zeta.
  set (z' := z + 719468).
  set (era := z' / 146097).
  set (doe := z' - era * 146097).
  assert (Hdoe : 0 <= doe < 146097) by (unfold doe, era; Z.div_mod_to_equations; lia).
  assert (Ez : z' = era * 146097 + doe) by (unfold doe; lia).
  clearbody doe. clearbody era.
  set (yoe := (doe - doe / 1460 + doe / 36524 - doe / 146096) / 365).
  assert (Hy : 0 <= yoe <= 399 /\ yearStart yoe <= doe /\
               (doe < yearStart (yoe + 1) \/ yoe = 399))
    by (unfold yoe, yearStart; Z.div_mod_to_equations; lia).
  fold (yearStart yoe).
  set (doy := doe - yearStart yoe).
  assert (Hdoy : 0 <= doy <= 365)
    by (unfold doy, yoe, yearStart; Z.div_mod_to_equations; lia).
  assert (Ed : doe = yearStart yoe + doy) by (unfold doy; lia).
  clearbody doy. clearbody yoe.
  set (mp := (5 * doy + 2) / 153). fold (monthStart mp).
  assert (Hm : 0 <= mp <= 11 /\ monthStart mp <= doy < monthStart (mp + 1) /\
               doy - monthStart mp <= 30)
    by (unfold mp, monthStart; Z.div_mod_to_equations; lia).
  clearbody mp. subst doe. lia.
Qed.

Lemma civilParts_increasing z1 z2 :
  z1 < z2 -> partsLtb (civilParts z1) (civilParts z2) = true.
Proof.
  intros Hlt.
  pose proof (civilParts_spec z1) as S1. pose proof (civilParts_spec z2) as S2.
  destruct (civilParts z1) as [[[e1 y1] m1] d1].
  destruct (civilParts z2) as [[[e2 y2] m2] d2].
  destruct S1 as (Hy1 & Hm1 & Hd1 & E1 & M1 & Y1).
  destruct S2 as (Hy2 & Hm2 & Hd2 & E2 & M2 & Y2).
  unfold partsLtb.
  rewrite !orb_true_iff, !andb_true_iff, !orb_true_iff, !andb_true_iff,
    !orb_true_iff, !andb_true_iff, !Z.ltb_lt, !Z.eqb_eq.
  assert (T400 : yearStart 400 = 146096) by reflexivity.
  assert (T399 : yearStart 399 = 145731) by reflexivity.
  assert (T0 : yearStart 0 = 0) by reflexivity.
  assert (N0 : monthStart 0 = 0) by reflexivity.
  pose proof (yearStart_mono 0 y1 ltac:(lia)).
  pose proof (yearStart_mono 0 y2 ltac:(lia)).
  pose proof (yearStart_mono (y1 + 1) 400 ltac:(lia)).
  pose proof (yearStart_mono (y2 + 1) 400 ltac:(lia)).
  pose proof (monthStart_mono 0 m1 ltac:(lia)).
  pose proof (monthStart_mono 0 m2 ltac:(lia)).
  assert (B1 : yearStart y1 + monthStart m1 + d1 - 1 < 146097)
    by (destruct Y1 as [? | [-> ?]]; lia).
  assert (B2 : yearStart y2 + monthStart m2 + d2 - 1 < 146097)
    by (destruct Y2 as [? | [-> ?]]; lia).
  destruct (Z.lt_trichotomy e1 e2) as [? | [Ee | ?]]; [ lia | | exfalso; lia ].
  right. split; [ assumption | ]. subst e2.
  destruct (Z.lt_trichotomy y1 y2) as [? | [Ey | ?]]; [ lia | | exfalso ].
  - right. split; [ assumption | ]. subst y2.
    destruct (Z.lt_trichotomy m1 m2) as [? | [Em | ?]]; [ lia | | exfalso ].
    + right. split; [ assumption | ]. subst m2. lia.
    + pose proof (monthStart_mono (m2 + 1) m1 ltac:(lia)). lia.
  - pose proof (yearStart_mono (y2 + 1) y1 ltac:(lia)). lia.
Qed.

Lemma civilFromDays_parts z :
  civilFromDays z =
  let '(era, yoe, mp, d) := civilParts z in
  let m := if mp <? 10 then mp + 3 else mp - 9 in
  let y := yoe + era * 400 in
  (if m <=? 2 then y + 1 else y, m, d).
Proof. reflexivity. Qed.

Lemma civilFromDays_increasing z1 z2 :
  z1 < z2 -> civilLtb (civilFromDays z1) (civilFromDays z2) = true.
Proof.
  intros Hlt. pose proof (civilParts_increasing _ _ Hlt) as H.
  pose proof (civilParts_spec z1) as S1. pose proof (civilParts_spec z2) as S2.
  rewrite !civilFromDays_parts.
  destruct (civilParts z1) as [[[e1 y1] m1] d1].
  destruct (civilParts z2) as [[[e2 y2] m2] d2].
  destruct S1 as (Hy1 & Hm1 & _). destruct S2 as (Hy2 & Hm2 & _).
  unfold partsLtb in H. cbv zeta. unfold civilLtb.
  rewrite !orb_true_iff, !andb_true_iff, !orb_true_iff, !andb_true_iff,
    ?orb_true_iff, ?andb_true_iff, !Z.ltb_lt, !Z.eqb_eq in *.
  destruct (Z.ltb_spec m1 10), (Z.ltb_spec m2 10);
    repeat match goal with
           | |- context [?a <=? 2] => destruct (Z.leb_spec a 2)
           end; lia.
Qed.

Lemma civilFromDays_range z :
  1 <= getMonth z + 1 <= 12 /\ 1 <= getDate z <= 31.
Proof.
  unfold getMonth, getDate. rewrite civilFromDays_parts.
  pose proof (civilParts_spec z) as S.
  destruct (civilParts z) as [[[e y] m] d]. cbv zeta. cbn [fst snd].
  destruct S as (_ & Hm & Hd & _).
  destruct (Z.ltb_spec m 10); lia.
Qed.

(** The parts of a day are the only ones that denote it. *)
Lemma civilParts_unique z e y m d :
  0 <= y <= 399 -> 0 <= m <= 11 -> 1 <= d ->
  z + 719468 = e * 146097 + yearStart y + monthStart m + d - 1 ->
  monthStart m + d - 1 < monthStart (m + 1) ->
  (yearStart y + monthStart m + d - 1 < yearStart (y + 1) \/
   (y = 399 /\ monthStart m + d - 1 <= 365)) ->
  civilParts z = (e, y, m, d).
Proof.
  intros Hy2 Hm2 Hd2 E2 M2 Y2.
  pose proof (civilParts_spec z) as S1.
  destruct (civilParts z) as [[[e1 y1] m1] d1].
  destruct S1 as (Hy1 & Hm1 & Hd1 & E1 & M1 & Y1).
  assert (T400 : yearStart 400 = 146096) by reflexivity.
  assert (T399 : yearStart 399 = 145731) by reflexivity.
  assert (T0 : yearStart 0 = 0) by reflexivity.
  assert (N0 : monthStart 0 = 0) by reflexivity.
  pose proof (yearStart_mono 0 y1 ltac:(lia)).
  pose proof (yearStart_mono 0 y ltac:(lia)).
  pose proof (yearStart_mono (y1 + 1) 400 ltac:(lia)).
  pose proof (yearStart_mono (y + 1) 400 ltac:(lia)).
  pose proof (monthStart_mono 0 m1 ltac:(lia)).
  pose proof (monthStart_mono 0 m ltac:(lia)).
  assert (B1 : yearStart y1 + monthStart m1 + d1 - 1 < 146097)
    by (destruct Y1 as [? | [-> ?]]; lia).
  assert (B2 : yearStart y + monthStart m + d - 1 < 146097)
    by (destruct Y2 as [? | [-> ?]]; lia).
  assert (e1 = e) by lia. subst e1.
  assert (y1 = y).
  { destruct (Z.lt_trichotomy y1 y) as [? | [? | ?]]; [ exfalso | assumption | exfalso ].
    - pose proof (yearStart_mono (y1 + 1) y ltac:(lia)). lia.
    - pose proof (yearStart_mono (y + 1) y1 ltac:(lia)). lia. }
  subst y1.
  assert (m1 = m).
  { destruct (Z.lt_trichotomy m1 m) as [? | [? | ?]]; [ exfalso | assumption | exfalso ].
    - pose proof (monthStart_mono (m1 + 1) m ltac:(lia)). lia.
    - pose proof (monthStart_mono (m + 1) m1 ltac:(lia)). lia. }
  subst m1.
  assert (d1 = d) by lia. subst d1. reflexivity.
Qed.

(** The day number of the year, month and day of a day is that day. *)
Lemma mkDate_civil z :
  mkDate (getFullYear z) (getMonth z) (getDate z) = z.
Proof.
  unfold mkDate, getFullYear, getMonth, getDate. rewrite civilFromDays_parts.
  pose proof (civilParts_spec z) as S.
  destruct (civilParts z) as [[[e y] m] d]. cbv zeta. cbn [fst snd].
  destruct S as (Hy & Hm & Hd & E & M & Y).
  unfold daysFromCivil. unfold yearStart, monthStart in *.
  destruct (Z.ltb_spec m 10);
    repeat match goal with
           | |- context [?a <=? 2] => destruct (Z.leb_spec a 2)
           | |- context [?a >? 2] => destruct (Z.gtb_spec a 2)
           end; try lia.
  all: cbv zeta.
  all: Z.div_mod_to_equations; lia.
Qed.

Lemma daysInMonth_cases y m :
  0 <= m <= 11 ->
  daysInMonth y m =
  if m =? 1 then (if isLeapYearIndex y then 29 else 28)
  else if (m =? 3) || (m =? 5) || (m =? 8) || (m =? 10) then 30 else 31.
Proof.
  intros Hm. unfold daysInMonth.
  assert (C : m = 0 \/ m = 1 \/ m = 2 \/ m = 3 \/ m = 4 \/ m = 5 \/ m = 6 \/
              m = 7 \/ m = 8 \/ m = 9 \/ m = 10 \/ m = 11) by lia.
  destruct (isLeapYearIndex y);
    repeat (destruct C as [-> | C]; [ reflexivity | ]); subst; reflexivity.
Qed.

Lemma isLeapYearIndex_spec y :
  isLeapYearIndex y = true <->
  (y mod 400 = 0 \/ (y mod 4 = 0 /\ y mod 100 <> 0)).
Proof.
  unfold isLeapYearIndex.
  rewrite orb_true_iff, andb_true_iff, negb_true_iff, !Z.eqb_eq, Z.eqb_neq.
  reflexivity.
Qed.

(** The year, month and day of the day number of a date that exists. *)
Lemma civil_mkDate y m d :
  0 <= m <= 11 -> 1 <= d <= daysInMonth y m ->
  civilFromDays (mkDate y m d) = (y, m + 1, d).
Proof.
  intros Hm Hd. rewrite daysInMonth_cases in Hd by assumption.
  pose proof (isLeapYearIndex_spec y) as L.
  unfold mkDate, daysFromCivil. cbv zeta.
  set (y' := if m + 1 <=? 2 then y - 1 else y).
  set (era := y' / 400).
  set (yoe := y' - era * 400).
  set (mp := if m + 1 >? 2 then m + 1 - 3 else m + 1 + 9).
  assert (Hyoe : 0 <= yoe <= 399) by (unfold yoe, era; Z.div_mod_to_equations; lia).
  assert (Hmp : 0 <= mp <= 11 /\ (m <= 1 -> mp = m + 10) /\ (2 <= m -> mp = m - 2)).
  { unfold mp. destruct (Z.gtb_spec (m + 1) 2); lia. }
  assert (Hy' : (m <= 1 -> y' = y - 1) /\ (2 <= m -> y' = y)).
  { unfold y'. destruct (Z.leb_spec (m + 1) 2); lia. }
  assert (Ey : y' = yoe + era * 400) by (unfold yoe; lia).
  match goal with
  | |- civilFromDays ?z = _ => assert (P : civilParts z = (era, yoe, mp, d))
  end.
  { apply civilParts_unique; try lia.
    - unfold yearStart, monthStart. lia.
    - assert (C : m = 0 \/ m = 1 \/ m = 2 \/ m = 3 \/ m = 4 \/ m = 5 \/ m = 6 \/
                  m = 7 \/ m = 8 \/ m = 9 \/ m = 10 \/ m = 11) by lia.
      destruct Hmp as (_ & Hlo & Hhi).
      repeat (destruct C as [-> | C];
        [ first [ rewrite Hlo by lia | rewrite Hhi by lia ];
          cbn in Hd; unfold monthStart; destruct (isLeapYearIndex y);
          Z.div_mod_to_equations; lia | ]).
      subst m. rewrite Hhi by lia. cbn in Hd. unfold monthStart.
      Z.div_mod_to_equations; lia.
    - destruct (Z.eq_dec m 1) as [-> | Hne].
      + destruct Hmp as (_ & Hlo & _). rewrite Hlo by lia.
        change (monthStart (1 + 10)) with 337.
        destruct Hy' as (Hy' & _). specialize (Hy' ltac:(lia)).
        destruct (isLeapYearIndex y); cbn in Hd.
        * destruct L as [L _]. specialize (L eq_refl).
          destruct (Z.eq_dec yoe 399) as [E399 | N399]; [ right; lia | left ].
          unfold yearStart. clearbody yoe era y'. Z.div_mod_to_equations. lia.
        * left. unfold yearStart. Z.div_mod_to_equations. lia.
      + left.
        assert (monthStart mp + d - 1 <= 336).
        { assert (C : m = 0 \/ m = 2 \/ m = 3 \/ m = 4 \/ m = 5 \/ m = 6 \/
                  m = 7 \/ m = 8 \/ m = 9 \/ m = 10 \/ m = 11) by lia.
          destruct Hmp as (_ & Hlo & Hhi).
          repeat (destruct C as [-> | C];
            [ first [ rewrite Hlo by lia | rewrite Hhi by lia ];
              cbn in Hd; unfold monthStart; Z.div_mod_to_equations; lia | ]).
          subst m. rewrite Hhi by lia. cbn in Hd. unfold monthStart.
          Z.div_mod_to_equations; lia. }
        unfold yearStart. Z.div_mod_to_equations. lia. }
  rewrite civilFromDays_parts, P. cbv zeta.
  destruct Hmp as (_ & Hlo & Hhi). destruct Hy' as (Hy1 & Hy2).
  destruct (Z_le_gt_dec m 1).
  - rewrite Hlo by lia.
    destruct (Z.ltb_spec (m + 10) 10); [ lia | ].
    destruct (Z.leb_spec (m + 10 - 9) 2); [ | lia ].
    f_equal. f_equal; lia.
  - rewrite Hhi by lia.
    destruct (Z.ltb_spec (m - 2) 10); [ | lia ].
    destruct (Z.leb_spec (m - 2 + 3) 2); [ lia | ].
    f_equal. f_equal; lia.
Qed.

Lemma getters_mkDate y m d :
  0 <= m <= 11 -> 1 <= d <= daysInMonth y m ->
  getFullYear (mkDate y m d) = y /\ getMonth (mkDate y m d) = m /\
  getDate (mkDate y m d) = d.
Proof.
  intros Hm Hd. unfold getFullYear, getMonth, getDate.
  rewrite civil_mkDate by assumption. cbn. lia.
Qed.

(** The day of the month of a day exists in its month. *)
Lemma getDate_daysInMonth z :
  0 <= getMonth z <= 11 /\
  1 <= getDate z <= daysInMonth (getFullYear z) (getMonth z).
Proof.
  pose proof (civilFromDays_range z) as (Hm & Hd).
  split; [ lia | ]. split; [ lia | ].
  rewrite daysInMonth_cases by lia.
  pose proof (isLeapYearIndex_spec (getFullYear z)) as L.
  unfold getFullYear, getMonth, getDate in *. rewrite civilFromDays_parts in *.
  pose proof (civilParts_spec z) as S.
  destruct (civilParts z) as [[[e y] m] d]. cbv zeta in *. cbn [fst snd] in *.
  destruct S as (Hy & Hmp & Hdd & E & M & Y).
  destruct (Z.eq_dec m 11) as [-> | N11].
  2: { clear L Y E. unfold monthStart in M.
       destruct (Z.ltb_spec m 10);
         repeat match goal with
                | |- context [Z.eqb ?a ?b] => destruct (Z.eqb_spec a b)
                end; cbn [orb]; Z.div_mod_to_equations; lia. }
  (* February *)
  change (11 <? 10) with false in *. cbv iota in *.
  change (11 - 9 <=? 2) with true in *. cbv iota in *.
  change (11 - 9 - 1 =? 1) with true in *. cbv iota in *.
  change (monthStart 11) with 337 in *.
  destruct (isLeapYearIndex (y + e * 400 + 1)) eqn:Lp.
  - destruct Y as [Y | [-> Y]]; [ | lia ].
    unfold yearStart in Y. Z.div_mod_to_equations. lia.
  - assert (NL : ~ ((y + e * 400 + 1) mod 400 = 0 \/
                    (y + e * 400 + 1) mod 4 = 0 /\ (y + e * 400 + 1) mod 100 <> 0)).
    { intros HH. apply L in HH. discriminate. }
    destruct (Z_le_gt_dec d 28); [ lia | exfalso ].
    apply NL. clear L.
    destruct Y as [Y | [-> Y]].
    + unfold yearStart in Y. Z.div_mod_to_equations. lia.
    + left. Z.div_mod_to_equations. lia.
Qed.

Lemma mkDate_succ y m d : mkDate y m (d + 1) = mkDate y m d + 1.
Proof. unfold mkDate, daysFromCivil. cbv zeta. lia. Qed.

(** The day after the last day of a month is the first of the next. *)
Lemma mkDate_next_month y m :
  0 <= m <= 11 ->
  mkDate y m (daysInMonth y m + 1) =
  if m <? 11 then mkDate y (m + 1) 1 else mkDate (y + 1) 0 1.
Proof.
  intros Hm. rewrite daysInMonth_cases by assumption.
  pose proof (isLeapYearIndex_spec y) as L.
  assert (C : m = 0 \/ m = 1 \/ m = 2 \/ m = 3 \/ m = 4 \/ m = 5 \/ m = 6 \/
              m = 7 \/ m = 8 \/ m = 9 \/ m = 10 \/ m = 11) by lia.
  destruct (Z.eq_dec m 1) as [-> | N1].
  - change (1 =? 1) with true. change (1 <? 11) with true. cbv iota.
    unfold mkDate, daysFromCivil.
    change (1 + 1 <=? 2) with true. change (1 + 1 + 1 <=? 2) with false.
    change (1 + 1 >? 2) with false. change (1 + 1 + 1 >? 2) with true.
    cbv iota zeta.
    clear C Hm.
    assert (Hq : y = 400 * (y / 400) + y mod 400 /\ 0 <= y mod 400 < 400)
      by (Z.div_mod_to_equations; lia).
    assert (H4 : y mod 4 = (y mod 400) mod 4)
      by (Z.div_mod_to_equations; lia).
    assert (H100 : y mod 100 = (y mod 400) mod 100)
      by (Z.div_mod_to_equations; lia).
    rewrite H4, H100 in L. clear H4 H100.
    set (q := y / 400) in *. set (r := y mod 400) in *.
    destruct Hq as [Ey Hr]. clearbody q r. subst y.
    assert (E1 : (400 * q + r - 1) / 400 = if r =? 0 then q - 1 else q).
    { destruct (Z.eqb_spec r 0); Z.div_mod_to_equations; lia. }
    rewrite E1. clear E1.
    destruct (isLeapYearIndex (400 * q + r)).
    + destruct L as [L _]. specialize (L eq_refl).
      destruct (Z.eqb_spec r 0) as [-> | Nr].
      * replace (400 * q + 0 - 1 - (q - 1) * 400) with 399 by lia.
        replace (400 * q + 0 - q * 400) with 0 by lia.
        Z.div_mod_to_equations. lia.
      * destruct L as [L | [L4 L100]]; [ contradiction | ].
        replace (400 * q + r - 1 - q * 400) with (r - 1) by lia.
        replace (400 * q + r - q * 400) with r by lia.
        Z.div_mod_to_equations. lia.
    + assert (NL : ~ (r = 0 \/ r mod 4 = 0 /\ r mod 100 <> 0)).
      { intros HH. apply L in HH. discriminate. }
      clear L.
      destruct (Z.eqb_spec r 0) as [-> | Nr]; [ exfalso; apply NL; auto | ].
      replace (400 * q + r - 1 - q * 400) with (r - 1) by lia.
      replace (400 * q + r - q * 400) with r by lia.
      Z.div_mod_to_equations. lia.
  - clear L. unfold mkDate, daysFromCivil. cbv zeta.
    assert (T : forall P : Prop,
               (m = 0 -> P) -> (m = 2 -> P) -> (m = 3 -> P) -> (m = 4 -> P) ->
               (m = 5 -> P) -> (m = 6 -> P) -> (m = 7 -> P) -> (m = 8 -> P) ->
               (m = 9 -> P) -> (m = 10 -> P) -> (m = 11 -> P) -> P)
      by (intros P; intuition lia).
    apply T; clear T C; intros ->;
      repeat match goal with
             | |- context [Z.leb ?a ?b] =>
                 destruct (Z.leb_spec a b); try (exfalso; lia)
             | |- context [Z.ltb ?a ?b] =>
                 destruct (Z.ltb_spec a b); try (exfalso; lia)
             | |- context [Z.gtb ?a ?b] =>
                 destruct (Z.gtb_spec a b); try (exfalso; lia)
             | |- context [Z.eqb ?a ?b] =>
                 destruct (Z.eqb_spec a b); try (exfalso; lia)
             end;
      cbn [orb]; Z.div_mod_to_equations; lia.
Qed.

Lemma daysInMonth_pos y m : 0 <= m <= 11 -> 28 <= daysInMonth y m <= 31.
Proof.
  intros Hm. rewrite daysInMonth_cases by assumption.
  destruct (m =? 1); [ destruct (isLeapYearIndex y); lia | ].
  destruct ((m =? 3) || (m =? 5) || (m =? 8) || (m =? 10)); lia.
Qed.

Lemma localDate_civil z : localDate z = civilFromDays z.
Proof.
  unfold localDate, getFullYear, getMonth, getDate.
  destruct (civilFromDays z) as [[y m] d]. cbn [fst snd]. f_equal. f_equal. lia.
Qed.

Lemma monthLength_daysInMonth y m :
  0 <= m <= 11 -> monthLength y (m + 1) = daysInMonth y m.
Proof.
  intros Hm. rewrite daysInMonth_cases by assumption.
  unfold monthLength, leapYear, isLeapYearIndex.
  rewrite (orb_comm (y mod 400 =? 0)).
  assert (C : m = 0 \/ m = 1 \/ m = 2 \/ m = 3 \/ m = 4 \/ m = 5 \/ m = 6 \/
              m = 7 \/ m = 8 \/ m = 9 \/ m = 10 \/ m = 11) by lia.
  repeat (destruct C as [-> | C]; [ reflexivity | ]). subst m. reflexivity.
Qed.

(** The calendar date of the next day. *)
Lemma localDate_succ z : localDate (z + 1) = nextDay (localDate z).
Proof.
  pose proof (getDate_daysInMonth z) as (Hm & Hd).
  pose proof (mkDate_civil z) as E.
  rewrite (localDate_civil (z + 1)). unfold localDate at 1. unfold nextDay.
  rewrite monthLength_daysInMonth by assumption.
  rewrite <- E at 1. rewrite <- mkDate_succ.
  pose proof (daysInMonth_pos (getFullYear z) (getMonth z) Hm).
  destruct (Z.ltb_spec (getDate z) (daysInMonth (getFullYear z) (getMonth z))).
  - apply civil_mkDate; lia.
  - replace (getDate z) with (daysInMonth (getFullYear z) (getMonth z)) by lia.
    rewrite mkDate_next_month by assumption.
    destruct (Z.ltb_spec (getMonth z) 11), (Z.ltb_spec (getMonth z + 1) 12);
      try lia.
    + rewrite civil_mkDate; [ reflexivity | lia | ].
      pose proof (daysInMonth_pos (getFullYear z) (getMonth z + 1)). lia.
    + rewrite civil_mkDate; [ reflexivity | lia | ].
      pose proof (daysInMonth_pos (getFullYear z + 1) 0). lia.
Qed.

(** *** The order of strings *)

Lemma str_leb_total a : forall b, str_leb a b = false -> str_leb b a = true.
Proof.
  induction a as [|x a IH]; intros [|y b]; cbn; try congruence.
  destruct (N.ltb_spec x y), (N.ltb_spec y x), (N.eqb_spec x y), (N.eqb_spec y x);
    try congruence; try lia. apply IH.
Qed.

Lemma str_leb_trans a : forall b c,
  str_leb a b = true -> str_leb b c = true -> str_leb a c = true.
Proof.
  induction a as [|x a IH]; intros [|y b] [|z c]; cbn; try congruence.
  destruct (N.ltb_spec x y), (N.ltb_spec y z), (N.ltb_spec x z),
    (N.eqb_spec x y), (N.eqb_spec y z), (N.eqb_spec x z);
    try congruence; try lia. apply IH.
Qed.

Lemma str_leb_refl a : str_leb a a = true.
Proof.
  induction a as [|x a IH]; cbn; [ reflexivity | ].
  rewrite N.ltb_irrefl, N.eqb_refl. assumption.
Qed.

Lemma str_ltb_trans a b c :
  str_ltb a b = true -> str_ltb b c = true -> str_ltb a c = true.
Proof.
  unfold str_ltb. rewrite !negb_true_iff. intros Hab Hbc.
  destruct (str_leb c a) eqn:Hca; [ | reflexivity ].
  apply str_leb_total in Hab.
  rewrite (str_leb_trans _ _ _ Hca Hab) in Hbc. discriminate.
Qed.

Lemma str_ltb_leb a b : str_ltb a b = true -> str_leb a b = true.
Proof.
  unfold str_ltb. rewrite negb_true_iff. apply str_leb_total.
Qed.

Lemma str_leb_app_same a x y : str_leb (a ++ x) (a ++ y) = str_leb x y.
Proof.
  induction a as [|c a IH]; cbn; [ reflexivity | ].
  rewrite N.ltb_irrefl, N.eqb_refl. assumption.
Qed.

Lemma str_ltb_app_same a x y : str_ltb (a ++ x) (a ++ y) = str_ltb x y.
Proof. unfold str_ltb. rewrite str_leb_app_same. reflexivity. Qed.

Lemma str_ltb_app a : forall b x y,
  List.length a = List.length b -> str_ltb a b = true ->
  str_ltb (a ++ x) (b ++ y) = true.
Proof.
  unfold str_ltb.
  induction a as [|c a IH]; intros [|e b] x y Hlen; cbn in *; try congruence.
  destruct (N.ltb e c); [ congruence | ].
  destruct (N.eqb e c); [ | reflexivity ].
  apply IH. congruence.
Qed.

(** Numbers printed on a fixed width are ordered as strings. *)
Lemma padded_increasing w p lo :
  allFrom p lo (paddedOk w) = true ->
  forall a b, lo <= a -> a < b -> b <= lo + Zpos p ->
    List.length (addLeadingZeros a w) = w /\
    List.length (addLeadingZeros b w) = w /\
    str_ltb (addLeadingZeros a w) (addLeadingZeros b w) = true.
Proof.
  intros Hc a b Ha Hab Hb.
  assert (Hstep : forall n, lo <= n < lo + Zpos p ->
            List.length (addLeadingZeros n w) = w /\
            List.length (addLeadingZeros (n + 1) w) = w /\
            str_ltb (addLeadingZeros n w) (addLeadingZeros (n + 1) w) = true).
  { intros n Hn. pose proof (allFrom_spec _ _ _ Hc n Hn) as H.
    unfold paddedOk in H.
    apply andb_prop in H. destruct H as [H H3].
    apply andb_prop in H. destruct H as [H1 H2].
    apply Nat.eqb_eq in H1, H2. auto. }
  replace b with (a + 1 + Z.of_nat (Z.to_nat (b - a - 1))) in * by lia.
  induction (Z.to_nat (b - a - 1)) as [|n IH].
  - rewrite Z.add_0_r in *. apply Hstep. lia.
  - destruct IH as (L1 & L2 & Hlt); [ lia | lia | ].
    destruct (Hstep (a + 1 + Z.of_nat n)) as (L3 & L4 & Hlt'); [ lia | ].
    replace (a + 1 + Z.of_nat (S n)) with (a + 1 + Z.of_nat n + 1) by lia.
    split; [ assumption | ]. split; [ assumption | ].
    eapply str_ltb_trans; eassumption.
Qed.

Lemma padded_length w p lo :
  allFrom p lo (paddedOk w) = true ->
  forall a, lo <= a <= lo + Zpos p -> List.length (addLeadingZeros a w) = w.
Proof.
  intros Hc a Ha.
  destruct (Z.eq_dec a lo) as [-> | Hne].
  - apply (padded_increasing w p lo Hc lo (lo + 1)); lia.
  - apply (padded_increasing w p lo Hc lo a); lia.
Qed.

(** ISO dates of the years 0 to 9999 are ordered as strings the way the
    days are ordered. *)
Lemma formatISO_increasing d1 d2 :
  d1 < d2 -> 0 <= getFullYear d1 -> getFullYear d2 <= 9999 ->
  str_ltb (formatISO d1) (formatISO d2) = true.
Proof.
  intros Hlt Hy1 Hy2.
  pose proof (civilFromDays_increasing _ _ Hlt) as Hc.
  pose proof (civilFromDays_range d1) as (Hm1 & Hd1).
  pose proof (civilFromDays_range d2) as (Hm2 & Hd2).
  unfold formatISO.
  set (m1 := getMonth d1 + 1) in *. set (m2 := getMonth d2 + 1) in *.
  assert (Hciv : civilLtb (getFullYear d1, m1, getDate d1)
                          (getFullYear d2, m2, getDate d2) = true).
  { unfold m1, m2, getFullYear, getMonth, getDate.
    destruct (civilFromDays d1) as [[y1 mm1] dd1].
    destruct (civilFromDays d2) as [[y2 mm2] dd2]. cbn.
    replace (mm1 - 1 + 1) with mm1 by lia. replace (mm2 - 1 + 1) with mm2 by lia.
    exact Hc. }
  clear Hc. unfold civilLtb in Hciv.
  rewrite !orb_true_iff, !andb_true_iff, !orb_true_iff, !andb_true_iff,
    !Z.ltb_lt, !Z.eqb_eq in Hciv.
  pose proof (padded_length 4 9999 0 padded4_checked) as L4.
  pose proof (padded_length 2 99 0 padded2_checked) as L2.
  destruct Hciv as [Hy | [Ey [Hm | [Em Hd]]]].
  - apply str_ltb_app.
    + rewrite !L4 by lia. reflexivity.
    + apply (padded_increasing 4 9999 0 padded4_checked); lia.
  - rewrite Ey, str_ltb_app_same, str_ltb_app_same.
    apply str_ltb_app.
    + rewrite !L2 by lia. reflexivity.
    + apply (padded_increasing 2 99 0 padded2_checked); lia.
  - rewrite Ey, Em, !str_ltb_app_same.
    apply (padded_increasing 2 99 0 padded2_checked); lia.
Qed.

Lemma formatISO_order d1 d2 :
  0 <= getFullYear d1 <= 9999 -> 0 <= getFullYear d2 <= 9999 ->
  (str_leb (formatISO d1) (formatISO d2) = true <-> d1 <= d2).
Proof.
  intros H1 H2. split.
  - intros Hle. destruct (Z_le_gt_dec d1 d2) as [|Hgt]; [ assumption | ].
    pose proof (formatISO_increasing d2 d1 ltac:(lia) ltac:(lia) ltac:(lia)) as H.
    unfold str_ltb in H. rewrite Hle in H. discriminate.
  - intros Hle. destruct (Z.eq_dec d1 d2) as [-> | Hne].
    + apply str_leb_refl.
    + apply str_ltb_leb. apply formatISO_increasing; lia.
Qed.

Lemma format_formatISO d :
  0 < getFullYear d -> Calendar.format (Some d) = Some (formatISO d).
Proof.
  intros H. unfold Calendar.format, formatISO.
  destruct (Z.gtb_spec (getFullYear d) 0); [ reflexivity | lia ].
Qed.

(** *** The matcher and the matches *)

Lemma orTry_some {A} (x y : option A) r :
  orTry x y = Some r -> x = Some r \/ (x = None /\ y = Some r).
Proof. destruct x; cbn; intros H; [ left | right ]; auto. Qed.

(** Soundness of a quantifier over a sound body. *)
Lemma iterate_sound body (M : mstate -> mstate -> Prop) lo k :
  (forall k s res, body k s = Some res -> exists s', M s s' /\ k s' = Some res) ->
  forall fuel n s res,
    iterate body lo k fuel n s = Some res ->
    exists m s', chain M m s s' /\ (lo <= n + m)%nat /\ (m <= fuel)%nat /\
                 k s' = Some res.
Proof.
  intros Hb. induction fuel as [|fuel IH]; intros n s res; cbn.
  - destruct (Nat.leb_spec lo n) as [Hle | Hgt]; [ | discriminate ].
    intros H. exists 0%nat, s. cbn. repeat split; [ lia | lia | assumption ].
  - intros H. apply orTry_some in H. destruct H as [H | [_ H]].
    + apply Hb in H. destruct H as (s1 & HM & H).
      destruct (progressed s s1) eqn:Hp; [ | discriminate ].
      apply IH in H. destruct H as (m & s' & Hc & Hlo & Hm & Hk).
      exists (S m), s'. cbn. split; [ | split; [ lia | split; [ lia | assumption ] ] ].
      exists s1. auto.
    + destruct (Nat.leb_spec lo n) as [Hle | Hgt]; [ | discriminate ].
      exists 0%nat, s. cbn. repeat split; [ lia | lia | assumption ].
Qed.

Lemma run_sound r : forall k s res,
  run r k s = Some res -> exists s', matches r s s' /\ k s' = Some res.
Proof.
  induction r as [ | p | a IHa b IHb | a IHa b IHb | a IHa lo hi | i a IHa | | | ];
    intros k s res; cbn [run matches].
  - intros H. exists s. auto.
  - destruct (advance s) as [[c s']|] eqn:Ha; [ | discriminate ].
    destruct (p c) eqn:Hp; [ | discriminate ].
    intros H. exists s'. split; [ exists c; auto | assumption ].
  - intros H. apply IHa in H. destruct H as (s1 & H1 & H).
    apply IHb in H. destruct H as (s' & H2 & H).
    exists s'. split; [ exists s1; auto | assumption ].
  - intros H. apply orTry_some in H. destruct H as [H | [_ H]].
    + apply IHa in H. destruct H as (s' & H1 & H). exists s'. auto.
    + apply IHb in H. destruct H as (s' & H1 & H). exists s'. auto.
  - intros H. apply (iterate_sound _ (matches a)) in H; [ | exact IHa ].
    destruct H as (m & s' & Hc & Hlo & Hm & Hk).
    exists s'. split; [ | assumption ].
    exists m. split; [ lia | ]. split; [ | assumption ].
    destruct hi; [ lia | exact I ].
  - intros H. apply IHa in H. destruct H as (s1 & H1 & H).
    exists (capture i s s1). split; [ exists s1; auto | assumption ].
  - destruct (atWordBoundary s) eqn:Hw; [ | discriminate ].
    intros H. exists s. auto.
  - destruct (before s) eqn:Hb; [ | discriminate ].
    intros H. exists s. auto.
  - destruct (after s) eqn:Hb; [ | discriminate ].
    intros H. exists s. auto.
Qed.

(** A match moves the position forward over a piece of the input. *)
Lemma extends_refl s : extends s [] s.
Proof. split; reflexivity. Qed.

Lemma extends_trans s w s1 w' s' :
  extends s w s1 -> extends s1 w' s' -> extends s (w ++ w') s'.
Proof.
  intros [B1 A1] [B2 A2]. split.
  - rewrite B2, B1, rev_app_distr, app_assoc. reflexivity.
  - rewrite A1, A2, app_assoc. reflexivity.
Qed.

Lemma chain_extends (M : mstate -> mstate -> Prop) :
  (forall s s', M s s' -> exists w, extends s w s') ->
  forall n s s', chain M n s s' ->
    exists w, extends s w s' /\ (n <= List.length w)%nat.
Proof.
  intros HM. induction n as [|n IH]; intros s s'; cbn.
  - intros ->. exists []. split; [ apply extends_refl | cbn; lia ].
  - intros (s1 & H1 & Hp & Hc).
    destruct (HM _ _ H1) as (w & Hw). destruct (IH _ _ Hc) as (w' & Hw' & Hn).
    exists (w ++ w'). split; [ eapply extends_trans; eassumption | ].
    rewrite length_app. destruct w as [|c w].
    + exfalso. destruct Hw as [B _]. cbn in B.
      unfold progressed in Hp. rewrite B, Nat.eqb_refl in Hp. discriminate.
    + cbn. lia.
Qed.

Lemma matches_extends r : forall s s',
  matches r s s' -> exists w, extends s w s'.
Proof.
  induction r as [ | p | a IHa b IHb | a IHa b IHb | a IHa lo hi | i a IHa | | | ];
    intros s s'; cbn [matches].
  - intros ->. exists []. apply extends_refl.
  - intros (c & Ha & _). unfold advance in Ha.
    destruct (after s) as [|c' t] eqn:E; [ discriminate | ].
    inversion Ha; subst. exists [c]. split; cbn; [ reflexivity | assumption ].
  - intros (s1 & H1 & H2). destruct (IHa _ _ H1) as (w & Hw).
    destruct (IHb _ _ H2) as (w' & Hw'). exists (w ++ w').
    eapply extends_trans; eassumption.
  - intros [H | H]; auto.
  - intros (n & _ & _ & Hc).
    destruct (chain_extends _ IHa _ _ _ Hc) as (w & Hw & _). exists w. assumption.
  - intros (s1 & H1 & ->). destruct (IHa _ _ H1) as (w & Hw).
    exists w. exact Hw.
  - intros [_ ->]. exists []. apply extends_refl.
  - intros [_ ->]. exists []. apply extends_refl.
  - intros [_ ->]. exists []. apply extends_refl.
Qed.

Lemma extends_length s w s' :
  extends s w s' ->
  List.length (after s) = (List.length w + List.length (after s'))%nat.
Proof. intros [_ A]. rewrite A, length_app. reflexivity. Qed.

Lemma extends_consumed s w s' : extends s w s' -> consumed s s' = w.
Proof.
  intros [B _]. unfold consumed. rewrite B, length_app, length_rev.
  replace (List.length w + List.length (before s) - List.length (before s))%nat
    with (List.length (List.rev w) + 0)%nat by (rewrite length_rev; lia).
  rewrite firstn_app_2. cbn. rewrite app_nil_r. apply rev_involutive.
Qed.

(** Completeness of a quantifier over a complete body. *)
Lemma iterate_complete body (M : mstate -> mstate -> Prop) lo k :
  (forall k s s', M s s' -> k s' <> None -> body k s <> None) ->
  forall m fuel n s s',
    chain M m s s' -> (lo <= n + m)%nat -> (m <= fuel)%nat -> k s' <> None ->
    iterate body lo k fuel n s <> None.
Proof.
  intros Hb. induction m as [|m IH]; intros fuel n s s' Hc Hlo Hm Hk.
  - cbn in Hc. subst s'.
    assert (Hstop : (if (lo <=? n)%nat then k s else None) <> None).
    { destruct (Nat.leb_spec lo n) as [Hle | Hgt]; [ assumption | lia ]. }
    destruct fuel as [|fuel]; cbn; [ assumption | ].
    destruct (body _ s); cbn; [ discriminate | assumption ].
  - destruct fuel as [|fuel]; [ lia | ].
    destruct Hc as (s1 & H1 & Hp & Hc). cbn.
    assert (Hbody : body (fun s' => if progressed s s'
                                   then iterate body lo k fuel (S n) s'
                                   else None) s <> None).
    { apply (Hb _ _ s1 H1). rewrite Hp.
      apply (IH fuel (S n) s1 s' Hc); [ lia | lia | assumption ]. }
    destruct (body _ s); cbn; [ discriminate | contradiction ].
Qed.

Lemma run_complete r : forall k s s',
  matches r s s' -> k s' <> None -> run r k s <> None.
Proof.
  induction r as [ | p | a IHa b IHb | a IHa b IHb | a IHa lo hi | i a IHa | | | ];
    intros k s s'; cbn [run matches].
  - intros ->. auto.
  - intros (c & -> & ->). auto.
  - intros (s1 & H1 & H2) Hk. apply (IHa _ _ s1 H1). apply (IHb _ _ s' H2 Hk).
  - intros [H | H] Hk.
    + pose proof (IHa _ _ _ H Hk). destruct (run a k s); cbn; [ discriminate | contradiction ].
    + pose proof (IHb _ _ _ H Hk). destruct (run a k s); cbn; [ discriminate | assumption ].
  - intros (n & Hlo & Hhi & Hc) Hk.
    apply (iterate_complete _ (matches a) lo k IHa n _ 0%nat s s' Hc);
      [ lia | | assumption ].
    destruct hi as [h|]; [ assumption | ].
    destruct (chain_extends _ (matches_extends a) _ _ _ Hc) as (w & Hw & Hn).
    rewrite (extends_length _ _ _ Hw). lia.
  - intros (s1 & H1 & ->) Hk. apply (IHa _ _ s1 H1). assumption.
  - intros [-> ->]. auto.
  - intros [-> ->]. auto.
  - intros [-> ->]. auto.
Qed.

(** *** What [exec] returns *)

Lemma execFrom_sound r : forall s pre m,
  execFrom r pre s = Some m ->
  exists u v st,
    s = u ++ v /\
    matches r (MState (List.rev u ++ pre) v []) st /\
    m_caps m = caps st.
Proof.
  induction s as [|c s IH]; intros pre m; cbn [execFrom].
  - destruct (run r Some (MState pre [] [])) as [st|] eqn:Hr; [ | discriminate ].
    intros H; inversion H; subst; clear H.
    apply run_sound in Hr. destruct Hr as (st' & Hm & E). inversion E; subst.
    exists [], [], st. repeat split. assumption.
  - destruct (run r Some (MState pre (c :: s) [])) as [st|] eqn:Hr.
    + intros H; inversion H; subst; clear H.
      apply run_sound in Hr. destruct Hr as (st' & Hm & E). inversion E; subst.
      exists [], (c :: s), st. repeat split. assumption.
    + intros H. apply IH in H. destruct H as (u & v & st & -> & Hm & Hc).
      exists (c :: u), v, st. cbn [List.rev]. rewrite <- app_assoc.
      repeat split; assumption.
Qed.

Lemma execFrom_complete r : forall u pre v st,
  matches r (MState (List.rev u ++ pre) v []) st ->
  execFrom r pre (u ++ v) <> None.
Proof.
  induction u as [|c u IH]; intros pre v st Hm.
  - cbn in Hm. pose proof (run_complete r Some _ _ Hm ltac:(discriminate)) as Hr.
    cbn [app]. destruct v; cbn [execFrom];
      (destruct (run r Some _); [ discriminate | contradiction ]).
  - cbn [app execFrom].
    destruct (run r Some (MState pre (c :: u ++ v) [])); [ discriminate | ].
    apply (IH (c :: pre) v st).
    cbn [List.rev] in Hm. rewrite <- app_assoc in Hm. exact Hm.
Qed.

Lemma firstMatch_sound ps s m :
  DateParser.firstMatch ps s = Some m -> exists p, In p ps /\ exec p s = Some m.
Proof.
  induction ps as [|p ps IH]; cbn; [ discriminate | ].
  destruct (exec p s) as [m'|] eqn:E.
  - intros H; inversion H; subst. exists p. auto.
  - intros H. destruct (IH H) as (p' & Hp' & He). exists p'. auto.
Qed.

Lemma execFrom_text r : forall s pre m,
  execFrom r pre s = Some m ->
  exists u v st w,
    s = u ++ v /\
    matches r (MState (List.rev u ++ pre) v []) st /\
    extends (MState (List.rev u ++ pre) v []) w st /\
    m_caps m = caps st /\ m_text m = w /\ m_rest m = after st.
Proof.
  assert (Here : forall pre s st m,
            run r Some (MState pre s []) = Some st ->
            Some (JSMatch (List.length pre) (consumed (MState pre s []) st)
                          (caps st) (after st)) = Some m ->
            exists u v st w,
              s = u ++ v /\
              matches r (MState (List.rev u ++ pre) v []) st /\
              extends (MState (List.rev u ++ pre) v []) w st /\
              m_caps m = caps st /\ m_text m = w /\ m_rest m = after st).
  { intros pre s st m Hr H. inversion H; subst; clear H.
    apply run_sound in Hr. destruct Hr as (st' & Hm & E). inversion E; subst.
    destruct (matches_extends _ _ _ Hm) as (w & Hw).
    exists [], s, st, w. cbn [List.rev app m_caps m_text m_rest].
    split; [ reflexivity | ]. split; [ assumption | ]. split; [ assumption | ].
    split; [ reflexivity | ]. split; [ | reflexivity ].
    apply (extends_consumed _ _ _ Hw). }
  induction s as [|c s IH]; intros pre m; cbn [execFrom].
  - destruct (run r Some (MState pre [] [])) as [st|] eqn:Hr; [ | discriminate ].
    apply Here. assumption.
  - destruct (run r Some (MState pre (c :: s) [])) as [st|] eqn:Hr.
    + apply Here. assumption.
    + intros H. destruct (IH _ _ H) as (u & v & st & w & E & Hm & Hw & R).
      exists (c :: u), v, st, w. cbn [List.rev app]. rewrite <- app_assoc.
      subst s. auto.
Qed.

(** *** guessType *)

Lemma startsWith_spec p : forall s,
  startsWith p s = true <-> exists post, s = p ++ post.
Proof.
  induction p as [|x p IH]; intros s; cbn [startsWith].
  - split; [ intros _; exists s; reflexivity | reflexivity ].
  - destruct s as [|y s].
    + split; [ discriminate | intros (post & H); discriminate ].
    + unfold char_eqb. rewrite andb_true_iff, N.eqb_eq, IH. split.
      * intros (-> & post & ->). exists post. reflexivity.
      * intros (post & H). inversion H; subst. eauto.
Qed.

(** [includes] finds the texts that are there. *)
Lemma includes_spec s p : includes s p = true <-> contains s p.
Proof.
  unfold includes, contains. split.
  - revert p. induction s as [|c s IH]; intros p; cbn [indexOf];
      destruct (startsWith p _) eqn:E.
    + intros _. apply startsWith_spec in E. destruct E as (post & E).
      exists [], post. exact E.
    + discriminate.
    + intros _. apply startsWith_spec in E. destruct E as (post & E).
      exists [], post. exact E.
    + intros H. destruct (indexOf p s) eqn:E'; [ | discriminate ].
      destruct (IH p) as (pre & post & ->); [ rewrite E'; reflexivity | ].
      exists (c :: pre), post. reflexivity.
  - intros (pre & post & ->). induction pre as [|c pre IH].
    + assert (E : startsWith p ([] ++ p ++ post) = true)
        by (apply startsWith_spec; eauto).
      destruct ([] ++ p ++ post); cbn [indexOf]; rewrite E; reflexivity.
    + cbn [app indexOf]. destruct (startsWith p _); [ reflexivity | ].
      destruct (indexOf p (pre ++ p ++ post)); [ reflexivity | discriminate ].
Qed.

Lemma includes_false s p : includes s p = false <-> ~ contains s p.
Proof.
  rewrite <- includes_spec. destruct (includes s p); split; congruence.
Qed.

(** C8: [guessType] looks for its keywords in the lower-cased title in a
    fixed order, and the first group found decides: "monthly review" gives
    MONTHLY_REVIEW; else "holiday", "annual leave" or "pto" gives HOLIDAYS;
    else "meeting", "review", "alignment" or "kickoff" gives MEETING; else
    the type is PLANNING.  So a title with "holiday" and without "monthly
    review" is typed HOLIDAYS, whatever meeting keyword it also holds. *)
Theorem guessType_order (title : jsstring) :
  (mentions title "monthly review" ->
     BulkParser.guessType title = MONTHLY_REVIEW) /\
  (~ mentions title "monthly review" ->
   mentions title "holiday" \/ mentions title "annual leave" \/
   mentions title "pto" ->
     BulkParser.guessType title = HOLIDAYS) /\
  (~ mentions title "monthly review" ->
   ~ mentions title "holiday" -> ~ mentions title "annual leave" ->
   ~ mentions title "pto" ->
   mentions title "meeting" \/ mentions title "review" \/
   mentions title "alignment" \/ mentions title "kickoff" ->
     BulkParser.guessType title = MEETING) /\
  (~ mentions title "monthly review" ->
   ~ mentions title "holiday" -> ~ mentions title "annual leave" ->
   ~ mentions title "pto" ->
   ~ mentions title "meeting" -> ~ mentions title "review" ->
   ~ mentions title "alignment" -> ~ mentions title "kickoff" ->
     BulkParser.guessType title = PLANNING).
Proof.
  unfold mentions, BulkParser.guessType. cbv zeta.
  repeat split.
  - intros H. apply includes_spec in H. rewrite H. reflexivity.
  - intros N H. apply includes_false in N. rewrite N.
    rewrite <- !includes_spec in H.
    destruct H as [H | [H | H]]; rewrite H; rewrite ?orb_true_r; reflexivity.
  - intros N1 N2 N3 N4 H.
    apply includes_false in N1, N2, N3, N4. rewrite N1, N2, N3, N4.
    rewrite <- !includes_spec in H. cbn [orb].
    destruct H as [H | [H | [H | H]]]; rewrite H; rewrite ?orb_true_r;
      reflexivity.
  - intros N1 N2 N3 N4 N5 N6 N7 N8.
    apply includes_false in N1, N2, N3, N4, N5, N6, N7, N8.
    rewrite N1, N2, N3, N4, N5, N6, N7, N8. reflexivity.
Qed.

Lemma guessType_order_witness :
  mentions (lit "Holiday Party Meeting") "holiday" /\
  mentions (lit "Holiday Party Meeting") "meeting" /\
  ~ mentions (lit "Holiday Party Meeting") "monthly review" /\
  BulkParser.guessType (lit "Holiday Party Meeting") = HOLIDAYS.
Proof.
  assert (H1 : mentions (lit "Holiday Party Meeting") "holiday")
    by (apply includes_spec; reflexivity).
  assert (H2 : mentions (lit "Holiday Party Meeting") "meeting")
    by (apply includes_spec; reflexivity).
  assert (H3 : ~ mentions (lit "Holiday Party Meeting") "monthly review")
    by (apply includes_false; reflexivity).
  split; [ exact H1 | ]. split; [ exact H2 | ]. split; [ exact H3 | ].
  destruct (guessType_order (lit "Holiday Party Meeting")) as (_ & H & _).
  apply H; [ exact H3 | left; exact H1 ].
Defined.

(** *** parseNaturalLanguage *)

Lemma isoText_nonempty year month day : DateParser.isoText year month day <> [].
Proof.
  unfold DateParser.isoText. destruct (toString year); discriminate.
Qed.

Lemma formatDateSafe_nonempty d : DateParser.formatDateSafe d <> [].
Proof.
  unfold DateParser.formatDateSafe. destruct (toString (getFullYear d)); discriminate.
Qed.

Lemma extractDateRange_nonempty today s d e :
  DateParser.extractDateRange today s = (Some d, e) -> d <> [].
Proof.
  unfold DateParser.extractDateRange.
  destruct (DateParser.firstMatch _ s) as [m|]; [ | discriminate ].
  repeat match goal with
         | |- context [if ?b then _ else _] => destruct b
         | |- context [match DateParser.monthMap ?k with _ => _ end] =>
             destruct (DateParser.monthMap k)
         end;
    intros H; inversion H; subst; apply isoText_nonempty.
Qed.

Lemma extractSingleDate_nonempty today s d :
  DateParser.extractSingleDate today s = Some d -> d <> [].
Proof.
  unfold DateParser.extractSingleDate.
  destruct (DateParser.firstMatch _ s) as [m|]; [ | discriminate ].
  repeat match goal with
         | |- context [if ?b then _ else _] => destruct b
         | |- context [match DateParser.monthMap ?k with _ => _ end] =>
             destruct (DateParser.monthMap k)
         end;
    intros H; inversion H; subst;
    first [ apply isoText_nonempty | apply formatDateSafe_nonempty ].
Qed.

Lemma extractDates_nonempty today s d e :
  DateParser.extractDates today s = (Some d, e) -> d <> [].
Proof.
  unfold DateParser.extractDates.
  destruct (DateParser.extractDateRange today s) as [pd ped] eqn:E.
  destruct (negb (truthy pd)) eqn:T; intros H; inversion H; subst.
  - eapply extractSingleDate_nonempty; eassumption.
  - eapply extractDateRange_nonempty; eassumption.
Qed.

Lemma extractTimes_end_start s st et :
  DateParser.extractTimes s = (st, et) -> et <> None -> st <> None.
Proof.
  unfold DateParser.extractTimes.
  destruct (DateParser.firstMatch _ s) as [m|].
  - repeat match goal with
           | |- context [if ?b then _ else _] => destruct b
           end; intros H; inversion H; subst; congruence.
  - intros H; inversion H; congruence.
Qed.

(** The two exits of [parseNaturalLanguage]. *)
Lemma parseNaturalLanguage_cases today input :
  let pd := parsedDateOf today input in
  let t := titleOf today input in
  match DateParser.parseNaturalLanguage today input with
  | None => pd = None \/ t = []
  | Some r =>
      DateParser.title r = t /\ t <> [] /\ pd = Some (DateParser.date r) /\
      DateParser.date r <> [] /\
      DateParser.endDate r = snd (DateParser.extractDates today (cleanInputOf input)) /\
      (DateParser.startTime r, DateParser.endTime r) =
        DateParser.extractTimes (cleanInputOf input) /\
      DateParser.type r = DateParser.extractType (cleanInputOf input)
  end.
Proof.
  unfold DateParser.parseNaturalLanguage, titleOf.
  unfold parsedDateOf, cleanInputOf. cbv zeta.
  destruct (DateParser.extractDates today _) as [pd ped] eqn:Ed.
  destruct (DateParser.extractTimes _) as [st et] eqn:Et.
  cbn [fst snd].
  destruct (DateParser.extractTitle input pd st et) as [|c t] eqn:Ett.
  - right; reflexivity.
  - destruct pd as [[|c' d]|].
    + exfalso. eapply extractDates_nonempty; [ exact Ed | reflexivity ].
    + cbn. repeat split; discriminate.
    + left; reflexivity.
Qed.

(** C10: a draft of [parseNaturalLanguage] with an end time has a start
    time: the hour-range branch sets both, the single-hour branch only the
    start. *)
Theorem parseNaturalLanguage_endTime_startTime (today : Date) (input : jsstring)
  (r : DateParser.ParsedEvent) :
  DateParser.parseNaturalLanguage today input = Some r ->
  DateParser.endTime r <> None -> DateParser.startTime r <> None.
Proof.
  intros Hr. pose proof (parseNaturalLanguage_cases today input) as H.
  cbv zeta in H. rewrite Hr in H.
  destruct H as (_ & _ & _ & _ & _ & Ht & _).
  eapply extractTimes_end_start. symmetry; exact Ht.
Qed.

Lemma parseNaturalLanguage_endTime_startTime_witness :
  exists r,
    DateParser.parseNaturalLanguage day0 (lit "Standup today 9-10am") = Some r /\
    DateParser.endTime r = Some (lit "10:00") /\
    DateParser.startTime r <> None.
Proof.
  eexists. split; [ vm_compute; reflexivity | ]. split; [ reflexivity | ].
  apply (parseNaturalLanguage_endTime_startTime day0 (lit "Standup today 9-10am")).
  - vm_compute; reflexivity.
  - discriminate.
Defined.



Lemma truthy_nonempty (s : jsstring) : s <> [] -> truthy (Some s) = true.
Proof. destruct s; [ contradiction | reflexivity ]. Qed.

Lemma parseNaturalLanguage_some today input pd ped st et title :
  DateParser.extractDates today (cleanInputOf input) = (Some pd, ped) ->
  DateParser.extractTimes (cleanInputOf input) = (st, et) ->
  DateParser.extractTitle input (Some pd) st et = title ->
  title <> [] ->
  DateParser.parseNaturalLanguage today input =
    Some (DateParser.mkParsedEvent title pd ped st et
            (DateParser.extractType (cleanInputOf input))).
Proof.
  intros Hd Ht Htt Hne. unfold DateParser.parseNaturalLanguage.
  unfold cleanInputOf in *. rewrite Hd, Ht, Htt.
  destruct title as [|c t]; [ contradiction | ].
  destruct pd as [|c' d]; [ | reflexivity ].
  exfalso. eapply extractDates_nonempty; [ exact Hd | reflexivity ].
Qed.

(** Evaluate the closed tests of the goal. *)
Ltac eval_tests :=
  repeat match goal with
         | |- context [if ?b then _ else _] =>
             let v := eval vm_compute in b in
             change b with v; cbv beta iota
         end.

(** *** parseLineToEvents *)

(** C5: the line "Product Mngt Leader Review July 9-10, 2025 (Wed-Thu)"
    yields exactly one draft: a MEETING titled "Product Mngt Leader Review"
    with date and startDate 2025-07-09 and endDate 2025-07-10. *)
Theorem parseLineToEvents_leader_review
  (chrono_parseDate : jsstring -> BulkParser.chronoOutcome) :
  BulkParser.parseLineToEvents chrono_parseDate
    (lit "Product Mngt Leader Review July 9-10, 2025 (Wed-Thu)") =
  [ BulkParser.mkBulkEvent MEETING (lit "Product Mngt Leader Review")
      (lit "2025-07-09") (Some (lit "2025-07-09")) (Some (lit "2025-07-10")) ].
Proof. vm_compute; reflexivity. Qed.

(** *** assignEventLanes *)

Lemma canFit_disjoint iv lane :
  Calendar.canFit iv lane = true ->
  Forall (fun x => entriesDisjoint x (Calendar.entryOf iv)) lane.
Proof.
  unfold Calendar.canFit. rewrite forallb_forall, List.Forall_forall.
  intros H x Hx. specialize (H x Hx).
  unfold Calendar.overlaps in H. rewrite negb_involutive in H.
  unfold entriesDisjoint, disjoint. cbn.
  apply orb_true_iff in H. destruct H as [H | H]; lia.
Qed.

Lemma ForallOrdPairs_snoc {A} (R : A -> A -> Prop) l x :
  ForallOrdPairs R l -> Forall (fun y => R y x) l ->
  ForallOrdPairs R (l ++ [x]).
Proof.
  induction 1 as [|y l Hy Hl IH]; intros Hx; cbn.
  - constructor; constructor.
  - inversion Hx; subst. constructor.
    + apply Forall_app. split; [ assumption | constructor; [assumption | constructor] ].
    + apply IH. assumption.
Qed.

(** What the scan of the existing lanes does. *)
Lemma tryLanes_some iv lanes k i lanes' :
  Calendar.tryLanes iv lanes k = Some (i, lanes') ->
  exists pre lane post,
    lanes = pre ++ lane :: post /\
    lanes' = pre ++ (lane ++ [Calendar.entryOf iv]) :: post /\
    i = (k + List.length pre)%nat /\
    Calendar.canFit iv lane = true.
Proof.
  revert k i lanes'. induction lanes as [|lane rest IH]; intros k i lanes'; cbn.
  - discriminate.
  - destruct (Calendar.canFit iv lane) eqn:Hfit.
    + intros H; inversion H; subst.
      exists [], lane, rest. cbn. repeat split; [ lia | assumption ].
    + destruct (Calendar.tryLanes iv rest (S k)) as [[j rest']|] eqn:Hrest;
        [ | discriminate ].
      intros H; inversion H; subst.
      destruct (IH _ _ _ Hrest) as (pre & l0 & post & -> & -> & -> & Hf).
      exists (lane :: pre), l0, post. cbn. repeat split; [ lia | assumption ].
Qed.

(** One turn of the loop: the lanes and the lane given to the interval. *)
Lemma assignOne_spec lanes em iv :
  exists l lanes',
    Calendar.assignOne (lanes, em) iv = (lanes', <[key iv := l]> em) /\
    (lanesOk lanes -> lanesOk lanes') /\
    (exists lane, lanes' !! l = Some lane /\ In (Calendar.entryOf iv) lane) /\
    (forall j lane x, lanes !! j = Some lane -> In x lane ->
       exists lane', lanes' !! j = Some lane' /\ In x lane').
Proof.
  unfold Calendar.assignOne.
  destruct (Calendar.tryLanes iv lanes 0) as [[i lanes']|] eqn:Ht.
  - destruct (tryLanes_some _ _ _ _ _ Ht) as (pre & lane & post & -> & -> & -> & Hf).
    exists (List.length pre), (pre ++ (lane ++ [Calendar.entryOf iv]) :: post).
    split; [ reflexivity | ]. split; [ | split ].
    + unfold lanesOk. rewrite !Forall_app. intros [Hp Hl].
      split; [ assumption | ]. inversion Hl; subst. constructor; [ | assumption ].
      apply ForallOrdPairs_snoc; [ assumption | ].
      apply canFit_disjoint. assumption.
    + exists (lane ++ [Calendar.entryOf iv]). split.
      * rewrite list_lookup_middle; reflexivity.
      * apply in_or_app. right. left. reflexivity.
    + intros j lane0 x Hj Hx.
      destruct (decide (j = List.length pre)) as [-> | Hne].
      * rewrite list_lookup_middle in Hj by reflexivity. inversion Hj; subst.
        exists (lane0 ++ [Calendar.entryOf iv]).
        rewrite list_lookup_middle by reflexivity.
        split; [ reflexivity | apply in_or_app; left; assumption ].
      * exists lane0. split; [ | assumption ].
        rewrite <- Hj.
        destruct (decide (j < List.length pre)%nat).
        -- rewrite !lookup_app_l by assumption. reflexivity.
        -- rewrite !lookup_app_r by lia.
           destruct (j - List.length pre)%nat eqn:E; [ lia | reflexivity ].
  - exists (List.length lanes), (lanes ++ [[Calendar.entryOf iv]]).
    split; [ reflexivity | ]. split; [ | split ].
    + unfold lanesOk. rewrite Forall_app. intros H. split; [ assumption | ].
      constructor; [ | constructor ]. constructor; [ constructor | constructor ].
    + exists [Calendar.entryOf iv]. split.
      * rewrite lookup_app_r by lia. rewrite Nat.sub_diag. reflexivity.
      * left; reflexivity.
    + intros j lane x Hj Hx. exists lane. split; [ | assumption ].
      rewrite lookup_app_l; [ assumption | ].
      apply lookup_lt_Some in Hj. assumption.
Qed.

Lemma assignOne_lanesOk st iv :
  lanesOk (fst st) -> lanesOk (fst (Calendar.assignOne st iv)).
Proof.
  destruct st as [lanes em].
  destruct (assignOne_spec lanes em iv) as (l & lanes' & -> & H & _).
  exact H.
Qed.

Lemma assignLoop_lanesOk ivs st :
  lanesOk (fst st) -> lanesOk (fst (fold_left Calendar.assignOne ivs st)).
Proof.
  revert st. induction ivs as [|iv ivs IH]; intros st H; cbn; [ assumption | ].
  apply IH. apply assignOne_lanesOk. assumption.
Qed.

Lemma assignOne_inv done st iv :
  loopInv done st -> ~ In (key iv) (List.map key done) ->
  loopInv (done ++ [iv]) (Calendar.assignOne st iv).
Proof.
  destruct st as [lanes em]. intros (Hok & Hin & Hdom) Hfresh.
  destruct (assignOne_spec lanes em iv) as (l & lanes' & -> & H1 & H2 & H3).
  unfold loopInv. cbn [fst snd] in *. split; [ auto | split ].
  - intros iv' Hiv'. apply in_app_or in Hiv'. destruct Hiv' as [Hiv' | [<- | []]].
    + destruct (Hin _ Hiv') as (l' & lane & Hl' & Hlane & Hx).
      destruct (H3 _ _ _ Hlane Hx) as (lane' & Hlane' & Hx').
      exists l', lane'. split; [ | split; assumption ].
      rewrite lookup_insert_ne; [ assumption | ].
      intros E. apply Hfresh. rewrite E. apply in_map. assumption.
    + destruct H2 as (lane & Hlane & Hx). exists l, lane.
      split; [ apply lookup_insert_eq | split; assumption ].
  - intros k l0 Hk. destruct (decide (key iv = k)) as [<- | Hne].
    + exists iv. split; [ apply in_or_app; right; left; reflexivity | reflexivity ].
    + rewrite lookup_insert_ne in Hk by assumption.
      destruct (Hdom _ _ Hk) as (iv' & Hiv' & Hkey).
      exists iv'. split; [ apply in_or_app; left; assumption | assumption ].
Qed.

Lemma assignLoop_inv todo : forall done st,
  loopInv done st -> List.NoDup (List.map key (done ++ todo)) ->
  loopInv (done ++ todo) (fold_left Calendar.assignOne todo st).
Proof.
  induction todo as [|iv todo IH]; intros done st Hinv Hnd; cbn.
  - rewrite app_nil_r. assumption.
  - replace (done ++ iv :: todo) with ((done ++ [iv]) ++ todo) in *
      by (rewrite <- app_assoc; reflexivity).
    apply IH; [ | assumption ].
    apply assignOne_inv; [ assumption | ].
    rewrite !List.map_app in Hnd. cbn in Hnd.
    apply NoDup_app_remove_r in Hnd.
    apply NoDup_remove_2 in Hnd. rewrite app_nil_r in Hnd. assumption.
Qed.

Lemma loopInv_init : loopInv [] ([], empty).
Proof.
  split; [ constructor | split ].
  - intros iv [].
  - intros k l H. cbn [snd] in H. rewrite lookup_empty in H. discriminate.
Qed.

(** The intervals of a week: a rearrangement of the intervals of the events
    that pass the filter. *)
Lemma mapThrowing_Forall2 {A B} (f : A -> option B) l l' :
  Calendar.mapThrowing f l = Some l' ->
  Forall2 (fun x y => f x = Some y) l l'.
Proof.
  revert l'. induction l as [|x l IH]; intros l'; cbn.
  - intros H; inversion H; constructor.
  - destruct (f x) eqn:Hx; [ | discriminate ].
    destruct (Calendar.mapThrowing f l); [ | discriminate ].
    intros H; inversion H; subst. constructor; [ assumption | auto ].
Qed.

Lemma toInterval_event newDate weekDays e iv :
  Calendar.toInterval newDate weekDays e = Some iv -> Calendar.event iv = e.
Proof.
  unfold Calendar.toInterval.
  destruct (Calendar.findIndex _ weekDays); [ | discriminate ].
  destruct (Calendar.findIndex _ weekDays); [ | discriminate ].
  intros H; inversion H; reflexivity.
Qed.

Lemma insertSorted_perm {A} (cmp : A -> A -> Z) x l :
  Permutation (Calendar.insertSorted cmp x l) (x :: l).
Proof.
  induction l as [|y l IH]; cbn; [ reflexivity | ].
  destruct (cmp y x >? 0); [ reflexivity | ].
  rewrite IH. apply perm_swap.
Qed.

Lemma sort_perm {A} (cmp : A -> A -> Z) l :
  Permutation (Calendar.sort cmp l) l.
Proof.
  unfold Calendar.sort.
  assert (H : forall acc, Permutation
                (fold_left (fun acc x => Calendar.insertSorted cmp x acc) l acc)
                (l ++ acc)).
  { induction l as [|x l IH]; intros acc; cbn; [ reflexivity | ].
    rewrite IH, insertSorted_perm. symmetry. apply Permutation_middle. }
  rewrite H. rewrite app_nil_r. reflexivity.
Qed.

Lemma Forall2_right_in {A B} (R : A -> B -> Prop) l l' y :
  Forall2 R l l' -> In y l' -> exists x, In x l /\ R x y.
Proof.
  induction 1 as [|x y' l l' Hx Hl IH]; intros Hy; [ destruct Hy | ].
  destruct Hy as [<- | Hy].
  - exists x. split; [ left; reflexivity | assumption ].
  - destruct (IH Hy) as (x' & Hx' & HR). exists x'. split; [ right | ]; assumption.
Qed.

Lemma Forall2_left_in {A B} (R : A -> B -> Prop) l l' x :
  Forall2 R l l' -> In x l -> exists y, In y l' /\ R x y.
Proof.
  induction 1 as [|x' y l l' Hx Hl IH]; intros Hy; [ destruct Hy | ].
  destruct Hy as [<- | Hy].
  - exists y. split; [ left; reflexivity | assumption ].
  - destruct (IH Hy) as (y' & Hy' & HR). exists y'. split; [ right | ]; assumption.
Qed.

Lemma NoDup_map_filter {A B} (f : A -> B) (p : A -> bool) l :
  List.NoDup (List.map f l) -> List.NoDup (List.map f (List.filter p l)).
Proof.
  induction l as [|x xs IH]; cbn; [ constructor | ].
  intros Hnd. inversion Hnd; subst.
  destruct (p x); cbn; [ | auto ].
  constructor; [ | auto ].
  intros Hin. apply H1. apply in_map_iff in Hin.
  destruct Hin as (y & Hy & Hin). apply filter_In in Hin.
  apply in_map_iff. exists y. tauto.
Qed.

Lemma weekIntervals_spec newDate events weekDays ivs :
  Calendar.weekIntervals newDate events weekDays = Some ivs ->
  (forall iv, In iv ivs <->
     (exists e, In e events /\
        Calendar.toInterval newDate weekDays e = Some iv) /\
     Calendar.start iv <= Calendar.end_ iv) /\
  (List.NoDup (List.map Schema.id events) -> List.NoDup (List.map key ivs)).
Proof.
  unfold Calendar.weekIntervals.
  destruct (Calendar.mapThrowing _ events) as [all|] eqn:Hm; [ | discriminate ].
  intros H; inversion H; subst; clear H.
  apply mapThrowing_Forall2 in Hm. split.
  - intros iv. rewrite (Permutation_in' (eq_refl iv) (sort_perm _ _)).
    rewrite filter_In, Z.leb_le.
    split; intros [H1 H2]; (split; [ | assumption ]).
    + exact (Forall2_right_in _ _ _ _ Hm H1).
    + destruct H1 as (e & He & Ht).
      destruct (Forall2_left_in _ _ _ _ Hm He) as (y & Hy & Hty).
      cbv beta in Hty. congruence.
  - intros Hnd.
    apply (Permutation_NoDup (l := List.map key
             (List.filter (fun iv => Calendar.start iv <=? Calendar.end_ iv) all))).
    { apply Permutation_map. symmetry. apply sort_perm. }
    apply NoDup_map_filter.
    replace (List.map key all) with (List.map Schema.id events); [ assumption | ].
    clear Hnd. induction Hm as [|e x es xs Hx Hm IH]; [ reflexivity | ].
    cbn. f_equal; [ | assumption ].
    unfold key. rewrite (toInterval_event _ _ _ _ Hx). reflexivity.
Qed.

Lemma entriesDisjoint_sym a b : entriesDisjoint a b -> entriesDisjoint b a.
Proof. unfold entriesDisjoint, disjoint. tauto. Qed.

Lemma NoDup_map_injective {A B} (f : A -> B) l x y :
  List.NoDup (List.map f l) -> In x l -> In y l -> f x = f y -> x = y.
Proof.
  induction l as [|z l IH]; cbn; [ intros _ [] | ].
  intros Hnd Hx Hy E. inversion Hnd; subst.
  destruct Hx as [-> | Hx], Hy as [-> | Hy]; auto.
  - exfalso. apply H1. rewrite E. apply in_map. assumption.
  - exfalso. apply H1. rewrite <- E. apply in_map. assumption.
Qed.

(** C3: two events that [assignEventLanes] puts in the same lane have
    week intervals that do not overlap.  The lanes built by the loop are
    free of collisions for every input; when the events have distinct ids,
    two events mapped to the same lane by [eventLanes] have disjoint
    intervals. *)
Theorem assignEventLanes_no_collision
  (newDate : jsstring -> option Date) (events : list Schema.Event)
  (weekDays : list Date) (r : Calendar.LaneResult) :
  Calendar.assignEventLanes newDate events weekDays = Some r ->
  (exists ivs lanes,
      Calendar.weekIntervals newDate events weekDays = Some ivs /\
      Calendar.assignLoop ivs = (lanes, Calendar.eventLanes r) /\
      Calendar.maxLanes r = List.length lanes /\
      Forall (ForallOrdPairs entriesDisjoint) lanes) /\
  (List.NoDup (List.map Schema.id events) ->
   forall e1 e2 i1 i2 l,
     In e1 events -> In e2 events -> e1 <> e2 ->
     Calendar.toInterval newDate weekDays e1 = Some i1 ->
     Calendar.toInterval newDate weekDays e2 = Some i2 ->
     Calendar.eventLanes r !! Schema.id e1 = Some l ->
     Calendar.eventLanes r !! Schema.id e2 = Some l ->
     disjoint (Calendar.start i1) (Calendar.end_ i1)
              (Calendar.start i2) (Calendar.end_ i2)).
Proof.
  intros Hr.
  assert (Hex : exists ivs lanes,
      Calendar.weekIntervals newDate events weekDays = Some ivs /\
      Calendar.assignLoop ivs = (lanes, Calendar.eventLanes r) /\
      Calendar.maxLanes r = List.length lanes).
  { unfold Calendar.assignEventLanes in Hr. destruct events as [|e es].
    - inversion Hr; subst. exists [], []. repeat split.
    - destruct (Calendar.weekIntervals newDate (e :: es) weekDays) as [ivs|];
        [ | discriminate ].
      destruct (Calendar.assignLoop ivs) as [lanes em] eqn:El.
      inversion Hr; subst. exists ivs, lanes. repeat split. assumption. }
  destruct Hex as (ivs & lanes & Hw & Hl & Hmax).
  split.
  - exists ivs, lanes. repeat split; try assumption.
    pose proof (assignLoop_lanesOk ivs ([], empty)) as H.
    unfold Calendar.assignLoop in Hl. rewrite Hl in H. apply H. constructor.
  - intros Hnd e1 e2 i1 i2 l He1 He2 Hne Hi1 Hi2 Hl1 Hl2.
    destruct (weekIntervals_spec _ _ _ _ Hw) as (Hin & Hkeys).
    specialize (Hkeys Hnd).
    pose proof (assignLoop_inv ivs [] ([], empty) loopInv_init Hkeys) as Hinv.
    cbn [app] in Hinv. unfold Calendar.assignLoop in Hl. rewrite Hl in Hinv.
    destruct Hinv as (Hok & Hplace & Hdom). cbn [fst snd] in *.
    assert (Hfind : forall e i, In e events ->
              Calendar.toInterval newDate weekDays e = Some i ->
              Calendar.eventLanes r !! Schema.id e = Some l ->
              exists lane, lanes !! l = Some lane /\ In (Calendar.entryOf i) lane).
    { intros e i He Hi Hle.
      destruct (Hdom _ _ Hle) as (iv & Hiv & Hk).
      destruct (proj1 (Hin iv) Hiv) as ((e' & He' & Hte') & _).
      assert (e' = e).
      { apply (NoDup_map_injective Schema.id events); try assumption.
        rewrite <- Hk. unfold key.
        rewrite (toInterval_event _ _ _ _ Hte'). reflexivity. }
      subst e'. assert (iv = i) by congruence. subst iv.
      destruct (Hplace _ Hiv) as (l' & lane & Hl' & Hlane & Hx).
      unfold key in Hl'. rewrite (toInterval_event _ _ _ _ Hi) in Hl'.
      assert (l' = l) by congruence. subst l'.
      exists lane. split; assumption. }
    destruct (Hfind _ _ He1 Hi1 Hl1) as (lane & Hlane & Hx1).
    destruct (Hfind _ _ He2 Hi2 Hl2) as (lane' & Hlane' & Hx2).
    assert (lane' = lane) by congruence. subst lane'.
    assert (Hpairs : ForallOrdPairs entriesDisjoint lane).
    { unfold lanesOk in Hok. rewrite List.Forall_forall in Hok. apply Hok.
      apply list_elem_of_In. eapply list_elem_of_lookup_2. eassumption. }
    destruct (ForallOrdPairs_In Hpairs _ _ Hx1 Hx2) as [E | [H | H]].
    + exfalso. apply Hne.
      apply (NoDup_map_injective Schema.id events); try assumption.
      apply (f_equal Calendar.eventId) in E. cbn in E.
      rewrite (toInterval_event _ _ _ _ Hi1) in E.
      rewrite (toInterval_event _ _ _ _ Hi2) in E. assumption.
    + exact H.
    + apply entriesDisjoint_sym in H. exact H.
Qed.

Lemma NoDup_ids_abc : List.NoDup (List.map Schema.id [evB; evC; evA]).
Proof.
  apply NoDup_ListNoDup. apply (bool_decide_unpack _). vm_compute. exact I.
Defined.

Lemma assignEventLanes_no_collision_witness :
  exists r,
    Calendar.assignEventLanes Calendar.parseISO [evB; evC; evA] week0 = Some r /\
    Calendar.eventLanes r !! Schema.id evB = Some 1%nat /\
    Calendar.eventLanes r !! Schema.id evC = Some 1%nat /\
    disjoint 0 1 2 3.
Proof.
  eexists. split; [ vm_compute; reflexivity | ].
  split; [ vm_compute; reflexivity | ]. split; [ vm_compute; reflexivity | ].
  refine (proj2 (assignEventLanes_no_collision Calendar.parseISO
                   [evB; evC; evA] week0 _ _) NoDup_ids_abc evB evC
            (Calendar.mkInterval evB 0 1 _ _) (Calendar.mkInterval evC 2 3 _ _)
            1%nat _ _ _ _ _ _ _).
  - vm_compute; reflexivity.
  - left; reflexivity.
  - right; left; reflexivity.
  - discriminate.
  - vm_compute; reflexivity.
  - vm_compute; reflexivity.
  - vm_compute; reflexivity.
  - vm_compute; reflexivity.
Defined.

Lemma Permutation_three {A} (a b c : A) l :
  Permutation l [a; b; c] ->
  l = [a; b; c] \/ l = [a; c; b] \/ l = [b; a; c] \/
  l = [b; c; a] \/ l = [c; a; b] \/ l = [c; b; a].
Proof.
  intros H. pose proof (Permutation_length H) as Hlen.
  destruct l as [|x [|y [|z [|]]]]; try discriminate. clear Hlen.
  assert (Hx : In x [a; b; c]) by (eapply Permutation_in; [ exact H | left; reflexivity ]).
  destruct Hx as [<- | [<- | [<- | []]]].
  - apply Permutation_cons_inv in H.
    apply Permutation_length_2_inv in H. destruct H as [H | H]; inversion H; auto.
  - apply (Permutation_cons_app_inv [a] [c]) in H. cbn in H.
    apply Permutation_length_2_inv in H. destruct H as [H | H]; inversion H; auto 10.
  - apply (Permutation_cons_app_inv [a; b] []) in H. cbn in H.
    apply Permutation_length_2_inv in H. destruct H as [H | H]; inversion H; auto 10.
Qed.

(** C4: three events whose spans in the week are [0,4], [0,1] and [2,3],
    in any order of the input, are sorted to that order and laid out on two
    lanes: [0,4] in lane 0, [0,1] and [2,3] in lane 1. *)
Theorem assignEventLanes_three_spans
  (newDate : jsstring -> option Date) (weekDays : list Date)
  (e1 e2 e3 : Schema.Event) (i1 i2 i3 : Calendar.Interval)
  (events : list Schema.Event) :
  Calendar.toInterval newDate weekDays e1 = Some i1 ->
  Calendar.toInterval newDate weekDays e2 = Some i2 ->
  Calendar.toInterval newDate weekDays e3 = Some i3 ->
  (Calendar.start i1, Calendar.end_ i1) = (0, 4) ->
  (Calendar.start i2, Calendar.end_ i2) = (0, 1) ->
  (Calendar.start i3, Calendar.end_ i3) = (2, 3) ->
  Permutation events [e1; e2; e3] ->
  Calendar.weekIntervals newDate events weekDays = Some [i1; i2; i3] /\
  fst (Calendar.assignLoop [i1; i2; i3]) =
    [ [Calendar.mkLaneEntry 0 4 (Schema.id e1)];
      [Calendar.mkLaneEntry 0 1 (Schema.id e2);
       Calendar.mkLaneEntry 2 3 (Schema.id e3)] ] /\
  exists r, Calendar.assignEventLanes newDate events weekDays = Some r /\
            Calendar.maxLanes r = 2%nat.
Proof.
  intros H1 H2 H3 S1 S2 S3 Hp.
  pose proof (toInterval_event _ _ _ _ H1) as E1.
  pose proof (toInterval_event _ _ _ _ H2) as E2.
  pose proof (toInterval_event _ _ _ _ H3) as E3.
  destruct i1 as [v1 s1 f1 a1 b1], i2 as [v2 s2 f2 a2 b2], i3 as [v3 s3 f3 a3 b3].
  cbn in S1, S2, S3, E1, E2, E3.
  injection S1 as -> ->. injection S2 as -> ->. injection S3 as -> ->. subst v1 v2 v3.
  assert (Hw : Calendar.weekIntervals newDate events weekDays =
               Some [Calendar.mkInterval e1 0 4 a1 b1;
                     Calendar.mkInterval e2 0 1 a2 b2;
                     Calendar.mkInterval e3 2 3 a3 b3]).
  { unfold Calendar.weekIntervals.
    destruct (Permutation_three _ _ _ _ Hp) as [-> | [-> | [-> | [-> | [-> | ->]]]]];
      cbn [Calendar.mapThrowing]; rewrite H1, H2, H3; reflexivity. }
  split; [ exact Hw | ]. split; [ reflexivity | ].
  unfold Calendar.assignEventLanes. rewrite Hw.
  destruct events as [|e es].
  - apply Permutation_length in Hp. discriminate.
  - eexists. split; [ reflexivity | reflexivity ].
Qed.

Lemma assignEventLanes_three_spans_witness :
  exists r, Calendar.assignEventLanes Calendar.parseISO [evB; evC; evA] week0 = Some r /\
            Calendar.maxLanes r = 2%nat.
Proof.
  refine (proj2 (proj2 (assignEventLanes_three_spans Calendar.parseISO week0
            evA evB evC
            (Calendar.mkInterval evA 0 4 _ _) (Calendar.mkInterval evB 0 1 _ _)
            (Calendar.mkInterval evC 2 3 _ _) [evB; evC; evA] _ _ _ _ _ _ _))).
  - vm_compute; reflexivity.
  - vm_compute; reflexivity.
  - vm_compute; reflexivity.
  - reflexivity.
  - reflexivity.
  - reflexivity.
  - symmetry. apply (Permutation_cons_append [evB; evC] evA).
Defined.

(** *** Drafts outside the two shapes, ranges written backwards, events
    outside the week *)

Lemma parseNaturalLanguage_mixes_shapes :
  exists r,
    DateParser.parseNaturalLanguage day0 (lit "Offsite 15-17 oct") = Some r /\
    d_endDate (ofParsed r) = Some (lit "2025-10-17") /\
    d_startTime (ofParsed r) = Some (lit "15:00") /\
    ~ oneShape (ofParsed r).
Proof.
  eexists. split; [ vm_compute; reflexivity | ].
  split; [ reflexivity | ]. split; [ reflexivity | ].
  intros [[_ H] | [H _]]; [ discriminate H | apply H; reflexivity ].
Qed.

Lemma parseNaturalLanguage_returns_inverted_range :
  exists r,
    DateParser.parseNaturalLanguage day0 (lit "Sync 17-15 oct") = Some r /\
    DateParser.date r = lit "2025-10-17" /\
    DateParser.endDate r = Some (lit "2025-10-15") /\
    ~ ordered (ofParsed r).
Proof.
  eexists. split; [ vm_compute; reflexivity | ].
  split; [ reflexivity | ]. split; [ reflexivity | ].
  intros H. specialize (H _ eq_refl). vm_compute in H. discriminate H.
Qed.

(** With date-fns 3 a range written backwards is expanded in descending
    order, and the draft is inverted too. *)
Lemma parseLineToEvents_returns_inverted_range chrono_parseDate :
  exists e,
    BulkParser.parseLineToEvents chrono_parseDate
      (lit "Offsite July 10-9, 2025") = [e] /\
    BulkParser.date e = lit "2025-07-10" /\
    BulkParser.endDate e = Some (lit "2025-07-09") /\
    ~ ordered (ofBulk e).
Proof.
  eexists. split; [ vm_compute; reflexivity | ].
  split; [ reflexivity | ]. split; [ reflexivity | ].
  intros H. specialize (H _ eq_refl). vm_compute in H. discriminate H.
Qed.


(** *** The indices of an event within the week *)

Lemma str_eqb_eq a : forall b, str_eqb a b = true <-> a = b.
Proof.
  induction a as [|x a IH]; intros [|y b]; cbn; try (split; congruence).
  unfold char_eqb. rewrite andb_true_iff, N.eqb_eq, IH.
  split; [ intros [-> ->]; reflexivity | intros H; inversion H; auto ].
Qed.

Lemma str_ltb_neq a b : str_ltb a b = true -> a <> b.
Proof.
  unfold str_ltb. intros H ->. rewrite str_leb_refl in H. discriminate.
Qed.

Lemma getFullYear_monotone z1 z2 :
  z1 <= z2 -> getFullYear z1 <= getFullYear z2.
Proof.
  intros H. destruct (Z.eq_dec z1 z2) as [-> | Hne]; [ lia | ].
  pose proof (civilFromDays_increasing z1 z2 ltac:(lia)) as Hc.
  unfold getFullYear.
  destruct (civilFromDays z1) as [[y1 m1] d1], (civilFromDays z2) as [[y2 m2] d2].
  cbn in *. rewrite !orb_true_iff, !andb_true_iff, Z.ltb_lt, Z.eqb_eq in Hc. lia.
Qed.

(** Within the years 1 to 9999 the comparison of the formatted days is the
    comparison of the days. *)
Lemma sameDay_eqb x day :
  0 < getFullYear x <= 9999 -> 0 < getFullYear day <= 9999 ->
  Calendar.sameDay (Some x) day = Some (day =? x).
Proof.
  intros Hx Hd. unfold Calendar.sameDay.
  rewrite !format_formatISO by lia. f_equal.
  destruct (Z.eqb_spec day x) as [-> | Hne].
  - apply str_eqb_eq. reflexivity.
  - destruct (str_eqb (formatISO day) (formatISO x)) eqn:E; [ | reflexivity ].
    apply str_eqb_eq in E. exfalso.
    destruct (Z_lt_le_dec day x).
    + apply (str_ltb_neq _ _ (formatISO_increasing day x ltac:(lia) ltac:(lia) ltac:(lia))).
      assumption.
    + apply (str_ltb_neq _ _ (formatISO_increasing x day ltac:(lia) ltac:(lia) ltac:(lia))).
      symmetry. assumption.
Qed.

Lemma findIndexFrom_days x d0 n : forall a,
  (forall i, (a <= i < a + n)%nat ->
     Calendar.sameDay (Some x) (d0 + Z.of_nat i) = Some (d0 + Z.of_nat i =? x)) ->
  Calendar.findIndexFrom (Calendar.sameDay (Some x))
    (List.map (fun i => d0 + Z.of_nat i) (List.seq a n)) (Z.of_nat a) =
  Some (if (d0 + Z.of_nat a <=? x) && (x <? d0 + Z.of_nat a + Z.of_nat n)
        then x - d0 else -1).
Proof.
  induction n as [|n IH]; intros a Hs; cbn [List.seq List.map Calendar.findIndexFrom].
  - f_equal. destruct (Z.leb_spec (d0 + Z.of_nat a) x), (Z.ltb_spec x (d0 + Z.of_nat a + Z.of_nat 0));
      cbn; try reflexivity; lia.
  - rewrite Hs by lia. destruct (Z.eqb_spec (d0 + Z.of_nat a) x) as [E | Hne].
    + f_equal. destruct (Z.leb_spec (d0 + Z.of_nat a) x), (Z.ltb_spec x (d0 + Z.of_nat a + Z.of_nat (S n)));
        cbn; lia.
    + replace (Z.of_nat a + 1) with (Z.of_nat (S a)) by lia.
      rewrite IH by (intros i Hi; apply Hs; lia). f_equal.
      destruct (Z.leb_spec (d0 + Z.of_nat (S a)) x),
        (Z.ltb_spec x (d0 + Z.of_nat (S a) + Z.of_nat n)),
        (Z.leb_spec (d0 + Z.of_nat a) x),
        (Z.ltb_spec x (d0 + Z.of_nat a + Z.of_nat (S n))); cbn; lia.
Qed.

Lemma findIndex_days x d0 n :
  0 < getFullYear x <= 9999 ->
  0 < getFullYear d0 -> getFullYear (d0 + Z.of_nat n - 1) <= 9999 ->
  Calendar.findIndex (Calendar.sameDay (Some x)) (daysUpFrom d0 n) =
  Some (if (d0 <=? x) && (x <? d0 + Z.of_nat n) then x - d0 else -1).
Proof.
  intros Hx H0 Hn. unfold Calendar.findIndex, daysUpFrom.
  pose proof (findIndexFrom_days x d0 n 0%nat) as H.
  cbn [Z.of_nat] in H. rewrite !Z.add_0_r in H. apply H.
  intros i Hi. apply sameDay_eqb; [ assumption | ].
    pose proof (getFullYear_monotone d0 (d0 + Z.of_nat i) ltac:(lia)).
    pose proof (getFullYear_monotone (d0 + Z.of_nat i) (d0 + Z.of_nat n - 1) ltac:(lia)).
    lia.
Qed.

Lemma assignLoop_has_key ivs : forall st iv,
  In iv ivs \/ is_Some (snd st !! key iv) ->
  is_Some (snd (fold_left Calendar.assignOne ivs st) !! key iv).
Proof.
  induction ivs as [|x ivs IH]; intros st iv H; cbn.
  - destruct H as [[] | H]. assumption.
  - apply IH. destruct st as [lanes em].
    destruct (assignOne_spec lanes em x) as (l & lanes' & -> & _).
    cbn [snd] in *.
    destruct H as [[-> | H] | H].
    + right. rewrite lookup_insert_eq. eauto.
    + left. assumption.
    + right. destruct (decide (key x = key iv)) as [-> | Hne].
      * rewrite lookup_insert_eq. eauto.
      * rewrite lookup_insert_ne by assumption. assumption.
Qed.

(** The events that [renderMonth] hands over, when their range is not
    inverted, meet the days of the week. *)
Lemma weekSpanningEvents_intersect newDate multiDayEvents e s f d0 n :
  In e (Calendar.weekSpanningEvents newDate multiDayEvents (daysUpFrom d0 n)) ->
  newDate (Schema.date e ++ lit "T00:00:00") = Some s ->
  newDate (Calendar.endDateText e ++ lit "T00:00:00") = Some f ->
  s <= f -> intersectsWeek s f (daysUpFrom d0 n).
Proof.
  unfold Calendar.weekSpanningEvents. intros Hin Hs Hf Hsf.
  apply filter_In in Hin. destruct Hin as [_ Hc]. rewrite Hs, Hf in Hc.
  destruct n as [|n].
  - cbn in Hc. discriminate.
  - assert (Hh : List.head (daysUpFrom d0 (S n)) = Some d0).
    { cbn. f_equal. lia. }
    assert (Hl : List.last (List.map Some (daysUpFrom d0 (S n))) None =
                 Some (d0 + Z.of_nat n)).
    { unfold daysUpFrom. rewrite List.map_map, seq_S, List.map_app.
      cbn [List.map]. rewrite last_last. reflexivity. }
    rewrite Hh, Hl in Hc. apply andb_prop in Hc. destruct Hc as [H1 H2].
    apply Z.geb_le in H1. apply Z.leb_le in H2.
    exists (Z.max s d0). split.
    + unfold daysUpFrom. apply in_map_iff.
      exists (Z.to_nat (Z.max s d0 - d0)). split; [ lia | ].
      apply in_seq. lia.
    + lia.
Qed.

(** For a week list of consecutive days (of the years 1 to 9999) and an
    event whose date range, start not after end, meets the list, which is
    what the filter of [renderMonth] lets through, the start and end
    indices computed by [assignEventLanes] are the first and last positions
    of the list that lie in the range (a date outside the list counts as
    index 0 for the start and as the last index for the end), and the event
    is given a lane. *)
Theorem assignEventLanes_week_positions
  (newDate : jsstring -> option Date) (events : list Schema.Event)
  (e : Schema.Event) (s f d0 : Date) (n : nat) :
  let weekDays := daysUpFrom d0 n in
  newDate (Schema.date e ++ lit "T00:00:00") = Some s ->
  newDate (Calendar.endDateText e ++ lit "T00:00:00") = Some f ->
  0 < getFullYear s -> 0 < getFullYear d0 ->
  getFullYear f <= 9999 -> getFullYear (d0 + Z.of_nat n - 1) <= 9999 ->
  s <= f -> intersectsWeek s f weekDays ->
  exists iv,
    Calendar.toInterval newDate weekDays e = Some iv /\
    Calendar.start iv = Z.max s d0 - d0 /\
    Calendar.end_ iv = Z.min f (d0 + Z.of_nat n - 1) - d0 /\
    (forall i, 0 <= i < Z.of_nat n ->
       (Calendar.start iv <= i <= Calendar.end_ iv <-> s <= d0 + i <= f)) /\
    (forall r, In e events ->
       Calendar.assignEventLanes newDate events weekDays = Some r ->
       is_Some (Calendar.eventLanes r !! Schema.id e)).
Proof.
  intros weekDays Hs Hf Ys Y0 Yf Yn Hsf (d & Hd & Hsd).
  assert (Hdr : d0 <= d < d0 + Z.of_nat n).
  { unfold weekDays, daysUpFrom in Hd. apply in_map_iff in Hd.
    destruct Hd as (i & <- & Hi). apply in_seq in Hi. lia. }
  pose proof (getFullYear_monotone s f Hsf) as M1.
  pose proof (getFullYear_monotone d0 f ltac:(lia)) as M2.
  pose proof (getFullYear_monotone s (d0 + Z.of_nat n - 1) ltac:(lia)) as M3.
  assert (Hi1 : Calendar.findIndex (Calendar.sameDay (Some s)) weekDays =
                Some (if (d0 <=? s) && (s <? d0 + Z.of_nat n) then s - d0 else -1))
    by (apply findIndex_days; lia).
  assert (Hi2 : Calendar.findIndex (Calendar.sameDay (Some f)) weekDays =
                Some (if (d0 <=? f) && (f <? d0 + Z.of_nat n) then f - d0 else -1))
    by (apply findIndex_days; lia).
  assert (Hlen : List.length weekDays = n).
  { unfold weekDays, daysUpFrom. rewrite List.length_map, List.length_seq. reflexivity. }
  eexists. split.
  { unfold Calendar.toInterval. rewrite Hs, Hf, Hi1, Hi2. reflexivity. }
  cbn [Calendar.start Calendar.end_]. rewrite Hlen.
  assert (E1 : (if (if (d0 <=? s) && (s <? d0 + Z.of_nat n) then s - d0 else -1) >=? 0
                then (if (d0 <=? s) && (s <? d0 + Z.of_nat n) then s - d0 else -1)
                else 0) = Z.max s d0 - d0).
  { destruct (Z.leb_spec d0 s), (Z.ltb_spec s (d0 + Z.of_nat n)); cbn;
      try lia; destruct (Z.geb_spec (s - d0) 0); lia. }
  assert (E2 : (if (if (d0 <=? f) && (f <? d0 + Z.of_nat n) then f - d0 else -1) >=? 0
                then (if (d0 <=? f) && (f <? d0 + Z.of_nat n) then f - d0 else -1)
                else Z.of_nat n - 1) = Z.min f (d0 + Z.of_nat n - 1) - d0).
  { destruct (Z.leb_spec d0 f), (Z.ltb_spec f (d0 + Z.of_nat n)); cbn;
      try lia; destruct (Z.geb_spec (f - d0) 0); lia. }
  rewrite E1, E2. split; [ reflexivity | ]. split; [ reflexivity | ]. split.
  - intros i Hi. lia.
  - intros r He Hr. unfold Calendar.assignEventLanes in Hr.
    destruct events as [|e0 es]; [ destruct He | ].
    destruct (Calendar.weekIntervals newDate (e0 :: es) weekDays) as [ivs|] eqn:Hw;
      [ | discriminate ].
    destruct (Calendar.assignLoop ivs) as [lanes em] eqn:El.
    inversion Hr; subst r; clear Hr. cbn [Calendar.eventLanes].
    destruct (weekIntervals_spec _ _ _ _ Hw) as (Hin & _).
    set (iv := Calendar.mkInterval e (Z.max s d0 - d0)
                 (Z.min f (d0 + Z.of_nat n - 1) - d0) (Some s) (Some f)).
    assert (Hiv : In iv ivs).
    { apply Hin. split.
      - exists e. split; [ assumption | ].
        unfold Calendar.toInterval. rewrite Hs, Hf, Hi1, Hi2, Hlen, E1, E2.
        reflexivity.
      - cbn. lia. }
    pose proof (assignLoop_has_key ivs ([], empty) iv (or_introl Hiv)) as H.
    unfold Calendar.assignLoop in El. rewrite El in H. exact H.
Qed.

Lemma assignEventLanes_week_positions_witness :
  exists iv,
    Calendar.toInterval Calendar.parseISO week0 evP = Some iv /\
    Calendar.start iv = 0 /\ Calendar.end_ iv = 2.
Proof.
  destruct (assignEventLanes_week_positions Calendar.parseISO [evP] evP
              (mkDate 2025 6 3) (mkDate 2025 6 9) (mkDate 2025 6 7) 5)
    as (iv & H1 & H2 & H3 & _).
  - vm_compute; reflexivity.
  - vm_compute; reflexivity.
  - vm_compute; reflexivity.
  - vm_compute; reflexivity.
  - vm_compute; discriminate.
  - vm_compute; discriminate.
  - vm_compute; discriminate.
  - exists (mkDate 2025 6 7). split; [ left; reflexivity | ].
    split; vm_compute; discriminate.
  - exists iv. split; [ exact H1 | ]. split; [ exact H2 | exact H3 ].
Defined.

Lemma weekSpanningEvents_intersect_witness :
  In evP (Calendar.weekSpanningEvents Calendar.parseISO [evP; evX] week0) /\
  intersectsWeek (mkDate 2025 6 3) (mkDate 2025 6 9) week0.
Proof.
  assert (Hin : In evP (Calendar.weekSpanningEvents Calendar.parseISO
                          [evP; evX] (daysUpFrom (mkDate 2025 6 7) 5)))
    by (vm_compute; left; reflexivity).
  assert (Hs : Calendar.parseISO (Schema.date evP ++ lit "T00:00:00") =
               Some (mkDate 2025 6 3)) by (vm_compute; reflexivity).
  assert (Hf : Calendar.parseISO (Calendar.endDateText evP ++ lit "T00:00:00") =
               Some (mkDate 2025 6 9)) by (vm_compute; reflexivity).
  split; [ exact Hin | ].
  apply (weekSpanningEvents_intersect Calendar.parseISO [evP; evX] evP
           (mkDate 2025 6 3) (mkDate 2025 6 9) (mkDate 2025 6 7) 5 Hin Hs Hf).
  vm_compute; discriminate.
Defined.

(** *** The captures of the patterns *)

Lemma matches_noGroups r : forall s s',
  noGroups r = true -> matches r s s' -> caps s' = caps s.
Proof.
  induction r as [ | p | a IHa b IHb | a IHa b IHb | a IHa lo hi | i a IHa | | | ];
    intros s s' Hg; cbn [matches noGroups] in *.
  - intros ->. reflexivity.
  - intros (c & Ha & _). unfold advance in Ha.
    destruct (after s); [ discriminate | ]. inversion Ha; reflexivity.
  - apply andb_prop in Hg. destruct Hg as [Ga Gb].
    intros (s1 & H1 & H2). rewrite (IHb _ _ Gb H2). apply (IHa _ _ Ga H1).
  - apply andb_prop in Hg. destruct Hg as [Ga Gb]. intros [H | H]; auto.
  - intros (n & _ & _ & Hc). revert s Hc.
    induction n as [|n IHn]; intros s; cbn.
    + intros ->. reflexivity.
    + intros (s1 & H1 & _ & Hc). rewrite (IHn _ Hc). apply (IHa _ _ Hg H1).
  - discriminate.
  - intros [_ ->]. reflexivity.
  - intros [_ ->]. reflexivity.
  - intros [_ ->]. reflexivity.
Qed.

Lemma chain_class p : forall n s s',
  chain (matches (Cls p)) n s s' ->
  exists w, List.length w = n /\ forallb p w = true /\ extends s w s'.
Proof.
  induction n as [|n IH]; intros s s'; cbn [chain].
  - intros ->. exists []. repeat split.
  - intros (s1 & (c & Ha & Hp) & _ & Hc).
    destruct (IH _ _ Hc) as (w & Hl & Hf & He).
    exists (c :: w). cbn. rewrite Hp, Hf, Hl. repeat split.
    + destruct He as [B _]. rewrite B. unfold advance in Ha.
      destruct (after s); [ discriminate | ]. inversion Ha; subst. cbn.
      rewrite <- app_assoc. reflexivity.
    + destruct He as [_ A]. unfold advance in Ha.
      destruct (after s) eqn:E; [ discriminate | ]. inversion Ha; subst. cbn in A.
      rewrite A. reflexivity.
Qed.

(** A group of digits captures the digits it went over. *)
Lemma matches_group_digits i lo hi s s' :
  matches (Grp i (digits lo hi)) s s' ->
  exists w, (lo <= List.length w <= hi)%nat /\ forallb isDigit w = true /\
            extends s w s' /\ caps s' = (i, w) :: caps s.
Proof.
  cbn [matches digits]. intros (s1 & (n & Hlo & Hhi & Hc) & ->).
  pose proof (matches_noGroups (digits lo hi) s s1 eq_refl) as Hcaps.
  destruct (chain_class _ _ _ _ Hc) as (w & Hl & Hf & He).
  exists w. split; [ lia | ]. split; [ assumption | ]. split.
  - exact He.
  - unfold capture. cbn [caps]. rewrite (extends_consumed _ _ _ He).
    rewrite Hcaps; [ reflexivity | ].
    cbn [matches digits]. exists n. auto.
Qed.

Lemma parseInt_digits w :
  forallb isDigit w = true -> (List.length w <= 2)%nat -> 0 <= parseInt w <= 99.
Proof.
  unfold parseInt, isDigit, between.
  destruct w as [|a [|b [|c w]]]; cbn; intros H L; try lia.
  - rewrite andb_true_r, andb_true_iff, !N.leb_le in H. lia.
  - rewrite andb_true_r, !andb_true_iff, !N.leb_le in H. lia.
Qed.

Lemma truthy_of_length (w : jsstring) :
  (1 <= List.length w)%nat -> truthy (Some w) = true.
Proof. destruct w; cbn; [ lia | reflexivity ]. Qed.

(** A month name does not start with a digit. *)
Lemma monthMap_digits w :
  (1 <= List.length w)%nat -> forallb isDigit w = true ->
  DateParser.monthMap (toLowerCase w) = None.
Proof.
  destruct w as [|c w]; cbn [List.length forallb toLowerCase List.flat_map];
    [ lia | ].
  intros _ H. apply andb_prop in H. destruct H as [Hc _].
  unfold isDigit, between in Hc. rewrite andb_true_iff, !N.leb_le in Hc.
  assert (Hl : lowerUnits c = [c]).
  { unfold lowerUnits, lowerChar, isUpper, between.
    destruct (N.eqb_spec c 304); [ lia | ].
    destruct (N.eqb_spec c 8490); [ lia | ].
    destruct (N.eqb_spec c 8491); [ lia | ].
    destruct (N.leb_spec 65 c); [ lia | ]. cbn.
    destruct (N.leb_spec 192 c); [ lia | reflexivity ]. }
  rewrite Hl. cbn [app]. unfold DateParser.monthMap, monthAbbrevs.
  cbn [DateParser.lookupMonth lit list_ascii_of_string List.map str_eqb N_of_ascii N_of_digits].
  unfold char_eqb.
  repeat match goal with
         | |- context [N.eqb ?a c] =>
             destruct (N.eqb_spec a c); [ lia | cbn [andb] ]
         end.
  reflexivity.
Qed.

Lemma lookupMonth_range names key : forall i j,
  DateParser.lookupMonth names key i = Some j ->
  i <= j < i + Z.of_nat (List.length names).
Proof.
  induction names as [|n names IH]; intros i j; cbn; [ discriminate | ].
  destruct (str_eqb (lit n) key).
  - intros H; inversion H; lia.
  - intros H. apply IH in H. lia.
Qed.

Lemma monthMap_range key j : DateParser.monthMap key = Some j -> 0 <= j <= 11.
Proof.
  intros H. apply lookupMonth_range in H. cbn in H. lia.
Qed.

Lemma matches_group i a s s' :
  noGroups a = true -> matches (Grp i a) s s' ->
  exists w, extends s w s' /\ caps s' = (i, w) :: caps s.
Proof.
  intros Hg. cbn [matches]. intros (s1 & H1 & ->).
  destruct (matches_extends _ _ _ H1) as (w & He).
  exists w. split; [ exact He | ].
  unfold capture. cbn [caps]. rewrite (extends_consumed _ _ _ He).
  rewrite (matches_noGroups _ _ _ Hg H1). reflexivity.
Qed.

Lemma matches_opt_group i a s s' :
  noGroups a = true -> matches (opt (Grp i a)) s s' ->
  caps s' = caps s \/ exists w, caps s' = (i, w) :: caps s.
Proof.
  intros Hg. unfold opt. cbn [matches].
  intros (n & _ & Hn & Hc). destruct n as [|[|n]]; [ | | lia ].
  - cbn in Hc. subst. left; reflexivity.
  - cbn [chain] in Hc. destruct Hc as (s1 & H1 & _ & ->).
    destruct (matches_group _ _ _ _ Hg H1) as (w & _ & Hw). right. exists w. exact Hw.
Qed.

Lemma matches_seq a b s s' :
  matches (Seq a b) s s' -> exists s1, matches a s s1 /\ matches b s1 s'.
Proof. exact (fun H => H). Qed.

(** Take a sequence apart, one state per element. *)
Ltac split_seq H :=
  repeat match type of H with
         | matches (Seq _ _) _ _ =>
             let s := fresh "s" in
             let H1 := fresh "M" in
             apply matches_seq in H; destruct H as (s & H1 & H)
         end.

(** Rewrite the captures of a state down to those of the first state. *)
Ltac caps_chain :=
  repeat match goal with
         | |- context [caps ?x] =>
             match goal with H : caps x = _ |- _ => rewrite H end
         end.

Ltac caps_step :=
  match goal with
  | H : matches (Grp ?i (digits ?lo ?hi)) ?s ?s' |- _ =>
      let w := fresh "w" in
      let L := fresh "L" in
      let D := fresh "D" in
      let C := fresh "C" in
      destruct (matches_group_digits _ _ _ _ _ H) as (w & L & D & _ & C);
      clear H
  | H : matches (Grp ?i ?a) ?s ?s' |- _ =>
      let w := fresh "w" in
      let C := fresh "C" in
      destruct (matches_group i a s s' eq_refl H) as (w & _ & C); clear H
  | H : matches (opt (Grp ?i ?a)) ?s ?s' |- _ =>
      let w := fresh "w" in
      let C := fresh "C" in
      destruct (matches_opt_group i a s s' eq_refl H) as [C | (w & C)]; clear H
  | H : matches ?r ?s ?s' |- _ =>
      let C := fresh "C" in
      pose proof (matches_noGroups r s s' eq_refl H) as C; clear H
  end.

(** The two numbers of the phrase "15-17 Oct". *)
Lemma dayRange_captures s m :
  exec dayRangePattern s = Some m ->
  exists w1 w2 w3,
    m_caps m = [(3%nat, w3); (2%nat, w2); (1%nat, w1)] /\
    (1 <= List.length w1 <= 2)%nat /\ forallb isDigit w1 = true /\
    (1 <= List.length w2 <= 2)%nat /\ forallb isDigit w2 = true.
Proof.
  intros H. apply execFrom_sound in H. destruct H as (u & v & st & _ & H & ->).
  unfold dayRangePattern in H.
  cbn [List.nth DateParser.dateRangePatterns seqOf] in H.
  split_seq H. repeat caps_step. cbn [caps] in *. caps_chain.
  eexists _, _, _. split; [ reflexivity | auto ].
Qed.

(** The third group of "12/1-12/3" and of "Dec 1-3" is a number. *)
Lemma otherRange_captures s m p :
  p = List.nth 1 DateParser.dateRangePatterns Eps \/
  p = List.nth 2 DateParser.dateRangePatterns Eps ->
  exec p s = Some m ->
  exists w3, group m 3 = Some w3 /\
    (1 <= List.length w3)%nat /\ forallb isDigit w3 = true.
Proof.
  intros Hp H. apply execFrom_sound in H. destruct H as (u & v & st & _ & H & E).
  unfold group. rewrite E. clear E.
  destruct Hp as [-> | ->];
    cbn [List.nth DateParser.dateRangePatterns seqOf] in H;
    split_seq H; repeat caps_step; cbn [caps] in *.
  - caps_chain. cbn. eexists. split; [ reflexivity | ].
    split; [ lia | assumption ].
  - caps_chain. cbn. eexists. split; [ reflexivity | ].
    split; [ lia | assumption ].
Qed.

(** Where "15-17 Oct" is matched, the hour range "15-17" is matched too. *)
Lemma hourRange_of_dayRange s m :
  exec dayRangePattern s = Some m ->
  exec hourRangePattern s <> None.
Proof.
  intros H. apply execFrom_sound in H. destruct H as (u & v & st & -> & H & _).
  unfold dayRangePattern in H.
  cbn [List.nth DateParser.dateRangePatterns seqOf] in H. split_seq H.
  match goal with
  | M : matches (Grp 2 _) _ ?s5 |- _ => apply (execFrom_complete _ u [] v s5)
  end.
  unfold hourRangePattern.
  cbn [List.nth DateParser.timePatterns seqOf].
  do 5 (eexists; split; [ eassumption | ]).
  eexists. split.
  - exists 0%nat. cbn. auto.
  - exists 0%nat. cbn. split; [ lia | ]. split; [ lia | reflexivity ].
Qed.

Lemma hourRange_captures s m :
  exec hourRangePattern s = Some m ->
  truthy (group m 1) = true /\ truthy (group m 2) = true.
Proof.
  intros H. apply execFrom_sound in H. destruct H as (u & v & st & _ & H & E).
  unfold group. rewrite E. clear E.
  unfold hourRangePattern in H.
  cbn [List.nth DateParser.timePatterns seqOf] in H.
  split_seq H. repeat caps_step; cbn [caps] in *; caps_chain; cbn;
    split; apply truthy_of_length; lia.
Qed.

Lemma extractTimes_of_hourRange s m :
  exec hourRangePattern s = Some m ->
  fst (DateParser.extractTimes s) <> None.
Proof.
  intros H. destruct (hourRange_captures _ _ H) as (T1 & T2).
  unfold DateParser.extractTimes, DateParser.timePatterns.
  cbn [DateParser.firstMatch].
  unfold hourRangePattern in H.
  cbn [List.nth DateParser.timePatterns] in H. rewrite H, T1, T2.
  destruct (truthy (group m 3)); cbn; discriminate.
Qed.

(** The only way to an end date: the phrase "15-17 Oct". *)
Lemma extractDateRange_end today s pd e :
  DateParser.extractDateRange today s = (pd, Some e) ->
  exists m month w1 w2,
    exec dayRangePattern s = Some m /\
    group m 1 = Some w1 /\ group m 2 = Some w2 /\
    0 <= month <= 11 /\
    (1 <= List.length w1 <= 2)%nat /\ forallb isDigit w1 = true /\
    (1 <= List.length w2 <= 2)%nat /\ forallb isDigit w2 = true /\
    pd = Some (DateParser.isoText (getFullYear today)
                 (DateParser.pad2 (month + 1)) (DateParser.pad2 (parseInt w1))) /\
    e = DateParser.isoText (getFullYear today)
          (DateParser.pad2 (month + 1)) (DateParser.pad2 (parseInt w2)).
Proof.
  unfold DateParser.extractDateRange.
  destruct (DateParser.firstMatch DateParser.dateRangePatterns s) as [m|] eqn:Hm;
    [ | discriminate ].
  destruct (truthy (group m 3)) eqn:T3, (truthy (group m 1)) eqn:T1,
    (truthy (group m 2)) eqn:T2; cbn [andb]; try discriminate.
  destruct (DateParser.monthMap (toLowerCase (DateParser.sub m 3)))
    as [month|] eqn:Hmonth; [ | discriminate ].
  intros H. inversion H; subst; clear H.
  apply firstMatch_sound in Hm. destruct Hm as (p & Hp & He).
  destruct Hp as [<- | Hp].
  - destruct (dayRange_captures _ _ He) as (w1 & w2 & w3 & Hc & L1 & D1 & L2 & D2).
    exists m, month, w1, w2.
    split; [ exact He | ].
    split; [ unfold group; rewrite Hc; reflexivity | ].
    split; [ unfold group; rewrite Hc; reflexivity | ].
    split; [ eapply monthMap_range; eassumption | ].
    repeat (split; [ assumption | ]).
    unfold DateParser.sub, group. rewrite Hc. cbn. auto.
  - exfalso.
    destruct (otherRange_captures s m p) as (w3 & Hg & L3 & D3).
    { cbn in Hp. cbn. intuition. }
    { assumption. }
    unfold DateParser.sub in Hmonth. rewrite Hg in Hmonth.
    rewrite (monthMap_digits _ L3 D3) in Hmonth. discriminate.
Qed.

(** The only way to an end date, and the range written there. *)
Lemma extractDateRange_written today s pd e :
  DateParser.extractDateRange today s = (pd, Some e) ->
  exists mo d1 d2,
    writtenRange s = Some (mo, d1, mo, d2) /\
    0 <= d1 <= 99 /\ 0 <= d2 <= 99 /\
    pd = Some (DateParser.isoText (getFullYear today)
                 (DateParser.pad2 mo) (DateParser.pad2 d1)) /\
    e = DateParser.isoText (getFullYear today)
          (DateParser.pad2 mo) (DateParser.pad2 d2).
Proof.
  unfold DateParser.extractDateRange.
  destruct (DateParser.firstMatch DateParser.dateRangePatterns s) as [m|] eqn:Hm;
    [ | discriminate ].
  destruct (truthy (group m 3)) eqn:T3, (truthy (group m 1)) eqn:T1,
    (truthy (group m 2)) eqn:T2; cbn [andb]; try discriminate.
  destruct (DateParser.monthMap (toLowerCase (DateParser.sub m 3)))
    as [month|] eqn:Hmonth; [ | discriminate ].
  intros H. inversion H; subst; clear H.
  apply firstMatch_sound in Hm. destruct Hm as (p & Hp & He).
  destruct Hp as [<- | Hp].
  - destruct (dayRange_captures _ _ He) as (w1 & w2 & w3 & Hc & L1 & D1 & L2 & D2).
    exists (month + 1), (parseInt (DateParser.sub m 1)),
      (parseInt (DateParser.sub m 2)).
    split.
    + unfold writtenRange.
      change (firstRange 0 DateParser.dateRangePatterns s)
        with (match exec dayRangePattern s with
              | Some m => readRange 0 m
              | None => firstRange 1 (List.tl DateParser.dateRangePatterns) s
              end).
      change (exec dayRangePattern s = Some m) in He. rewrite He.
      cbn [readRange]. rewrite Hmonth. reflexivity.
    + unfold DateParser.sub, group. rewrite Hc.
      cbn [lookupCap Nat.eqb].
      split; [ apply parseInt_digits; [ assumption | lia ] | ].
      split; [ apply parseInt_digits; [ assumption | lia ] | ].
      split; reflexivity.
  - exfalso.
    destruct (otherRange_captures s m p) as (w3 & Hg & L3 & D3).
    { cbn in Hp. cbn. intuition. }
    { assumption. }
    unfold DateParser.sub in Hmonth. rewrite Hg in Hmonth.
    rewrite (monthMap_digits _ L3 D3) in Hmonth. discriminate.
Qed.

(** *** The dates of a line *)

Lemma daysUpFrom_nth d n i :
  (i < n)%nat -> List.nth i (daysUpFrom d n) 0 = d + Z.of_nat i.
Proof.
  intros Hi. unfold daysUpFrom.
  rewrite (nth_indep _ 0 (d + Z.of_nat 0))
    by (rewrite List.length_map, List.length_seq; assumption).
  rewrite (map_nth (fun i => d + Z.of_nat i) (List.seq 0 n) 0%nat i).
  rewrite seq_nth by assumption. reflexivity.
Qed.

Lemma daysUpFrom_length d n : List.length (daysUpFrom d n) = n.
Proof.
  unfold daysUpFrom. rewrite List.length_map, List.length_seq. reflexivity.
Qed.

Lemma eachDayOfInterval_ends a b :
  (1 < List.length (eachDayOfInterval a b))%nat ->
  exists s e, a = Some s /\ b = Some e /\ s <> e /\
    List.nth 0 (eachDayOfInterval a b) 0 = s /\
    List.nth (List.length (eachDayOfInterval a b) - 1)
             (eachDayOfInterval a b) 0 = e.
Proof.
  unfold eachDayOfInterval.
  destruct a as [s|], b as [e|]; cbn [List.length]; try lia.
  intros Hlen. exists s, e. split; [ reflexivity | ]. split; [ reflexivity | ].
  destruct (Z.gtb_spec s e) as [Hgt | Hle].
  - rewrite length_rev, daysUpFrom_length in *.
    split; [ lia | ]. split.
    + rewrite rev_nth by (rewrite daysUpFrom_length; lia).
      rewrite daysUpFrom_length, daysUpFrom_nth by lia. lia.
    + rewrite rev_nth by (rewrite daysUpFrom_length; lia).
      rewrite daysUpFrom_length, daysUpFrom_nth by lia. lia.
  - rewrite daysUpFrom_length in *.
    split; [ lia | ]. split.
    + rewrite daysUpFrom_nth by lia. lia.
    + rewrite daysUpFrom_nth by lia. lia.
Qed.

Lemma lineDates_shape chrono weekOf datePart :
  match BulkParser.lineDates chrono weekOf datePart with
  | Some dates =>
      (exists a b, dates = eachDayOfInterval a b) \/ (List.length dates <= 1)%nat
  | None => True
  end.
Proof.
  unfold BulkParser.lineDates, BulkParser.expandRange1, BulkParser.expandRange2.
  repeat match goal with
         | |- context [if ?b then _ else _] => destruct b
         | |- context [match exec ?r ?s with _ => _ end] => destruct (exec r s)
         | |- context [match chrono ?s with _ => _ end] =>
             destruct (chrono s) as [|[d|]]
         end;
    first [ exact I | left; eexists _, _; reflexivity | right; cbn; lia ].
Qed.

(** The two exits of [parseLineToEvents]. *)
Lemma parseLineToEvents_cases chrono line ev :
  In ev (BulkParser.parseLineToEvents chrono line) ->
  (BulkParser.startDate ev = None /\ BulkParser.endDate ev = None) \/
  (exists s e : Date,
      (exists weekOf datePart,
          BulkParser.lineDates chrono weekOf datePart =
            Some (eachDayOfInterval (Some s) (Some e))) /\
      s <> e /\
      BulkParser.date ev = formatISO s /\
      BulkParser.startDate ev = Some (formatISO s) /\
      BulkParser.endDate ev = Some (formatISO e)).
Proof.
  unfold BulkParser.parseLineToEvents.
  destruct (trim line) as [|c raw]; [ intros [] | ].
  match goal with
  | |- context [let '(_, _) := ?p in _] => destruct p as [titlePart datePart]
  end.
  destruct (BulkParser.lineDates chrono _ datePart) as [dates|] eqn:Hd;
    [ | intros [] ].
  destruct (Nat.ltb_spec 1 (List.length dates)) as [Hlen | Hlen].
  - intros [<- | []]. right. cbn.
    match type of Hd with
    | BulkParser.lineDates _ ?w _ = _ =>
        pose proof (lineDates_shape chrono w datePart) as Hs
    end.
    rewrite Hd in Hs. destruct Hs as [(a & b & ->) | Hs]; [ | lia ].
    destruct (eachDayOfInterval_ends a b Hlen) as (s & e & -> & -> & Hne & H0 & H1).
    exists s, e. rewrite H0, H1. split; [ eauto | auto ].
  - intros H. apply in_map_iff in H. destruct H as (d & <- & _). left. cbn. auto.
Qed.

Lemma parseInt_digits4 w :
  forallb isDigit w = true -> (List.length w <= 4)%nat -> 0 <= parseInt w <= 9999.
Proof.
  unfold parseInt, isDigit, between.
  destruct w as [|a [|b [|c [|d [|e w]]]]]; cbn; intros H L; try lia;
    rewrite ?andb_true_r, ?andb_true_iff, ?N.leb_le in H; lia.
Qed.

(** The text matched by /^\d{1,4}/ is a number up to 9999. *)
Lemma numericFourDigits_range s year rest :
  parseNumericPattern numericFourDigits s = Some (year, rest) ->
  0 <= year <= 9999.
Proof.
  unfold parseNumericPattern.
  destruct (exec numericFourDigits s) as [m|] eqn:E; [ | discriminate ].
  intros H. inversion H; subst; clear H.
  apply execFrom_text in E.
  destruct E as (u & v & st & w & _ & Hm & Hw & _ & Ht & _).
  rewrite Ht. unfold numericFourDigits in Hm. cbn [matches digits] in Hm.
  destruct Hm as (s1 & (_ & ->) & n & _ & Hn & Hc).
  destruct (chain_class _ _ _ _ Hc) as (w' & Hl & Hd & Hw').
  rewrite <- (extends_consumed _ _ _ Hw), (extends_consumed _ _ _ Hw').
  apply parseInt_digits4; [ assumption | lia ].
Qed.

Lemma findPattern_range ps matched : forall i j,
  findPattern ps matched i = Some j ->
  i <= j < i + Z.of_nat (List.length ps).
Proof.
  induction ps as [|p ps IH]; intros i j; cbn [findPattern List.length];
    [ discriminate | ].
  destruct (test _ matched).
  - intros H; inversion H; lia.
  - intros H. apply IH in H. lia.
Qed.

Lemma parseMonthToken_range s month rest :
  parseMonthToken s = Some (month, rest) -> 0 <= month <= 11.
Proof.
  unfold parseMonthToken.
  assert (F : forall ps m,
             List.length ps = 12%nat ->
             match findPattern ps (m_text m) 0 with
             | Some i => Some (i, sliceFrom s (List.length (m_text m)))
             | None => None
             end = Some (month, rest) -> 0 <= month <= 11).
  { intros ps m Hl. destruct (findPattern ps (m_text m) 0) as [i|] eqn:E;
      [ | discriminate ].
    intros H; inversion H; subst. apply findPattern_range in E. lia. }
  destruct (exec matchMonthWide s) as [m|]; [ apply F; reflexivity | ].
  destruct (exec matchMonthAbbreviated s) as [m|]; [ apply F; reflexivity | ].
  destruct (exec matchMonthNarrow s) as [m|]; [ apply F; reflexivity | ].
  discriminate.
Qed.

(** The year of a date read by date-fns is the year written, from 1 to
    9999. *)
Lemma parseExact_year s d : parseExact s = Some d -> 1 <= getFullYear d <= 9999.
Proof.
  unfold parseExact.
  destruct (parseMonthToken s) as [[month s1]|] eqn:Em; [ | discriminate ].
  destruct (cutLiteral " " s1) as [s2|]; [ | discriminate ].
  destruct (parseNumericPattern numericDate s2) as [[day s3]|]; [ | discriminate ].
  destruct (cutLiteral "," s3) as [s4|]; [ | discriminate ].
  destruct (cutLiteral " " s4) as [s5|]; [ | discriminate ].
  destruct (parseNumericPattern numericFourDigits s5) as [[year s6]|] eqn:Ey;
    [ | discriminate ].
  destruct (negb (forallb isSpace s6)); [ discriminate | ].
  destruct (Z.gtb_spec year 0) as [Hy | Hy]; cbn [negb]; [ | discriminate ].
  destruct (Z.leb_spec 1 day) as [Hd1 | Hd1]; cbn [andb negb]; [ | discriminate ].
  destruct (Z.leb_spec day (daysInMonth year month)) as [Hd2 | Hd2];
    cbn [negb]; [ | discriminate ].
  intros H. inversion H; subst; clear H.
  apply parseMonthToken_range in Em. apply numericFourDigits_range in Ey.
  destruct (getters_mkDate year month day Em ltac:(lia)) as (-> & _). lia.
Qed.

(** Where the days of a line with more than one day come from. *)
Lemma lineDates_ranges chrono weekOf datePart dates :
  BulkParser.lineDates chrono weekOf datePart = Some dates ->
  (1 < List.length dates)%nat ->
  exists start end_,
    dates = eachDayOfInterval (Some start) (Some end_) /\
    start <> end_ /\
    List.nth 0 dates 0 = start /\
    List.nth (List.length dates - 1) dates 0 = end_ /\
    (writtenDays datePart start end_ \/
     (noRange datePart /\ weekOf = true /\
      (writtenDays (replace BulkParser.weekOfRegex [] datePart) start end_ \/
       (noRange (replace BulkParser.weekOfRegex [] datePart) /\
        chrono (replace BulkParser.weekOfRegex [] datePart) =
          BulkParser.Returned (Some start) /\
        end_ = addDays start 4)))).
Proof.
  assert (Ends : forall a b,
             Some (eachDayOfInterval a b) = Some dates ->
             (1 < List.length dates)%nat ->
             exists start end_,
               a = Some start /\ b = Some end_ /\
               dates = eachDayOfInterval (Some start) (Some end_) /\
               start <> end_ /\
               List.nth 0 dates 0 = start /\
               List.nth (List.length dates - 1) dates 0 = end_).
  { intros a b E Hlen. inversion E; subst; clear E.
    destruct (eachDayOfInterval_ends a b Hlen) as (s & e & -> & -> & Hne & H0 & H1).
    exists s, e. auto 10. }
  unfold BulkParser.lineDates, test.
  unfold BulkParser.expandRange1, BulkParser.expandRange2. cbv zeta.
  set (after := replace BulkParser.weekOfRegex [] datePart).
  destruct (exec BulkParser.range1 datePart) as [r|] eqn:E1.
  { intros E Hlen.
    destruct (Ends _ _ E Hlen) as (s & e & Hs & He & -> & Hne & H0 & H1).
    exists s, e. repeat (split; [ assumption || reflexivity | ]).
    left. left. exists r. auto. }
  destruct (exec BulkParser.range2 datePart) as [r|] eqn:E2.
  { intros E Hlen.
    destruct (Ends _ _ E Hlen) as (s & e & Hs & He & -> & Hne & H0 & H1).
    exists s, e. repeat (split; [ assumption || reflexivity | ]).
    left. right. split; [ assumption | ]. exists r. auto. }
  destruct weekOf.
  - destruct (exec BulkParser.range1 after) as [r|] eqn:E3.
    { intros E Hlen.
      destruct (Ends _ _ E Hlen) as (s & e & Hs & He & -> & Hne & H0 & H1).
      exists s, e. repeat (split; [ assumption || reflexivity | ]).
      right. split; [ split; assumption | ]. split; [ reflexivity | ].
      left. left. exists r. auto. }
    destruct (exec BulkParser.range2 after) as [r|] eqn:E4.
    { intros E Hlen.
      destruct (Ends _ _ E Hlen) as (s & e & Hs & He & -> & Hne & H0 & H1).
      exists s, e. repeat (split; [ assumption || reflexivity | ]).
      right. split; [ split; assumption | ]. split; [ reflexivity | ].
      left. right. split; [ assumption | ]. exists r. auto. }
    destruct (chrono after) as [|[d|]] eqn:Ec.
    + discriminate.
    + intros E Hlen.
      destruct (Ends _ _ E Hlen) as (s & e & Hs & He & -> & Hne & H0 & H1).
      inversion Hs; subst. inversion He; subst.
      exists s, (addDays s 4). repeat (split; [ assumption || reflexivity | ]).
      right. split; [ split; assumption | ]. split; [ reflexivity | ].
      right. split; [ split; assumption | ]. split; reflexivity.
    + intros E Hlen. inversion E; subst. cbn in Hlen. lia.
  - destruct (chrono datePart) as [|[d|]]; intros E Hlen;
      inversion E; subst; cbn in Hlen; lia.
Qed.

(** The drafts of a line: one draft for a range of days, else one draft
    for each day. *)
Lemma parseLineToEvents_dates chrono line ev :
  In ev (BulkParser.parseLineToEvents chrono line) ->
  exists dates,
    BulkParser.lineDates chrono (weekOfOf line) (datePartOf line) = Some dates /\
    ((1 < List.length dates)%nat /\
     BulkParser.date ev = formatISO (List.nth 0 dates 0) /\
     BulkParser.startDate ev = Some (formatISO (List.nth 0 dates 0)) /\
     BulkParser.endDate ev =
       Some (formatISO (List.nth (List.length dates - 1) dates 0))
     \/
     (List.length dates <= 1)%nat /\
     BulkParser.startDate ev = None /\ BulkParser.endDate ev = None /\
     exists d, In d dates /\ BulkParser.date ev = formatISO d).
Proof.
  unfold BulkParser.parseLineToEvents, weekOfOf, datePartOf, normalizedOf.
  cbv zeta.
  destruct (trim line) as [|c raw]; [ intros [] | ].
  set (s := trim (replaceAll BulkParser.parens [] _)).
  assert (Exit : forall titlePart datePart,
    In ev
      match BulkParser.lineDates chrono (test BulkParser.weekOfRegex s) datePart with
      | Some dates =>
          if (1 <? List.length dates)%nat
          then
            [BulkParser.mkBulkEvent
               (BulkParser.guessType
                  (orElse (BulkParser.cleanTitle titlePart) (lit "Event")))
               (orElse (BulkParser.cleanTitle titlePart) (lit "Event"))
               (formatISO (List.nth 0 dates 0))
               (Some (formatISO (List.nth 0 dates 0)))
               (Some (formatISO (List.nth (List.length dates - 1) dates 0)))]
          else
            List.map
              (fun d =>
                 BulkParser.mkBulkEvent
                   (BulkParser.guessType
                      (orElse (BulkParser.cleanTitle titlePart) (lit "Event")))
                   (orElse (BulkParser.cleanTitle titlePart) (lit "Event"))
                   (formatISO d) None None) dates
      | None => []
      end ->
    exists dates,
      BulkParser.lineDates chrono (test BulkParser.weekOfRegex s) datePart =
        Some dates /\
      ((1 < List.length dates)%nat /\
       BulkParser.date ev = formatISO (List.nth 0 dates 0) /\
       BulkParser.startDate ev = Some (formatISO (List.nth 0 dates 0)) /\
       BulkParser.endDate ev =
         Some (formatISO (List.nth (List.length dates - 1) dates 0))
       \/
       (List.length dates <= 1)%nat /\
       BulkParser.startDate ev = None /\ BulkParser.endDate ev = None /\
       exists d, In d dates /\ BulkParser.date ev = formatISO d)).
  { intros titlePart datePart.
    destruct (BulkParser.lineDates chrono _ datePart) as [dates|];
      [ | intros [] ].
    exists dates. split; [ reflexivity | ].
    destruct (Nat.ltb_spec 1 (List.length dates)) as [Hlen | Hlen].
    - destruct H as [<- | []]. left. cbn. auto.
    - apply in_map_iff in H. destruct H as (d & <- & Hd). right. cbn.
      split; [ assumption | ]. split; [ reflexivity | ]. split; [ reflexivity | ].
      exists d. auto. }
  destruct (exec BulkParser.monthRegex s) as [m|];
    [ destruct (indexOf (toLowerCase (m_text m)) (toLowerCase s)) as [idx|] | ];
    apply Exit.
Qed.

(** *** The drafts of the two parsers *)

Lemma extractDates_end today s pd e :
  DateParser.extractDates today s = (pd, Some e) ->
  DateParser.extractDateRange today s = (pd, Some e).
Proof.
  unfold DateParser.extractDates.
  destruct (DateParser.extractDateRange today s) as [pd' ped] eqn:E.
  destruct (negb (truthy pd')) eqn:T; intros H; inversion H; subst; [ | reflexivity ].
  exfalso.
  destruct (extractDateRange_end _ _ _ _ E)
    as (m & month & w1 & w2 & _ & _ & _ & _ & _ & _ & _ & _ & -> & _).
  rewrite (truthy_nonempty _ (isoText_nonempty _ _ _)) in T. discriminate.
Qed.

Lemma pad2_addLeadingZeros n :
  0 <= n -> DateParser.pad2 n = addLeadingZeros n 2.
Proof.
  intros H. unfold DateParser.pad2, addLeadingZeros.
  destruct (Z.ltb_spec n 0); [ lia | ]. rewrite Z.abs_eq by assumption. reflexivity.
Qed.

Lemma pad2_order d1 d2 :
  0 <= d1 <= 99 -> 0 <= d2 <= 99 ->
  (str_leb (DateParser.pad2 d1) (DateParser.pad2 d2) = true <-> d1 <= d2).
Proof.
  intros H1 H2. rewrite !pad2_addLeadingZeros by lia. split.
  - intros Hle. destruct (Z_le_gt_dec d1 d2) as [|Hgt]; [ assumption | ].
    destruct (padded_increasing 2 99 0 padded2_checked d2 d1) as (_ & _ & H); try lia.
    unfold str_ltb in H. rewrite Hle in H. discriminate.
  - intros Hle. destruct (Z.eq_dec d1 d2) as [-> | Hne]; [ apply str_leb_refl | ].
    apply str_ltb_leb.
    apply (padded_increasing 2 99 0 padded2_checked d1 d2); lia.
Qed.

(** A draft of [parseNaturalLanguage] with an end date has a start time:
    where "15-17 Oct" is read as a range of days, the first time pattern
    reads "15-17" as hours. *)
Lemma parseNaturalLanguage_range_has_time today input r :
  DateParser.parseNaturalLanguage today input = Some r ->
  DateParser.endDate r <> None -> DateParser.startTime r <> None.
Proof.
  intros Hr Hend.
  pose proof (parseNaturalLanguage_cases today input) as H.
  cbv zeta in H. rewrite Hr in H.
  destruct H as (_ & _ & _ & _ & He & Ht & _).
  destruct (DateParser.endDate r) as [e|] eqn:Ee; [ | contradiction ].
  destruct (DateParser.extractDates today (cleanInputOf input)) as [pd ped] eqn:Ed.
  cbn in He. subst ped. apply extractDates_end in Ed.
  destruct (extractDateRange_end _ _ _ _ Ed) as (m & _ & _ & _ & Hm & _).
  pose proof (hourRange_of_dayRange _ _ Hm) as Hh.
  destruct (exec hourRangePattern (cleanInputOf input))
    as [m'|] eqn:Em'; [ | contradiction ].
  pose proof (extractTimes_of_hourRange _ _ Em') as Hst.
  rewrite <- Ht in Hst. exact Hst.
Qed.

Lemma parseNaturalLanguage_range_has_time_witness :
  DateParser.startTime
    (DateParser.mkParsedEvent (lit "Offsiteoct") (lit "2025-10-15")
       (Some (lit "2025-10-17")) (Some (lit "15:00")) None None) <> None.
Proof.
  apply (parseNaturalLanguage_range_has_time day0 (lit "Offsite 15-17 oct"));
    [ vm_compute; reflexivity | discriminate ].
Defined.

(** C1, amended: a draft of [parseLineToEvents] is a single-day draft (no
    startDate, no endDate) or a multi-day draft (startDate and endDate set,
    date equal to startDate), and has no times.  A draft of
    [parseNaturalLanguage] has a date and no startDate, whatever its endDate
    and its times: it has one of the two shapes exactly when its endDate is
    unset. *)
Theorem drafts_shapes :
  (forall chrono_parseDate line ev,
      In ev (BulkParser.parseLineToEvents chrono_parseDate line) ->
      oneShape (ofBulk ev) /\
      (d_startDate (ofBulk ev) = None \/
       d_startDate (ofBulk ev) = Some (d_date (ofBulk ev)))) /\
  (forall today input r,
      DateParser.parseNaturalLanguage today input = Some r ->
      d_date (ofParsed r) <> [] /\
      d_startDate (ofParsed r) = None /\
      (oneShape (ofParsed r) <-> d_endDate (ofParsed r) = None)).
Proof.
  split.
  - intros chrono line ev Hin.
    destruct (parseLineToEvents_cases _ _ _ Hin)
      as [[Hs He] | (s & e & _ & _ & Hd & Hs & He)].
    + split; [ left; split; assumption | left; assumption ].
    + split.
      * right. unfold multiDay, ofBulk. cbn. rewrite Hs, He.
        repeat split; discriminate.
      * right. cbn. rewrite Hs, Hd. reflexivity.
  - intros today input r Hr.
    pose proof (parseNaturalLanguage_cases today input) as H.
    cbv zeta in H. rewrite Hr in H. destruct H as (_ & _ & _ & Hd & _).
    split; [ exact Hd | ]. split; [ reflexivity | ].
    unfold oneShape, singleDay, multiDay, ofParsed. cbn. split.
    + intros [[_ H] | [H _]]; [ assumption | contradiction ].
    + intros H. left. auto.
Qed.

(** C2, amended: neither parser compares the two ends of a range; each
    writes them in the order of the text.  In a draft of
    [parseNaturalLanguage] with an end date, date and endDate are the texts
    YEAR-MM-DD of the current year with the month and the day of the start
    and of the end of the range written in the input: endDate >= date
    exactly when the end is not written before the start.  In a draft of
    [parseLineToEvents] with an end date, date (which is startDate) and
    endDate are the ISO dates of two different days: the days date-fns
    reads from the start and from the end of the range written in the line,
    and then endDate >= date exactly when that start is not after that end;
    or, for a "week of" line without a written range, the day chrono reads
    and the fourth day after it, and then endDate >= date when the years of
    both have four digits. *)
Theorem ranges_follow_the_text :
  (forall today input r e,
      DateParser.parseNaturalLanguage today input = Some r ->
      DateParser.endDate r = Some e ->
      exists mo1 d1 mo2 d2,
        writtenRange (cleanInputOf input) = Some (mo1, d1, mo2, d2) /\
        DateParser.date r =
          DateParser.isoText (getFullYear today) (DateParser.pad2 mo1)
            (DateParser.pad2 d1) /\
        e = DateParser.isoText (getFullYear today) (DateParser.pad2 mo2)
              (DateParser.pad2 d2) /\
        (str_leb (DateParser.date r) e = true <-> monthDayLe mo1 d1 mo2 d2)) /\
  (forall chrono_parseDate line ev x,
      In ev (BulkParser.parseLineToEvents chrono_parseDate line) ->
      BulkParser.endDate ev = Some x ->
      exists start end_ : Date,
        start <> end_ /\
        BulkParser.date ev = formatISO start /\
        BulkParser.startDate ev = Some (formatISO start) /\
        x = formatISO end_ /\
        ((writtenInLine line start end_ /\
          (str_leb (BulkParser.date ev) x = true <-> start <= end_)) \/
         (weekOfLine chrono_parseDate line start end_ /\
          (0 <= getFullYear start -> getFullYear end_ <= 9999 ->
           str_leb (BulkParser.date ev) x = true)))).
Proof.
  split.
  - intros today input r e Hr Hend.
    pose proof (parseNaturalLanguage_cases today input) as H.
    cbv zeta in H. rewrite Hr in H.
    destruct H as (_ & _ & Hd & _ & He & _).
    unfold parsedDateOf in Hd.
    destruct (DateParser.extractDates today (cleanInputOf input)) as [pd ped] eqn:Ed.
    cbn in He, Hd. subst ped pd. rewrite Hend in Ed. apply extractDates_end in Ed.
    destruct (extractDateRange_written _ _ _ _ Ed)
      as (mo & d1 & d2 & Hw & B1 & B2 & Hpd & ->).
    injection Hpd as Hpd.
    exists mo, d1, mo, d2.
    split; [ assumption | ]. split; [ assumption | ]. split; [ reflexivity | ].
    rewrite Hpd. unfold DateParser.isoText, monthDayLe.
    rewrite !str_leb_app_same, pad2_order by assumption. lia.
  - intros chrono line ev x Hin Hend.
    destruct (parseLineToEvents_dates _ _ _ Hin)
      as (dates & Hl & [(Hlen & Hd & Hs & He) | (_ & _ & He & _)]);
      [ | congruence ].
    destruct (lineDates_ranges _ _ _ _ Hl Hlen)
      as (s & e & _ & Hne & H0 & H1 & Hfrom).
    rewrite H0 in Hd, Hs. rewrite H1 in He.
    rewrite He in Hend. injection Hend as <-.
    exists s, e. repeat (split; [ assumption || reflexivity | ]).
    rewrite Hd.
    assert (Years : writtenDays (datePartOf line) s e \/
                    writtenDays (afterWeekOf line) s e ->
                    1 <= getFullYear s <= 9999 /\ 1 <= getFullYear e <= 9999).
    { intros [W | W];
        destruct W as [(r & _ & Ps & Pe) | (_ & r & _ & Ps & Pe)];
        split; eapply parseExact_year; eassumption. }
    destruct Hfrom as [W | (Hno & Hw & [W | (Hno' & Hc & ->)])].
    + left. split; [ left; assumption | ].
      apply formatISO_order; destruct Years as [? ?]; auto; lia.
    + left. split; [ right; auto | ].
      apply formatISO_order; destruct Years as [? ?]; auto; lia.
    + right. split; [ repeat split; try assumption; apply Hno || apply Hno' | ].
      intros Y1 Y2. unfold addDays in *.
      pose proof (getFullYear_monotone s (s + 4) ltac:(lia)).
      apply formatISO_order; lia.
Qed.

Lemma drafts_shapes_witness :
  oneShape (ofBulk (BulkParser.mkBulkEvent MEETING
                      (lit "Product Mngt Leader Review") (lit "2025-07-09")
                      (Some (lit "2025-07-09")) (Some (lit "2025-07-10")))) /\
  exists r,
    DateParser.parseNaturalLanguage day0 (lit "Standup today 9am") = Some r /\
    oneShape (ofParsed r).
Proof.
  split.
  - apply (proj1 drafts_shapes (fun _ => BulkParser.Returned None)
             (lit "Product Mngt Leader Review July 9-10, 2025 (Wed-Thu)")).
    vm_compute. left. reflexivity.
  - eexists. split; [ vm_compute; reflexivity | ].
    apply (proj2 drafts_shapes day0 (lit "Standup today 9am")).
    + vm_compute; reflexivity.
    + reflexivity.
Defined.

Lemma ranges_follow_the_text_witness :
  (DateParser.parseNaturalLanguage day0 (lit "Offsite 15-17 oct") =
     Some (DateParser.mkParsedEvent (lit "Offsiteoct") (lit "2025-10-15")
             (Some (lit "2025-10-17")) (Some (lit "15:00")) None None) /\
   str_leb (lit "2025-10-15") (lit "2025-10-17") = true) /\
  (In (BulkParser.mkBulkEvent PLANNING (lit "Offsite") (lit "2025-07-09")
         (Some (lit "2025-07-09")) (Some (lit "2025-07-10")))
      (BulkParser.parseLineToEvents (fun _ => BulkParser.Returned None)
         (lit "Offsite July 9-10, 2025")) /\
   str_leb (lit "2025-07-09") (lit "2025-07-10") = true).
Proof.
  split.
  - set (r := DateParser.mkParsedEvent (lit "Offsiteoct") (lit "2025-10-15")
                (Some (lit "2025-10-17")) (Some (lit "15:00")) None None).
    assert (P : DateParser.parseNaturalLanguage day0 (lit "Offsite 15-17 oct") =
                Some r) by (vm_compute; reflexivity).
    assert (E : DateParser.endDate r = Some (lit "2025-10-17")) by reflexivity.
    split; [ exact P | ].
    destruct (proj1 ranges_follow_the_text day0 (lit "Offsite 15-17 oct") r
                (lit "2025-10-17") P E)
      as (mo1 & d1 & mo2 & d2 & W & _ & _ & Hle).
    apply Hle. vm_compute in W. injection W as <- <- <- <-.
    right. split; [ reflexivity | discriminate ].
  - set (ev := BulkParser.mkBulkEvent PLANNING (lit "Offsite") (lit "2025-07-09")
                 (Some (lit "2025-07-09")) (Some (lit "2025-07-10"))).
    assert (P : In ev (BulkParser.parseLineToEvents
                         (fun _ => BulkParser.Returned None)
                         (lit "Offsite July 9-10, 2025")))
      by (vm_compute; left; reflexivity).
    assert (E : BulkParser.endDate ev = Some (lit "2025-07-10")) by reflexivity.
    split; [ exact P | ].
    destruct (proj2 ranges_follow_the_text (fun _ => BulkParser.Returned None)
                (lit "Offsite July 9-10, 2025") ev (lit "2025-07-10") P E)
      as (s & e & _ & _ & _ & _ & [(W & Hle) | (W & _)]).
    + apply Hle.
      destruct W as [W | (_ & W & _)]; [ | vm_compute in W; discriminate W ].
      destruct W as [(r & Hr & Ps & Pe) | (Hr & _)];
        [ | vm_compute in Hr; discriminate Hr ].
      vm_compute in Hr. injection Hr as <-.
      vm_compute in Ps, Pe. injection Ps as <-. injection Pe as <-.
      discriminate.
    + destruct W as (_ & W & _). vm_compute in W. discriminate W.
Defined.

(** *** The date of tomorrow *)

Lemma fourDigits_checked : allFrom 9000 1000 fourDigitsOk = true.
Proof. vm_compute. reflexivity. Qed.

Lemma twoDigits_checked : allFrom 100 0 twoDigitsOk = true.
Proof. vm_compute. reflexivity. Qed.

(** [formatDateSafe] writes the ISO text of the local date of a day of the
    years 1000 to 9999. *)
Lemma formatDateSafe_iso d :
  fourDigitYear (localDate d) ->
  DateParser.formatDateSafe d = isoDateText (localDate d).
Proof.
  unfold fourDigitYear, localDate. cbn [fst snd]. intros Hy.
  pose proof (getDate_daysInMonth d) as (Hm & Hd).
  pose proof (daysInMonth_pos (getFullYear d) (getMonth d) Hm) as Hl.
  unfold DateParser.formatDateSafe, isoDateText. cbv zeta.
  pose proof (allFrom_spec _ _ _ fourDigits_checked (getFullYear d) ltac:(lia)) as Y.
  pose proof (allFrom_spec _ _ _ twoDigits_checked (getMonth d + 1) ltac:(lia)) as M.
  pose proof (allFrom_spec _ _ _ twoDigits_checked (getDate d) ltac:(lia)) as D.
  apply str_eqb_eq in Y, M, D. rewrite Y, M, D. reflexivity.
Qed.

(** C6: "Team Meeting tomorrow 2-4pm" is parsed, whatever the current
    date, to a draft of type MEETING titled "Team Meeting", from 14:00 to
    16:00 and without end date, whose date is the text printed for the
    day after the current local day; when the year of that day has four
    digits (1000 to 9999), this text is the ISO date YYYY-MM-DD of the
    calendar date that follows the current local date. *)
Theorem parseNaturalLanguage_team_meeting (today : Date) :
  exists date,
    DateParser.parseNaturalLanguage today (lit "Team Meeting tomorrow 2-4pm") =
      Some (DateParser.mkParsedEvent (lit "Team Meeting") date None
              (Some (lit "14:00")) (Some (lit "16:00")) (Some MEETING)) /\
    (fourDigitYear (nextDay (localDate today)) ->
     date = isoDateText (nextDay (localDate today))).
Proof.
  exists (DateParser.formatDateSafe (addDays today 1)). split.
  - set (input := lit "Team Meeting tomorrow 2-4pm").
    assert (Hr : DateParser.firstMatch DateParser.dateRangePatterns
                   (cleanInputOf input) = None)
      by (vm_compute; reflexivity).
    assert (Hs : DateParser.extractSingleDate today (cleanInputOf input) =
                 Some (DateParser.formatDateSafe (addDays today 1))).
    { unfold DateParser.extractSingleDate.
      destruct (DateParser.firstMatch DateParser.datePatterns (cleanInputOf input))
        as [m|] eqn:Em; vm_compute in Em; [ | discriminate ].
      injection Em as <-. eval_tests. reflexivity. }
    assert (Hd : DateParser.extractDates today (cleanInputOf input) =
                 (Some (DateParser.formatDateSafe (addDays today 1)), None)).
    { unfold DateParser.extractDates, DateParser.extractDateRange.
      rewrite Hr. cbn [truthy negb]. rewrite Hs. reflexivity. }
    rewrite (parseNaturalLanguage_some today input _ _
               (Some (lit "14:00")) (Some (lit "16:00")) (lit "Team Meeting") Hd).
    + f_equal.
    + vm_compute; reflexivity.
    + unfold DateParser.extractTitle.
      rewrite (truthy_nonempty _ (formatDateSafe_nonempty _)).
      vm_compute; reflexivity.
    + discriminate.
  - intros Hy. unfold addDays. rewrite <- localDate_succ in *.
    apply formatDateSafe_iso. assumption.
Qed.

Lemma parseNaturalLanguage_team_meeting_witness :
  fourDigitYear (nextDay (localDate day0)) /\
  DateParser.parseNaturalLanguage day0 (lit "Team Meeting tomorrow 2-4pm") =
    Some (DateParser.mkParsedEvent (lit "Team Meeting") (lit "2025-01-16") None
            (Some (lit "14:00")) (Some (lit "16:00")) (Some MEETING)).
Proof.
  assert (H : fourDigitYear (nextDay (localDate day0)))
    by (vm_compute; split; discriminate).
  split; [ exact H | ].
  destruct (parseNaturalLanguage_team_meeting day0) as (date & E & D).
  rewrite E, (D H). reflexivity.
Defined.

(** *** Numbers printed and read back *)

Lemma printed4_checked : allFrom 10000 0 (printedOk 4) = true.
Proof. vm_compute. reflexivity. Qed.

Lemma printed2_checked : allFrom 100 0 (printedOk 2) = true.
Proof. vm_compute. reflexivity. Qed.

Lemma printed_spec w p n :
  allFrom p 0 (printedOk w) = true -> 0 <= n < Zpos p ->
  List.length (addLeadingZeros n w) = w /\
  List.forallb isDigit (addLeadingZeros n w) = true /\
  parseInt (addLeadingZeros n w) = n.
Proof.
  intros Hc Hn. pose proof (allFrom_spec _ _ _ Hc n ltac:(lia)) as H.
  unfold printedOk in H. cbv zeta in H.
  apply andb_prop in H. destruct H as [H H3].
  apply andb_prop in H. destruct H as [H1 H2].
  apply Nat.eqb_eq in H1. apply Z.eqb_eq in H3. auto.
Qed.

(** *** Running a pattern along a known text *)

Lemma orTry_none {A} (x : option A) : orTry x None = x.
Proof. destruct x; reflexivity. Qed.

Lemma iterate_class_exact p lo k : forall w n t pre c,
  List.forallb p w = true -> lo = (n + List.length w)%nat ->
  iterate (run (Cls p)) lo k (List.length w) n (MState pre (w ++ t) c) =
  k (MState (List.rev w ++ pre) t c).
Proof.
  remember (run (Cls p)) as body eqn:Hb.
  assert (Hstep : forall k' s,
             body k' s = match advance s with
                         | Some (c, s') => if p c then k' s' else None
                         | None => None
                         end) by (subst body; reflexivity).
  clear Hb.
  induction w as [|x w IH]; intros n t pre c Hw Hlo; cbn [List.length iterate].
  - cbn in Hlo. subst lo. rewrite Nat.add_0_r, Nat.leb_refl. reflexivity.
  - cbn [List.forallb] in Hw. apply andb_prop in Hw. destruct Hw as [Hx Hw].
    rewrite Hstep. cbn [app advance after before caps]. rewrite Hx.
    unfold progressed. cbn [before List.length].
    replace (Nat.eqb (List.length pre) (S (List.length pre))) with false
      by (symmetry; apply Nat.eqb_neq; lia).
    cbn [negb]. rewrite (IH (S n) t (x :: pre) c Hw) by (cbn in Hlo; lia).
    destruct (Nat.leb_spec lo n) as [Hle | Hgt]; [ cbn in Hlo; lia | ].
    rewrite orTry_none. cbn [List.rev]. rewrite <- app_assoc. reflexivity.
Qed.

(** A group of exactly [n] digits in front of [n] digits. *)
Lemma run_group_digits i n k w t pre c :
  List.forallb isDigit w = true -> List.length w = n ->
  run (Grp i (digits n n)) k (MState pre (w ++ t) c) =
  k (MState (List.rev w ++ pre) t ((i, w) :: c)).
Proof.
  intros Hw Hn. unfold digits, digit. cbn [run]. subst n.
  rewrite (iterate_class_exact isDigit _ _ w 0%nat t pre c Hw) by reflexivity.
  unfold capture. cbn [before after caps]. f_equal. f_equal. f_equal. f_equal.
  apply extends_consumed. split; cbn; reflexivity.
Qed.

Lemma run_chr a k t pre c :
  run (chr a) k (MState pre (ch a :: t) c) = k (MState (ch a :: pre) t c).
Proof.
  unfold chr. cbn [run advance after before caps].
  unfold char_eqb. rewrite N.eqb_refl. reflexivity.
Qed.

Lemma run_seq a b k s : run (Seq a b) k s = run a (run b k) s.
Proof. reflexivity. Qed.

Lemma run_start k c t : run StartOfInput k (MState [] t c) = k (MState [] t c).
Proof. reflexivity. Qed.

Lemma run_end k pre c : run EndOfInput k (MState pre [] c) = k (MState pre [] c).
Proof. reflexivity. Qed.

Lemma execFrom_here r pre s s' :
  run r Some (MState pre s []) = Some s' ->
  execFrom r pre s =
  Some (JSMatch (List.length pre) (consumed (MState pre s []) s') (caps s')
                (after s')).
Proof. intros H. destruct s; cbn [execFrom]; rewrite H; reflexivity. Qed.

(** The strict readers on a well-formed text. *)
Lemma isoDate_exec y m d :
  List.forallb isDigit y = true -> List.length y = 4%nat ->
  List.forallb isDigit m = true -> List.length m = 2%nat ->
  List.forallb isDigit d = true -> List.length d = 2%nat ->
  exists mt,
    exec Host.isoDate (y ++ lit "-" ++ m ++ lit "-" ++ d) = Some mt /\
    group mt 1 = Some y /\ group mt 2 = Some m /\ group mt 3 = Some d.
Proof.
  intros Hy Ly Hm Lm Hd Ld.
  eexists. split.
  - unfold exec. apply execFrom_here.
    unfold Host.isoDate. cbn [seqOf].
    replace (y ++ lit "-" ++ m ++ lit "-" ++ d)
      with (y ++ ch "-" :: m ++ ch "-" :: d ++ []) by (rewrite app_nil_r; reflexivity).
    rewrite run_seq, run_start.
    rewrite run_seq, run_group_digits by assumption.
    rewrite run_seq, run_chr, run_seq, run_group_digits by assumption.
    rewrite run_seq, run_chr, run_seq, run_group_digits by assumption.
    rewrite run_end. reflexivity.
  - unfold group. cbn. auto.
Qed.

Lemma run_word_tail k pre c :
  run (word "T00:00:00") k (MState pre (lit "T00:00:00") c) =
  k (MState (List.rev (lit "T00:00:00") ++ pre) [] c).
Proof. reflexivity. Qed.

Lemma isoDateTime_exec y m d :
  List.forallb isDigit y = true -> List.length y = 4%nat ->
  List.forallb isDigit m = true -> List.length m = 2%nat ->
  List.forallb isDigit d = true -> List.length d = 2%nat ->
  exists mt,
    exec Calendar.isoDateTime
         ((y ++ lit "-" ++ m ++ lit "-" ++ d) ++ lit "T00:00:00") = Some mt /\
    group mt 1 = Some y /\ group mt 2 = Some m /\ group mt 3 = Some d.
Proof.
  intros Hy Ly Hm Lm Hd Ld.
  eexists. split.
  - unfold exec. apply execFrom_here.
    unfold Calendar.isoDateTime. cbn [seqOf].
    replace ((y ++ lit "-" ++ m ++ lit "-" ++ d) ++ lit "T00:00:00")
      with (y ++ ch "-" :: m ++ ch "-" :: d ++ lit "T00:00:00")
      by (rewrite <- !app_assoc; reflexivity).
    rewrite run_seq, run_start.
    rewrite run_seq, run_group_digits by assumption.
    rewrite run_seq, run_chr, run_seq, run_group_digits by assumption.
    rewrite run_seq, run_chr, run_seq, run_group_digits by assumption.
    rewrite run_seq, run_word_tail, run_end. reflexivity.
  - unfold group. cbn. auto.
Qed.

(** *** ISO dates printed and read back *)

Lemma formatISO_parts d :
  0 <= getFullYear d <= 9999 ->
  let y := addLeadingZeros (getFullYear d) 4 in
  let m := addLeadingZeros (getMonth d + 1) 2 in
  let dd := addLeadingZeros (getDate d) 2 in
  formatISO d = y ++ lit "-" ++ m ++ lit "-" ++ dd /\
  (List.forallb isDigit y = true /\ List.length y = 4%nat /\
   parseInt y = getFullYear d) /\
  (List.forallb isDigit m = true /\ List.length m = 2%nat /\
   parseInt m = getMonth d + 1) /\
  (List.forallb isDigit dd = true /\ List.length dd = 2%nat /\
   parseInt dd = getDate d).
Proof.
  intros Hy. cbv zeta.
  pose proof (civilFromDays_range d) as (Hm & Hd).
  pose proof (printed_spec 4 10000 (getFullYear d) printed4_checked ltac:(lia))
    as (A1 & A2 & A3).
  pose proof (printed_spec 2 100 (getMonth d + 1) printed2_checked ltac:(lia))
    as (B1 & B2 & B3).
  pose proof (printed_spec 2 100 (getDate d) printed2_checked ltac:(lia))
    as (C1 & C2 & C3).
  unfold formatISO. auto 10.
Qed.

(** The date-only text of a day of the years 0 to 9999 is read back as
    that day. *)
Lemma parseISODate_formatISO d :
  0 <= getFullYear d <= 9999 -> Host.parseISODate (formatISO d) = Some d.
Proof.
  intros Hy.
  destruct (formatISO_parts d Hy) as (E & (Y1 & Y2 & Y3) & (M1 & M2 & M3) & (D1 & D2 & D3)).
  destruct (isoDate_exec _ _ _ Y1 Y2 M1 M2 D1 D2) as (mt & Hx & G1 & G2 & G3).
  unfold Host.parseISODate. rewrite E, Hx. cbv zeta. rewrite G1, G2, G3, Y3, M3, D3.
  pose proof (getDate_daysInMonth d) as (Hm & Hd).
  replace (getMonth d + 1 - 1) with (getMonth d) by lia.
  destruct (Z.leb_spec 1 (getMonth d + 1)); [ | lia ].
  destruct (Z.leb_spec (getMonth d + 1) 12); [ | lia ].
  destruct (Z.leb_spec 1 (getDate d)); [ | lia ].
  destruct (Z.leb_spec (getDate d) (daysInMonth (getFullYear d) (getMonth d))); [ | lia ].
  cbn [andb]. rewrite mkDate_civil. reflexivity.
Qed.

(** The date-time text of local midnight of such a day likewise. *)
Lemma parseISO_formatISO d :
  0 <= getFullYear d <= 9999 ->
  Calendar.parseISO (formatISO d ++ lit "T00:00:00") = Some d.
Proof.
  intros Hy.
  destruct (formatISO_parts d Hy) as (E & (Y1 & Y2 & Y3) & (M1 & M2 & M3) & (D1 & D2 & D3)).
  destruct (isoDateTime_exec _ _ _ Y1 Y2 M1 M2 D1 D2) as (mt & Hx & G1 & G2 & G3).
  unfold Calendar.parseISO. rewrite E, Hx. cbv zeta. rewrite G1, G2, G3, Y3, M3, D3.
  pose proof (getDate_daysInMonth d) as (Hm & Hd).
  replace (getMonth d + 1 - 1) with (getMonth d) by lia.
  destruct (Z.leb_spec 1 (getMonth d + 1)); [ | lia ].
  destruct (Z.leb_spec (getMonth d + 1) 12); [ | lia ].
  destruct (Z.leb_spec 1 (getDate d)); [ | lia ].
  pose proof (daysInMonth_pos (getFullYear d) (getMonth d) Hm).
  destruct (Z.leb_spec (getDate d) 31); [ | lia ].
  cbn [andb]. rewrite mkDate_civil. reflexivity.
Qed.

Lemma paddedYear_checked : allFrom 9000 1000 paddedYearOk = true.
Proof. vm_compute. reflexivity. Qed.

Lemma shortYear_checked : allFrom 1000 0 shortYearOk = true.
Proof. vm_compute. reflexivity. Qed.

Lemma formatDateSafe_formatISO d :
  1000 <= getFullYear d <= 9999 -> DateParser.formatDateSafe d = formatISO d.
Proof.
  intros Hy. pose proof (civilFromDays_range d) as (Hm & Hd).
  unfold DateParser.formatDateSafe, formatISO. cbv zeta.
  pose proof (allFrom_spec _ _ _ paddedYear_checked (getFullYear d) ltac:(lia)) as H.
  apply str_eqb_eq in H. rewrite H.
  fold (DateParser.pad2 (getMonth d + 1)). fold (DateParser.pad2 (getDate d)).
  rewrite !pad2_addLeadingZeros by lia. reflexivity.
Qed.

(** [formatDateSafe] prints a local date of the years 1000 to 9999 as
    the ISO text YYYY-MM-DD of that day: read back with 'T00:00:00'
    appended (local midnight), or as a date-only text, it gives the same
    day.  For the years 0 to 999 the year is not padded and the text is
    shorter than the ten characters of an ISO date. *)
Theorem formatDateSafe_read_back (d : Date) :
  (1000 <= getFullYear d <= 9999 ->
     DateParser.formatDateSafe d = formatISO d /\
     List.length (DateParser.formatDateSafe d) = 10%nat /\
     Calendar.parseISO (DateParser.formatDateSafe d ++ lit "T00:00:00") = Some d /\
     Host.parseISODate (DateParser.formatDateSafe d) = Some d) /\
  (0 <= getFullYear d <= 999 ->
     (List.length (DateParser.formatDateSafe d) < 10)%nat).
Proof.
  split.
  - intros Hy. rewrite formatDateSafe_formatISO by assumption.
    split; [ reflexivity | ].
    split; [ | split; [ apply parseISO_formatISO | apply parseISODate_formatISO ]; lia ].
    destruct (formatISO_parts d ltac:(lia)) as (E & (_ & Y2 & _) & (_ & M2 & _) & (_ & D2 & _)).
    rewrite E, !length_app, Y2, M2, D2. reflexivity.
  - intros Hy. pose proof (civilFromDays_range d) as (Hm & Hd).
    unfold DateParser.formatDateSafe. cbv zeta.
    fold (DateParser.pad2 (getMonth d + 1)). fold (DateParser.pad2 (getDate d)).
    rewrite !pad2_addLeadingZeros by lia.
    pose proof (printed_spec 2 100 (getMonth d + 1) printed2_checked ltac:(lia))
      as (B1 & _).
    pose proof (printed_spec 2 100 (getDate d) printed2_checked ltac:(lia))
      as (C1 & _).
    pose proof (allFrom_spec _ _ _ shortYear_checked (getFullYear d) ltac:(lia)) as H.
    unfold shortYearOk in H. apply Nat.ltb_lt in H.
    rewrite !length_app, B1, C1. cbn [List.length lit list_ascii_of_string List.map].
    lia.
Qed.

Lemma formatDateSafe_read_back_witness :
  1000 <= getFullYear day0 <= 9999 /\
  DateParser.formatDateSafe day0 = lit "2025-01-15" /\
  Calendar.parseISO (lit "2025-01-15T00:00:00") = Some day0.
Proof.
  assert (H : 1000 <= getFullYear day0 <= 9999) by (vm_compute; split; discriminate).
  split; [ exact H | ].
  destruct (formatDateSafe_read_back day0) as [Hr _].
  destruct (Hr H) as (_ & _ & P & _).
  split; [ reflexivity | exact P ].
Defined.

(** *** The text of a match *)

Lemma exec_text r s m :
  exec r s = Some m ->
  exists u st w,
    s = u ++ w ++ after st /\
    matches r (MState (List.rev u) (w ++ after st) []) st /\
    m_caps m = caps st /\ m_text m = w.
Proof.
  unfold exec. intros H.
  destruct (execFrom_text _ _ _ _ H) as (u & v & st & w & E & Hm & Hw & C & T & _).
  rewrite app_nil_r in *. destruct Hw as [_ A]. cbn [after] in A. subst v.
  exists u, st, w. auto.
Qed.

Lemma exec_complete r u v st :
  matches r (MState (List.rev u) v []) st -> exec r (u ++ v) <> None.
Proof.
  intros H. unfold exec. apply (execFrom_complete r u [] v st).
  rewrite app_nil_r. exact H.
Qed.

(** *** "today" and "tomorrow" *)

(** A character whose small letter is a small ASCII letter is that letter
    or its capital. *)
Lemma lowerChar_ci c x :
  isLower x = true -> lowerChar c = x -> char_eqb_ci x c = true.
Proof.
  unfold lowerChar, char_eqb_ci, upperAscii, isLower, isUpper, between.
  intros Hx E.
  repeat match goal with
         | H : context [N.leb ?a ?b] |- _ => destruct (N.leb_spec a b)
         | H : context [N.eqb ?a ?b] |- _ => destruct (N.eqb_spec a b)
         | |- context [N.leb ?a ?b] => destruct (N.leb_spec a b)
         end; cbn in *; try discriminate; apply N.eqb_eq; lia.
Qed.

Lemma matches_chr_i a x t pre c :
  char_eqb_ci (ch a) x = true ->
  matches (chr_i a) (MState pre (x :: t) c) (MState (x :: pre) t c).
Proof. intros H. cbn. exists x. auto. Qed.

Lemma matches_word_i name : forall w t pre c,
  name <> [] ->
  Forall2 (fun a x => char_eqb_ci (ch a) x = true) name w ->
  matches (seqOf (List.map chr_i name)) (MState pre (w ++ t) c)
          (MState (List.rev w ++ pre) t c).
Proof.
  induction name as [|a name IH]; intros w t pre c Hne H; [ congruence | ].
  inversion H as [|a' x name' w' Hax Hrest]; subst. clear H.
  destruct name as [|b name].
  - inversion Hrest; subst. cbn [List.map seqOf app List.rev].
    apply matches_chr_i. assumption.
  - cbn [List.map seqOf]. cbn [matches]. exists (MState (x :: pre) (w' ++ t) c).
    split; [ apply matches_chr_i; assumption | ].
    cbn [List.rev]. rewrite <- app_assoc.
    apply (IH w' t (x :: pre) c); [ discriminate | assumption ].
Qed.

(** A text whose lower-casing is a word of small ASCII letters other than
    k is that word, up to the case of its letters. *)
Lemma toLowerCase_word w : forall name,
  List.forallb (fun a => isLower (ch a) && negb (N.eqb (ch a) 107)) name = true ->
  toLowerCase w = List.map ch name ->
  Forall2 (fun a x => char_eqb_ci (ch a) x = true) name w.
Proof.
  induction w as [|x w IH]; intros name Hl H.
  - destruct name; [ constructor | discriminate ].
  - change (toLowerCase (x :: w)) with (lowerUnits x ++ toLowerCase w) in H.
    unfold lowerUnits in H.
    destruct (N.eqb_spec x 304) as [-> | N1].
    { destruct name as [|a [|b name]]; try discriminate.
      cbn in H. injection H as _ Eb _.
      cbn [List.forallb] in Hl. rewrite <- Eb in Hl.
      rewrite andb_true_iff in Hl. destruct Hl as [_ Hl]. discriminate Hl. }
    destruct (N.eqb_spec x 8490) as [-> | N2].
    { destruct name as [|a name]; try discriminate.
      cbn in H. injection H as Ea _.
      cbn [List.forallb] in Hl. rewrite <- Ea in Hl. discriminate Hl. }
    destruct (N.eqb_spec x 8491) as [-> | N3].
    { destruct name as [|a name]; try discriminate.
      cbn in H. injection H as Ea _.
      cbn [List.forallb] in Hl. rewrite <- Ea in Hl. discriminate Hl. }
    destruct name as [|a name]; try discriminate.
    cbn [app List.map] in H. injection H as E1 E2.
    cbn [List.forallb] in Hl. rewrite !andb_true_iff in Hl.
    destruct Hl as [[Ha _] Hl]. constructor.
    + apply lowerChar_ci; assumption.
    + apply IH; assumption.
Qed.

Lemma todayPattern_complete u w rest :
  toLowerCase w = lit "today" \/ toLowerCase w = lit "tomorrow" ->
  exec todayPattern (u ++ w ++ rest) <> None.
Proof.
  intros H.
  assert (Hm : matches todayPattern (MState (List.rev u) (w ++ rest) [])
                 (capture 1 (MState (List.rev u) (w ++ rest) [])
                            (MState (List.rev w ++ List.rev u) rest []))).
  { unfold todayPattern, DateParser.datePatterns. cbn [List.nth].
    unfold words_i. cbn [List.map altOf]. cbn [matches].
    eexists. split; [ | reflexivity ].
    destruct H as [H | H]; [ left | right ]; unfold word_i;
      (apply matches_word_i; [ discriminate | ]);
      (apply toLowerCase_word; [ reflexivity | exact H ]). }
  apply (exec_complete _ _ _ _ Hm).
Qed.

(** *** Where a date comes from *)

Lemma extractDateRange_both today s d e :
  DateParser.extractDateRange today s = (Some d, e) -> e <> None.
Proof.
  unfold DateParser.extractDateRange.
  destruct (DateParser.firstMatch DateParser.dateRangePatterns s) as [m|];
    [ | discriminate ].
  destruct (truthy (group m 3)), (truthy (group m 1)), (truthy (group m 2));
    cbn [andb];
    repeat match goal with
           | |- context [match ?x with Some _ => _ | None => _ end] => destruct x
           | |- context [if ?b then _ else _] => destruct b
           end;
    intros H; inversion H; discriminate.
Qed.

(** The second group of "12/25/2025" and of "12/25" is a number; a weekday
    name has no second group. *)
Lemma numericDate_captures s m p :
  p = List.nth 1 DateParser.datePatterns Eps \/
  p = List.nth 2 DateParser.datePatterns Eps ->
  exec p s = Some m ->
  exists w2, group m 2 = Some w2 /\
    (1 <= List.length w2)%nat /\ forallb isDigit w2 = true.
Proof.
  intros Hp H. apply execFrom_sound in H. destruct H as (u & v & st & _ & H & E).
  unfold group. rewrite E. clear E.
  destruct Hp as [-> | ->];
    cbn [List.nth DateParser.datePatterns seqOf] in H;
    split_seq H; repeat caps_step; cbn [caps] in *.
  - caps_chain. cbn. eexists. split; [ reflexivity | ].
    split; [ lia | assumption ].
  - caps_chain. cbn. eexists. split; [ reflexivity | ].
    split; [ lia | assumption ].
Qed.

Lemma weekday_captures s m :
  exec (List.nth 4 DateParser.datePatterns Eps) s = Some m -> group m 2 = None.
Proof.
  intros H. apply execFrom_sound in H. destruct H as (u & v & st & _ & H & E).
  unfold group. rewrite E. clear E.
  cbn [List.nth DateParser.datePatterns] in H.
  caps_step. rewrite C. reflexivity.
Qed.

Lemma extractSingleDate_sources today s :
  exec dayMonthPattern s = None -> exec todayPattern s = None ->
  DateParser.extractSingleDate today s = None.
Proof.
  intros H0 H3. unfold DateParser.extractSingleDate.
  destruct (DateParser.firstMatch DateParser.datePatterns s) as [m|] eqn:Hm;
    [ | reflexivity ].
  apply firstMatch_sound in Hm. destruct Hm as (p & Hp & He).
  assert (Hw : toLowerCase (m_text m) <> lit "today" /\
               toLowerCase (m_text m) <> lit "tomorrow").
  { destruct (exec_text _ _ _ He) as (u & st & w & Es & _ & _ & Et).
    split; intros E; apply (todayPattern_complete u w (after st));
      rewrite <- ?Es, <- ?Et; auto. }
  destruct Hw as [Hw1 Hw2].
  destruct (str_eqb (toLowerCase (m_text m)) (lit "today")) eqn:E1;
    [ apply str_eqb_eq in E1; contradiction | ].
  destruct (str_eqb (toLowerCase (m_text m)) (lit "tomorrow")) eqn:E2;
    [ apply str_eqb_eq in E2; contradiction | ].
  unfold dayMonthPattern, todayPattern, DateParser.datePatterns in H0, H3.
  cbn [List.nth] in H0, H3.
  unfold DateParser.datePatterns in Hp. cbn [In] in Hp.
  destruct Hp as [<- | [<- | [<- | [<- | [<- | []]]]]].
  - congruence.
  - destruct (numericDate_captures s m _ (or_introl eq_refl) He) as (w2 & G & L & D).
    unfold DateParser.sub. rewrite G, (monthMap_digits _ L D).
    destruct (truthy (group m 1) && truthy (Some w2)); reflexivity.
  - destruct (numericDate_captures s m _ (or_intror eq_refl) He) as (w2 & G & L & D).
    unfold DateParser.sub. rewrite G, (monthMap_digits _ L D).
    destruct (truthy (group m 1) && truthy (Some w2)); reflexivity.
  - congruence.
  - rewrite (weekday_captures s m He). cbn [truthy]. rewrite andb_false_r.
    reflexivity.
Qed.

(** [parseNaturalLanguage] takes a date from three phrases only: a
    range of days before a month ("15-17 oct"), a day before a month
    ("15 oct"), and "today" or "tomorrow".  An input with none of them gives
    null: numeric dates ("12/25", "12/25/2025", "12/1-12/3"), a month before
    its days ("oct 15-17") and the names of the weekdays are matched by the
    patterns but never give a date. *)
Theorem parseNaturalLanguage_date_phrases (today : Date) (input : jsstring) :
  test dayRangePattern (cleanInputOf input) = false ->
  test dayMonthPattern (cleanInputOf input) = false ->
  test todayPattern (cleanInputOf input) = false ->
  DateParser.parseNaturalLanguage today input = None.
Proof.
  unfold test. intros T1 T2 T3.
  destruct (exec dayRangePattern (cleanInputOf input)) eqn:H1; [ discriminate | ].
  destruct (exec dayMonthPattern (cleanInputOf input)) eqn:H2; [ discriminate | ].
  destruct (exec todayPattern (cleanInputOf input)) eqn:H3; [ discriminate | ].
  pose proof (parseNaturalLanguage_cases today input) as C. cbv zeta in C.
  destruct (DateParser.parseNaturalLanguage today input) as [r|]; [ exfalso | reflexivity ].
  destruct C as (_ & _ & Hd & _).
  unfold parsedDateOf, DateParser.extractDates in Hd.
  destruct (DateParser.extractDateRange today (cleanInputOf input))
    as [[d|] e] eqn:Er.
  - pose proof (extractDateRange_both _ _ _ _ Er) as Hne.
    destruct e as [e|]; [ | congruence ].
    destruct (extractDateRange_end _ _ _ _ Er) as (m & _ & _ & _ & Hm & _).
    congruence.
  - cbn [truthy negb fst] in Hd.
    rewrite (extractSingleDate_sources _ _ H2 H3) in Hd. discriminate.
Qed.

Lemma parseNaturalLanguage_date_phrases_witness :
  DateParser.parseNaturalLanguage day0 (lit "Lunch 12/25/2025") = None.
Proof.
  apply parseNaturalLanguage_date_phrases; vm_compute; reflexivity.
Defined.

(** *** The hours of a draft *)

(** The first group of a time pattern is a number of one or two digits;
    so is the second group wherever there is a third. *)
Lemma timePatterns_captures s m p :
  In p DateParser.timePatterns -> exec p s = Some m ->
  (exists w1, group m 1 = Some w1 /\ (List.length w1 <= 2)%nat /\
              forallb isDigit w1 = true) /\
  (group m 3 = None \/
   exists w2, group m 2 = Some w2 /\ (List.length w2 <= 2)%nat /\
              forallb isDigit w2 = true).
Proof.
  intros Hp H. apply execFrom_sound in H. destruct H as (u & v & st & _ & H & E).
  unfold group. rewrite E. clear E.
  unfold DateParser.timePatterns in Hp. cbn [In] in Hp.
  destruct Hp as [<- | [<- | [<- | []]]];
    cbn [seqOf] in H; split_seq H; repeat caps_step; cbn [caps] in *;
    caps_chain; cbn; (split; [ eexists; split; [ reflexivity | split; [ lia | assumption ] ] | ]);
    try (left; reflexivity);
    right; eexists; (split; [ reflexivity | split; [ lia | assumption ] ]).
Qed.

Lemma hour_range w isPM :
  (List.length w <= 2)%nat -> forallb isDigit w = true ->
  0 <= (if isPM && negb (parseInt w =? 12) then parseInt w + 12 else parseInt w)
    <= 111.
Proof.
  intros L D. pose proof (parseInt_digits w D L).
  destruct (isPM && negb (parseInt w =? 12)); lia.
Qed.

Lemma extractTimes_hours s :
  let wholeHour (t : option jsstring) :=
    forall x, t = Some x -> exists h, 0 <= h <= 111 /\ x = DateParser.hourText h in
  wholeHour (fst (DateParser.extractTimes s)) /\
  wholeHour (snd (DateParser.extractTimes s)).
Proof.
  cbv zeta. unfold DateParser.extractTimes.
  destruct (DateParser.firstMatch DateParser.timePatterns s) as [m|] eqn:Hm;
    [ | cbn; split; intros x; discriminate ].
  apply firstMatch_sound in Hm. destruct Hm as (p & Hp & He).
  destruct (timePatterns_captures s m p Hp He) as ((w1 & G1 & L1 & D1) & G2).
  unfold DateParser.sub. rewrite G1.
  destruct G2 as [G3 | (w2 & G2 & L2 & D2)].
  - rewrite G3. change (truthy None) with false. cbn [andb].
    destruct (truthy (Some w1) && truthy (group m 2)); cbn [fst snd];
      split; intros x Hx; try discriminate; inversion Hx; subst; eexists;
      (split; [ | reflexivity ]); apply hour_range; assumption.
  - rewrite G2.
    destruct (truthy (group m 3)), (truthy (Some w1)), (truthy (Some w2));
      cbn [andb fst snd];
      split; intros x Hx; try discriminate; inversion Hx; subst; eexists;
      (split; [ | reflexivity ]); apply hour_range; assumption.
Qed.

(** The times of a draft of [parseNaturalLanguage] are whole hours
    printed as [HH:00]: minutes written in the input are never kept, and
    the hour is not checked against the clock (it ranges from 0 to 111,
    "99pm" giving 111:00). *)
Theorem parseNaturalLanguage_whole_hours (today : Date) (input : jsstring)
  (r : DateParser.ParsedEvent) (t : jsstring) :
  DateParser.parseNaturalLanguage today input = Some r ->
  DateParser.startTime r = Some t \/ DateParser.endTime r = Some t ->
  exists h, 0 <= h <= 111 /\ t = DateParser.hourText h.
Proof.
  intros H Ht.
  pose proof (parseNaturalLanguage_cases today input) as C. cbv zeta in C.
  rewrite H in C. destruct C as (_ & _ & _ & _ & _ & Et & _).
  pose proof (extractTimes_hours (cleanInputOf input)) as [Hs He].
  rewrite <- Et in Hs, He. cbn [fst snd] in Hs, He.
  destruct Ht as [Ht | Ht]; auto.
Qed.

Lemma parseNaturalLanguage_whole_hours_witness :
  exists r,
    DateParser.parseNaturalLanguage day0 (lit "Review today 9:30-99pm") = Some r /\
    DateParser.startTime r = Some (lit "42:00") /\
    DateParser.endTime r = Some (lit "111:00") /\
    exists h, 0 <= h <= 111 /\ lit "111:00" = DateParser.hourText h.
Proof.
  eexists. split; [ vm_compute; reflexivity | ].
  split; [ reflexivity | ]. split; [ reflexivity | ].
  eapply (parseNaturalLanguage_whole_hours day0 (lit "Review today 9:30-99pm")).
  - vm_compute. reflexivity.
  - right. reflexivity.
Defined.

(** *** A clock range is read as a range of hours *)

Lemma matches_chr_inv a s s' :
  matches (chr a) s s' -> extends s [ch a] s'.
Proof.
  cbn. intros (c & Ha & Hc). unfold advance in Ha.
  destruct (after s) as [|c' t] eqn:E; [ discriminate | ].
  inversion Ha; subst. apply N.eqb_eq in Hc. subst c.
  split; cbn; [ reflexivity | assumption ].
Qed.

Lemma matches_spaces_inv s s' :
  matches spaces s s' -> exists w, forallb isSpace w = true /\ extends s w s'.
Proof.
  cbn. intros (n & _ & _ & Hc).
  destruct (chain_class _ _ _ _ Hc) as (w & _ & Hw & He). eauto.
Qed.

Lemma chain_class_intro p : forall w pre t c,
  forallb p w = true ->
  chain (matches (Cls p)) (List.length w) (MState pre (w ++ t) c)
        (MState (List.rev w ++ pre) t c).
Proof.
  induction w as [|x w IH]; intros pre t c H; cbn [List.length chain].
  - reflexivity.
  - cbn [forallb] in H. apply andb_prop in H. destruct H as [Hx Hw].
    exists (MState (x :: pre) (w ++ t) c). split; [ | split ].
    + cbn. exists x. auto.
    + unfold progressed. cbn. apply negb_true_iff. apply Nat.eqb_neq. lia.
    + cbn [List.rev]. rewrite <- app_assoc. apply IH. assumption.
Qed.

Lemma matches_group_digits_intro i lo hi w pre t c :
  forallb isDigit w = true -> (lo <= List.length w <= hi)%nat ->
  matches (Grp i (digits lo hi)) (MState pre (w ++ t) c)
          (MState (List.rev w ++ pre) t ((i, w) :: c)).
Proof.
  intros D L. cbn [matches]. exists (MState (List.rev w ++ pre) t c). split.
  - unfold digits, digit. cbn [matches]. exists (List.length w).
    split; [ lia | ]. split; [ lia | ]. apply chain_class_intro. assumption.
  - unfold capture. cbn [before after caps]. f_equal. f_equal. f_equal.
    symmetry. apply extends_consumed. split; reflexivity.
Qed.

Lemma matches_spaces_intro w pre t c :
  forallb isSpace w = true ->
  matches spaces (MState pre (w ++ t) c) (MState (List.rev w ++ pre) t c).
Proof.
  intros H. unfold spaces, star, space. cbn [matches]. exists (List.length w).
  split; [ lia | ]. split; [ exact I | ]. apply chain_class_intro. assumption.
Qed.

Lemma matches_chr_intro a pre t c :
  matches (chr a) (MState pre (ch a :: t) c) (MState (ch a :: pre) t c).
Proof. cbn. exists (ch a). split; [ reflexivity | apply N.eqb_refl ]. Qed.

(** The hour-range pattern matches inside every clock range: at the
    minutes of its first time. *)
Lemma hourRange_of_clockRange s m :
  exec clockRangePattern s = Some m -> exec hourRangePattern s <> None.
Proof.
  intros H. destruct (exec_text _ _ _ H) as (u & st & w & Es & Hm & _ & _).
  unfold clockRangePattern in Hm.
  cbn [List.nth DateParser.timePatterns seqOf] in Hm.
  split_seq Hm.
  destruct (matches_group_digits _ _ _ _ _ M) as (w1 & _ & _ & X1 & _).
  pose proof (matches_chr_inv _ _ _ M0) as X2.
  destruct (matches_group_digits _ _ _ _ _ M1) as (w2 & L2 & D2 & X3 & _).
  destruct (matches_spaces_inv _ _ M2) as (sp1 & P1 & X4).
  pose proof (matches_chr_inv _ _ _ M3) as X5.
  destruct (matches_spaces_inv _ _ M4) as (sp2 & P2 & X6).
  destruct (matches_group_digits _ _ _ _ _ M5) as (w3 & L3 & D3 & X7 & _).
  destruct X1 as [B1 A1], X2 as [B2 A2], X3 as [_ A3], X4 as [_ A4],
    X5 as [_ A5], X6 as [_ A6], X7 as [_ A7].
  cbn [before after] in B1, A1.
  assert (Ev : w ++ after st =
               (w1 ++ [ch ":"]) ++
               (w2 ++ sp1 ++ ch "-" :: sp2 ++ w3 ++ after s6)).
  { rewrite A1, A2, A3, A4, A5, A6, A7. rewrite <- !app_assoc. reflexivity. }
  rewrite Es, Ev, app_assoc.
  eapply exec_complete.
  unfold hourRangePattern. cbn [List.nth DateParser.timePatterns seqOf].
  cbn [matches].
  eexists. split; [ apply matches_group_digits_intro; [ exact D2 | lia ] | ].
  eexists. split; [ apply matches_spaces_intro; exact P1 | ].
  eexists. split; [ apply matches_chr_intro | ].
  eexists. split; [ apply matches_spaces_intro; exact P2 | ].
  eexists. split; [ apply matches_group_digits_intro; [ exact D3 | lia ] | ].
  eexists. split; [ apply (matches_spaces_intro []); reflexivity | ].
  exists 0%nat. split; [ lia | ]. split; [ lia | ]. reflexivity.
Qed.

(** The pattern of clock ranges ("9:30-10:45") never gets its turn:
    whatever it matches, the pattern of hour ranges, tried first, matches
    too (at the minutes of the first time), so that the match used is that
    of the hour-range pattern. *)
Theorem clock_range_is_shadowed (s : jsstring) :
  test clockRangePattern s = true ->
  exists m, exec hourRangePattern s = Some m /\
            DateParser.firstMatch DateParser.timePatterns s = Some m.
Proof.
  unfold test. intros H.
  destruct (exec clockRangePattern s) as [m1|] eqn:E; [ | discriminate ].
  pose proof (hourRange_of_clockRange s m1 E) as Hh.
  destruct (exec hourRangePattern s) as [m|] eqn:E0; [ | contradiction ].
  exists m. split; [ reflexivity | ].
  unfold hourRangePattern in E0. unfold DateParser.timePatterns in *.
  cbn [List.nth] in E0. cbn [DateParser.firstMatch]. rewrite E0. reflexivity.
Qed.

Lemma clock_range_is_shadowed_witness :
  test clockRangePattern (lit "sync 9:30-10:45") = true /\
  exists m, exec hourRangePattern (lit "sync 9:30-10:45") = Some m /\
            DateParser.firstMatch DateParser.timePatterns
              (lit "sync 9:30-10:45") = Some m /\
            m_text m = lit "30-10".
Proof.
  split; [ reflexivity | ].
  destruct (clock_range_is_shadowed (lit "sync 9:30-10:45") eq_refl)
    as (m & E & F).
  exists m. split; [ exact E | ]. split; [ exact F | ].
  vm_compute in E. inversion E. reflexivity.
Defined.

(** *** The events of a line and of a text *)






(** *** Splitting a text into lines *)

Lemma lineBreak_none c t pre :
  isLineChar c = true ->
  run BulkText.lineBreak Some (MState pre (c :: t) []) = None.
Proof.
  unfold isLineChar. rewrite andb_true_iff, !negb_true_iff. intros [H10 H13].
  unfold BulkText.lineBreak, opt. cbn [run iterate advance after before caps].
  unfold char_eqb. rewrite (N.eqb_sym 13 c), (N.eqb_sym 10 c), H10, H13.
  reflexivity.
Qed.

Lemma lineBreak_lf t pre :
  run BulkText.lineBreak Some (MState pre (10%N :: t) []) =
  Some (MState (10%N :: pre) t []).
Proof. reflexivity. Qed.

Lemma lineBreak_crlf t pre :
  run BulkText.lineBreak Some (MState pre (13%N :: 10%N :: t) []) =
  Some (MState (10%N :: 13%N :: pre) t []).
Proof.
  unfold BulkText.lineBreak, opt. cbn [run iterate advance after before caps].
  unfold progressed. cbn [before List.length char_eqb N.eqb Pos.eqb].
  replace (Nat.eqb (List.length pre) (S (List.length pre))) with false
    by (symmetry; apply Nat.eqb_neq; lia).
  reflexivity.
Qed.

(** Going over the characters of a line. *)
Lemma splitLoop_line : forall l fuel pre piece t,
  isLine l = true ->
  Host.splitLoop (List.length l + fuel) BulkText.lineBreak pre piece (l ++ t) =
  Host.splitLoop fuel BulkText.lineBreak (List.rev l ++ pre)
                 (List.rev l ++ piece) t.
Proof.
  induction l as [|c l IH]; intros fuel pre piece t H; [ reflexivity | ].
  cbn [isLine forallb] in H. apply andb_prop in H. destruct H as [Hc Hl].
  cbn [List.length Nat.add app Host.splitLoop].
  rewrite (lineBreak_none c (l ++ t) pre Hc).
  rewrite (IH fuel (c :: pre) (c :: piece) t Hl).
  cbn [List.rev]. rewrite <- !app_assoc. reflexivity.
Qed.

Lemma splitLoop_lines sep : sep = [10%N] \/ sep = [13%N; 10%N] ->
  forall lines l fuel pre piece,
    forallb isLine (l :: lines) = true ->
    (List.length (Host.join sep (l :: lines)) + List.length lines < fuel)%nat ->
    Host.splitLoop fuel BulkText.lineBreak pre piece (Host.join sep (l :: lines))
    = (List.rev piece ++ l) :: lines.
Proof.
  intros Hsep. induction lines as [|l' lines IH]; intros l fuel pre piece H Hf.
  - cbn [Host.join] in *. cbn [forallb] in H. rewrite andb_true_r in H.
    pose proof (splitLoop_line l (fuel - List.length l) pre piece [] H) as X.
    rewrite app_nil_r in X.
    replace (List.length l + (fuel - List.length l))%nat with fuel in X by lia.
    rewrite X. clear X.
    destruct (fuel - List.length l)%nat eqn:E; [ cbn in Hf; lia | ].
    cbn [Host.splitLoop]. rewrite rev_app_distr, rev_involutive. reflexivity.
  - cbn [forallb] in H. apply andb_prop in H. destruct H as [Hl H].
    change (Host.join sep (l :: l' :: lines))
      with (l ++ sep ++ Host.join sep (l' :: lines)) in *.
    rewrite !length_app in Hf. cbn [List.length] in Hf.
    pose proof (splitLoop_line l (fuel - List.length l) pre piece
                  (sep ++ Host.join sep (l' :: lines)) Hl) as X.
    replace (List.length l + (fuel - List.length l))%nat with fuel in X by lia.
    rewrite X. clear X.
    destruct (fuel - List.length l)%nat as [|fuel'] eqn:E; [ lia | ].
    destruct Hsep as [-> | ->]; cbn [app Host.splitLoop].
    + rewrite lineBreak_lf. cbn [before after List.length].
      replace (Nat.eqb (S (List.length (List.rev l ++ pre)))
                       (List.length (List.rev l ++ pre))) with false
        by (symmetry; apply Nat.eqb_neq; lia).
      cbn [andb]. rewrite rev_app_distr, rev_involutive. f_equal.
      rewrite (IH l' fuel' _ []); [ reflexivity | assumption | ].
      cbn [List.length] in Hf |- *. unfold jsstring, char in *. lia.
    + rewrite lineBreak_crlf. cbn [before after List.length].
      replace (Nat.eqb (S (S (List.length (List.rev l ++ pre))))
                       (List.length (List.rev l ++ pre))) with false
        by (symmetry; apply Nat.eqb_neq; lia).
      cbn [andb]. rewrite rev_app_distr, rev_involutive. f_equal.
      rewrite (IH l' fuel' _ []); [ reflexivity | assumption | ].
      cbn [List.length] in Hf |- *. unfold jsstring, char in *. lia.
Qed.

Lemma join_length sep : forall lines,
  (List.length lines <= S (List.length (Host.join sep lines)))%nat \/ sep = [].
Proof.
  destruct sep as [|c sep]; [ auto | left ].
  induction lines as [|l [|l' lines] IH]; cbn [Host.join List.length] in *; try lia.
  rewrite !length_app. cbn [List.length]. lia.
Qed.

(** Lines joined by line feeds, or by carriage returns and line feeds, are
    split into the same lines. *)
Lemma split_join sep lines :
  sep = [10%N] \/ sep = [13%N; 10%N] -> lines <> [] ->
  forallb isLine lines = true ->
  Host.split BulkText.lineBreak (Host.join sep lines) = lines.
Proof.
  intros Hsep Hne H. destruct lines as [|l lines]; [ congruence | ].
  unfold Host.split.
  destruct (Host.join sep (l :: lines)) as [|c t] eqn:E.
  - assert (l = [] /\ lines = []) as [-> ->].
    { destruct lines as [|l' lines]; cbn [Host.join] in E.
      - auto.
      - apply (f_equal (@List.length _)) in E. rewrite !length_app in E.
        destruct Hsep as [-> | ->]; cbn in E; lia. }
    reflexivity.
  - rewrite <- E.
    rewrite (splitLoop_lines sep Hsep lines l _ [] [] H); [ reflexivity | ].
    destruct (join_length sep (l :: lines)) as [Hl | ->];
      [ | destruct Hsep; discriminate ].
    cbn [List.length] in Hl. lia.
Qed.

Lemma parseLineToEvents_length chrono line :
  (List.length (BulkParser.parseLineToEvents chrono line) <= 1)%nat.
Proof.
  unfold BulkParser.parseLineToEvents. cbv zeta.
  destruct (trim line) as [|c raw]; [ cbn; lia | ].
  match goal with
  | |- context [let '(_, _) := ?x in _] => destruct x as [titlePart datePart]
  end.
  match goal with
  | |- context [BulkParser.lineDates ?c ?w ?d] =>
      destruct (BulkParser.lineDates c w d) as [dates|]
  end; [ | cbn; lia ].
  destruct (Nat.ltb_spec 1 (List.length dates)) as [Hlt | Hle]; [ cbn; lia | ].
  rewrite length_map. assumption.
Qed.

Lemma parseLineToEvents_date chrono line ev :
  In ev (BulkParser.parseLineToEvents chrono line) ->
  exists d, BulkParser.date ev = formatISO d.
Proof.
  unfold BulkParser.parseLineToEvents. cbv zeta.
  destruct (trim line) as [|c raw]; [ intros [] | ].
  match goal with
  | |- context [let '(_, _) := ?x in _] => destruct x as [titlePart datePart]
  end.
  match goal with
  | |- context [BulkParser.lineDates ?c ?w ?d] =>
      destruct (BulkParser.lineDates c w d) as [dates|]
  end; [ | intros [] ].
  destruct (Nat.ltb_spec 1 (List.length dates)) as [Hlt | Hle].
  - intros [<- | []]. eexists. reflexivity.
  - intros H. apply in_map_iff in H. destruct H as (d & <- & _).
    exists d. reflexivity.
Qed.

Lemma flat_map_length_le {A B} (f : A -> list B) l :
  (forall a, List.length (f a) <= 1)%nat ->
  (List.length (List.flat_map f l) <= List.length l)%nat.
Proof.
  intros H. induction l as [|a l IH]; cbn [List.flat_map List.length]; [ lia | ].
  rewrite length_app. specialize (H a). lia.
Qed.

(** [parseBulkText] parses each line on its own: for a text made of
    lines joined by line feeds, or by carriage returns and line feeds, the
    events without clipping are those of the lines, in the order of the
    lines, at most one for each line. *)
Theorem parseBulkText_lines
  (chrono_parseDate : jsstring -> BulkParser.chronoOutcome)
  (dateParse : jsstring -> option Z) (sep : jsstring) (lines : list jsstring) :
  sep = [10%N] \/ sep = [13%N; 10%N] -> lines <> [] ->
  forallb isLine lines = true ->
  BulkText.parseBulkText chrono_parseDate dateParse (Host.join sep lines) false
    = List.flat_map (BulkParser.parseLineToEvents chrono_parseDate) lines /\
  (List.length
     (BulkText.parseBulkText chrono_parseDate dateParse (Host.join sep lines)
        false) <= List.length lines)%nat.
Proof.
  intros Hsep Hne Hl. unfold BulkText.parseBulkText. cbv zeta. cbn [negb].
  rewrite (split_join sep lines Hsep Hne Hl).
  split; [ reflexivity | ].
  apply flat_map_length_le. intros a. apply parseLineToEvents_length.
Qed.

Lemma parseBulkText_lines_witness :
  BulkText.parseBulkText (fun _ => BulkParser.Returned None) Host.parseISODate
    (lit "Leader Review July 9-10, 2025" ++ [13%N; 10%N] ++
     lit "" ++ [13%N; 10%N] ++ lit "Offsite Aug 4 - Aug 6, 2025") false
  = [ BulkParser.mkBulkEvent MEETING (lit "Leader Review") (lit "2025-07-09")
        (Some (lit "2025-07-09")) (Some (lit "2025-07-10"));
      BulkParser.mkBulkEvent PLANNING (lit "Offsite") (lit "2025-08-04")
        (Some (lit "2025-08-04")) (Some (lit "2025-08-06")) ].
Proof.
  destruct (parseBulkText_lines (fun _ => BulkParser.Returned None)
              Host.parseISODate [13%N; 10%N]
              [lit "Leader Review July 9-10, 2025"; lit "";
               lit "Offsite Aug 4 - Aug 6, 2025"]
              (or_intror eq_refl) ltac:(discriminate)
              ltac:(vm_compute; reflexivity)) as [E _].
  etransitivity; [ exact E | ]. vm_compute. reflexivity.
Defined.



Lemma clip_test dateParse d :
  Host.readsDateOnly dateParse -> 0 <= getFullYear d <= 9999 ->
  (negb (BulkText.isBefore (dateParse (formatISO d))
                           (BulkText.OPERATING_START dateParse))
   && negb (BulkText.isAfter (dateParse (formatISO d))
                             (BulkText.OPERATING_END dateParse)) = true
   <-> operatingStart <= d <= operatingEnd).
Proof.
  intros Hr Hy.
  unfold BulkText.OPERATING_START, BulkText.OPERATING_END.
  rewrite (Hr (formatISO d) d (parseISODate_formatISO d Hy)).
  assert (P1 : Host.parseISODate (lit "2025-08-01") = Some operatingStart)
    by (vm_compute; reflexivity).
  assert (P2 : Host.parseISODate (lit "2026-07-31") = Some operatingEnd)
    by (vm_compute; reflexivity).
  rewrite (Hr _ _ P1), (Hr _ _ P2).
  unfold BulkText.isBefore, BulkText.isAfter, Host.gt, Host.lt, Host.msPerDay.
  rewrite andb_true_iff, !negb_true_iff, !Z.ltb_ge. lia.
Qed.

(** With clipping, [parseBulkText] keeps the events of the text whose
    date is a day of the operating year, 1 August 2025 to 31 July 2026, both
    included, and drops the others; it tests the date of an event, which
    for a multi-day event is its first day.  (The dates are ISO texts of
    days; the statement is for the years 0 to 9999, on a host that reads an
    ISO date as the specification of the language says.) *)
Theorem parseBulkText_clip
  (chrono_parseDate : jsstring -> BulkParser.chronoOutcome)
  (dateParse : jsstring -> option Z) (text : jsstring) :
  Host.readsDateOnly dateParse ->
  let all := BulkText.parseBulkText chrono_parseDate dateParse text false in
  let clipped := BulkText.parseBulkText chrono_parseDate dateParse text true in
  (forall ev, In ev all -> exists d, BulkParser.date ev = formatISO d) /\
  (forall ev d,
      In ev all -> BulkParser.date ev = formatISO d ->
      0 <= getFullYear d <= 9999 ->
      (In ev clipped <-> operatingStart <= d <= operatingEnd)) /\
  (forall ev, In ev clipped -> In ev all).
Proof.
  intros Hr. unfold BulkText.parseBulkText. cbv zeta. cbn [negb].
  split; [ | split ].
  - intros ev Hin. apply in_flat_map in Hin. destruct Hin as (line & _ & Hl).
    eapply parseLineToEvents_date. eassumption.
  - intros ev d Hin Hd Hy. rewrite filter_In, Hd.
    rewrite (clip_test dateParse d Hr Hy). tauto.
  - intros ev Hin. apply filter_In in Hin. tauto.
Qed.



Lemma parseBulkText_clip_witness :
  let text := lit "Review July 30 - Aug 2, 2025" ++ [10%N] ++
              lit "Offsite Aug 4 - Aug 6, 2025" in
  let review := BulkParser.mkBulkEvent MEETING (lit "Review") (lit "2025-07-30")
                  (Some (lit "2025-07-30")) (Some (lit "2025-08-02")) in
  Host.readsDateOnly strictDateParse /\
  In review (BulkText.parseBulkText (fun _ => BulkParser.Returned None)
               strictDateParse text false) /\
  ~ In review (BulkText.parseBulkText (fun _ => BulkParser.Returned None)
                 strictDateParse text true).
Proof.
  cbv zeta.
  assert (Hr : Host.readsDateOnly strictDateParse).
  { intros t d H. unfold strictDateParse. rewrite H. reflexivity. }
  split; [ exact Hr | ].
  assert (Hin : In (BulkParser.mkBulkEvent MEETING (lit "Review") (lit "2025-07-30")
                      (Some (lit "2025-07-30")) (Some (lit "2025-08-02")))
                   (BulkText.parseBulkText (fun _ => BulkParser.Returned None)
                      strictDateParse
                      (lit "Review July 30 - Aug 2, 2025" ++ [10%N] ++
                       lit "Offsite Aug 4 - Aug 6, 2025") false))
    by (vm_compute; left; reflexivity).
  split; [ exact Hin | ].
  destruct (parseBulkText_clip (fun _ => BulkParser.Returned None)
              strictDateParse
              (lit "Review July 30 - Aug 2, 2025" ++ [10%N] ++
               lit "Offsite Aug 4 - Aug 6, 2025") Hr) as (_ & Hclip & _).
  intros Hc.
  assert (Hd : BulkParser.date
                 (BulkParser.mkBulkEvent MEETING (lit "Review") (lit "2025-07-30")
                    (Some (lit "2025-07-30")) (Some (lit "2025-08-02"))) =
               formatISO (mkDate 2025 6 30)) by (vm_compute; reflexivity).
  assert (Hy : 0 <= getFullYear (mkDate 2025 6 30) <= 9999)
    by (vm_compute; split; discriminate).
  pose proof (proj1 (Hclip _ (mkDate 2025 6 30) Hin Hd Hy) Hc) as [Hlo _].
  vm_compute in Hlo. apply Hlo. reflexivity.
Defined.

(** *** Events on a date, ranges at the form *)

Lemma formatISO_truthy d :
  0 <= getFullYear d <= 9999 -> truthy (Some (formatISO d)) = true.
Proof.
  intros Hy. apply truthy_of_length.
  destruct (formatISO_parts d Hy) as (E & (_ & Y2 & _) & _).
  rewrite E, length_app, Y2. lia.
Qed.

Lemma formatISO_inj d1 d2 :
  0 <= getFullYear d1 <= 9999 -> 0 <= getFullYear d2 <= 9999 ->
  formatISO d1 = formatISO d2 -> d1 = d2.
Proof.
  intros H1 H2 E.
  pose proof (parseISODate_formatISO d1 H1) as P1.
  pose proof (parseISODate_formatISO d2 H2) as P2.
  rewrite E in P1. congruence.
Qed.


(** The refinement of [createEventSchema] accepts an event without an
    end date, or with an empty one, and an event with ISO dates exactly when
    the end date is not before the date (years 0 to 9999, on a host that
    reads ISO dates as the specification of the language says). *)
Theorem endDateOnOrAfterDate_iso (dateParse : jsstring -> option Z)
  (data : Obj.object) :
  Host.readsDateOnly dateParse ->
  (truthy (Obj.get data "endDate") = false ->
     SharedSchema.endDateOnOrAfterDate dateParse data = true) /\
  (forall s f,
      0 <= getFullYear s <= 9999 -> 0 <= getFullYear f <= 9999 ->
      Obj.get data "date" = Some (formatISO s) ->
      Obj.get data "endDate" = Some (formatISO f) ->
      (SharedSchema.endDateOnOrAfterDate dateParse data = true <-> s <= f)).
Proof.
  intros Hr. unfold SharedSchema.endDateOnOrAfterDate. split.
  - intros ->. reflexivity.
  - intros s f Hs Hf Ed Ee. rewrite Ed, Ee.
    rewrite !formatISO_truthy by assumption. cbn [andb Obj.text].
    rewrite (Hr _ _ (parseISODate_formatISO s Hs)),
            (Hr _ _ (parseISODate_formatISO f Hf)).
    unfold Host.ge, Host.le, Host.msPerDay. rewrite Z.leb_le. lia.
Qed.



Lemma endDateOnOrAfterDate_iso_witness :
  Host.readsDateOnly strictDateParse /\
  SharedSchema.endDateOnOrAfterDate strictDateParse
    (spanning "2025-07-10" "2025-07-09") = false.
Proof.
  assert (Hr : Host.readsDateOnly strictDateParse).
  { intros t d H. unfold strictDateParse. rewrite H. reflexivity. }
  split; [ exact Hr | ].
  destruct (endDateOnOrAfterDate_iso strictDateParse
              (spanning "2025-07-10" "2025-07-09") Hr) as [_ H].
  specialize (H (mkDate 2025 6 10) (mkDate 2025 6 9)).
  destruct (SharedSchema.endDateOnOrAfterDate strictDateParse
              (spanning "2025-07-10" "2025-07-09")); [ exfalso | reflexivity ].
  assert (X : mkDate 2025 6 10 <= mkDate 2025 6 9).
  { apply H; try reflexivity; vm_compute; split; discriminate. }
  vm_compute in X. apply X. reflexivity.
Defined.



(** *** The weeks of a month *)

Lemma daysUpFrom_cons d n : daysUpFrom d (S n) = d :: daysUpFrom (d + 1) n.
Proof.
  unfold daysUpFrom. cbn [List.seq List.map]. f_equal; [ lia | ].
  rewrite <- seq_shift, List.map_map. apply List.map_ext. intros i. lia.
Qed.

Lemma daysUpFrom_snoc d n :
  daysUpFrom d (S n) = daysUpFrom d n ++ [d + Z.of_nat n].
Proof.
  unfold daysUpFrom. rewrite seq_S, List.map_app. reflexivity.
Qed.

Lemma lastDay_daysUpFrom m k : lastDay (daysUpFrom m (S k)) = Some (m + Z.of_nat k).
Proof.
  rewrite daysUpFrom_snoc. unfold lastDay.
  destruct (daysUpFrom m k ++ [m + Z.of_nat k]) eqn:E.
  - destruct (daysUpFrom m k); discriminate.
  - rewrite <- E, last_last. reflexivity.
Qed.

Lemma isWorkDay_spec x :
  CalendarView.isWorkDay x = true <-> 1 <= Host.getDay x <= 5.
Proof.
  unfold CalendarView.isWorkDay. cbv zeta.
  rewrite andb_true_iff, Z.geb_le, Z.leb_le. reflexivity.
Qed.

(** The work days of days in a row follow on. *)
Lemma followOn_workDays : forall n d prev,
  match prev with
  | None => True
  | Some p => p < d /\ forall j, p < j < d -> CalendarView.isWorkDay j = false
  end ->
  followOn prev (List.filter CalendarView.isWorkDay (daysUpFrom d n)).
Proof.
  induction n as [|n IH]; intros d prev Hp; [ exact I | ].
  rewrite daysUpFrom_cons. cbn [List.filter].
  destruct (CalendarView.isWorkDay d) eqn:Hd.
  - cbn [followOn]. split; [ | split; [ assumption | ] ].
    + destruct prev as [p|]; [ | exact I ]. destruct Hp as [Hlt Hgap].
      destruct (Z.eq_dec d (p + 1)) as [-> | Hne]; [ left; reflexivity | right ].
      specialize (Hgap (d - 1) ltac:(lia)).
      apply isWorkDay_spec in Hd.
      assert (Hn : ~ 1 <= Host.getDay (d - 1) <= 5).
      { intros H. apply isWorkDay_spec in H. congruence. }
      unfold Host.getDay in *. Z.div_mod_to_equations. lia.
    + apply IH. split; [ lia | ]. intros j Hj. lia.
  - apply IH. destruct prev as [p|]; [ | exact I ].
    destruct Hp as [Hlt Hgap]. split; [ lia | ].
    intros j Hj. destruct (Z.eq_dec j d) as [-> | Hne]; [ assumption | ].
    apply Hgap. lia.
Qed.

Lemma workWeek_one x : CalendarView.isWorkDay x = true -> workWeek [x].
Proof.
  intros H. exists x, 0%nat. split.
  - unfold daysUpFrom. cbn. f_equal. lia.
  - cbn. rewrite H. reflexivity.
Qed.

(** The loop of [groupDaysIntoWeeks] keeps weeks of work days in a row. *)
Lemma groupStep_fold : forall l weeks cur weeks' cur',
  Forall workWeek weeks -> cur = [] \/ workWeek cur ->
  followOn (lastDay cur) l ->
  List.fold_left CalendarView.groupStep l (weeks, cur) = (weeks', cur') ->
  Forall workWeek weeks' /\ (cur' = [] \/ workWeek cur') /\
  List.concat weeks' ++ cur' = List.concat weeks ++ cur ++ l.
Proof.
  induction l as [|x l IH]; intros weeks cur weeks' cur' Hw Hc Hf E.
  - cbn in E. inversion E; subst. rewrite app_nil_r. auto.
  - cbn [List.fold_left] in E. cbn [followOn] in Hf.
    destruct Hf as (Hp & Hx & Hrest).
    unfold CalendarView.groupStep at 2 in E. cbv zeta in E.
    destruct ((Host.getDay x =? 1) && (0 <? List.length cur)%nat) eqn:T.
    + apply andb_prop in T. destruct T as [_ T]. apply Nat.ltb_lt in T.
      destruct Hc as [-> | Hc]; [ cbn in T; lia | ].
      assert (Hw' : Forall workWeek (weeks ++ [cur])).
      { apply Forall_app. split; [ assumption | ].
        constructor; [ assumption | constructor ]. }
      destruct (IH _ _ _ _ Hw' (or_intror (workWeek_one x Hx)) Hrest E)
        as (H1 & H2 & H3).
      split; [ assumption | ]. split; [ assumption | ].
      rewrite H3, concat_app. cbn [List.concat]. rewrite app_nil_r, <- !app_assoc.
      reflexivity.
    + assert (Hcur : workWeek (cur ++ [x])).
      { destruct Hc as [-> | (m & k & -> & Hall)]; [ apply workWeek_one; assumption | ].
        rewrite lastDay_daysUpFrom in Hp.
        rewrite daysUpFrom_length in T.
        change (0 <? S k)%nat with true in T. rewrite andb_true_r in T.
        apply Z.eqb_neq in T. destruct Hp as [-> | Hp]; [ | contradiction ].
        exists m, (S k). split.
        - rewrite (daysUpFrom_snoc m (S k)). do 2 f_equal. lia.
        - rewrite forallb_app, Hall. cbn. rewrite Hx. reflexivity. }
      assert (Hlast : lastDay (cur ++ [x]) = Some x).
      { unfold lastDay. destruct (cur ++ [x]) eqn:E'.
        - destruct cur; discriminate.
        - rewrite <- E', last_last. reflexivity. }
      rewrite <- Hlast in Hrest.
      destruct (IH _ _ _ _ Hw (or_intror Hcur) Hrest E) as (H1 & H2 & H3).
      split; [ assumption | ]. split; [ assumption | ].
      rewrite H3, <- !app_assoc. reflexivity.
Qed.

(** Work days in a row are five at most. *)
Lemma workWeek_length w : workWeek w -> (1 <= List.length w <= 5)%nat.
Proof.
  intros (m & k & -> & Hall). unfold daysUpFrom in *.
  rewrite length_map, length_seq. split; [ lia | ].
  destruct (Nat.le_gt_cases (S k) 5) as [|Hgt]; [ assumption | exfalso ].
  rewrite forallb_forall in Hall.
  assert (Hm : CalendarView.isWorkDay m = true).
  { apply Hall. apply in_map_iff. exists 0%nat. split; [ lia | ].
    apply in_seq. lia. }
  apply isWorkDay_spec in Hm.
  assert (Hs : CalendarView.isWorkDay (m + (6 - Host.getDay m)) = true).
  { apply Hall. apply in_map_iff. exists (Z.to_nat (6 - Host.getDay m)).
    split; [ lia | ]. apply in_seq. lia. }
  apply isWorkDay_spec in Hs.
  unfold Host.getDay in *. Z.div_mod_to_equations. lia.
Qed.

(** For days in a row, as the days of a month shown are, the weeks of
    [groupDaysIntoWeeks] hold the work days (Monday to Friday) of these
    days, in order, and each week is one to five days in a row. *)
Theorem groupDaysIntoWeeks_weeks (d0 : Date) (n : nat) :
  let weeks := CalendarView.groupDaysIntoWeeks (daysUpFrom d0 n) in
  List.concat weeks = List.filter CalendarView.isWorkDay (daysUpFrom d0 n) /\
  (forall week, In week weeks ->
     exists m k, week = daysUpFrom m k /\ (1 <= k <= 5)%nat /\
                 List.forallb CalendarView.isWorkDay week = true).
Proof.
  cbv zeta. unfold CalendarView.groupDaysIntoWeeks. cbv zeta.
  destruct (List.fold_left CalendarView.groupStep
              (List.filter CalendarView.isWorkDay (daysUpFrom d0 n)) ([], []))
    as [weeks cur] eqn:E.
  assert (Hnil : Forall workWeek []) by constructor.
  destruct (groupStep_fold _ _ _ _ _ Hnil (or_introl eq_refl)
              (followOn_workDays n d0 None I) E) as (Hw & Hc & Hcat).
  cbn [List.concat app] in Hcat.
  assert (Good : forall week, workWeek week ->
            exists m k, week = daysUpFrom m k /\ (1 <= k <= 5)%nat /\
                        List.forallb CalendarView.isWorkDay week = true).
  { intros week H. pose proof (workWeek_length week H) as L.
    destruct H as (m & k & -> & Hall). exists m, (S k).
    unfold daysUpFrom in L. rewrite length_map, length_seq in L. auto. }
  destruct (Nat.ltb_spec 0 (List.length cur)) as [Hlen | Hlen].
  - destruct Hc as [-> | Hc]; [ cbn in Hlen; lia | ]. split.
    + rewrite concat_app. cbn [List.concat]. rewrite app_nil_r. exact Hcat.
    + intros week Hin. apply in_app_or in Hin. destruct Hin as [Hin | [<- | []]].
      * apply Good. rewrite List.Forall_forall in Hw. exact (Hw week Hin).
      * apply Good. exact Hc.
  - destruct cur; [ | cbn in Hlen; lia ]. rewrite app_nil_r in Hcat. split.
    + exact Hcat.
    + intros week Hin. apply Good. rewrite List.Forall_forall in Hw. exact (Hw week Hin).
Qed.
(** *** The months of the year view *)

Lemma newDateYMD_mkDate y m d :
  100 <= y -> 0 <= m <= 11 -> Host.newDateYMD y m d = mkDate y m d.
Proof.
  intros Hy Hm. unfold Host.newDateYMD, Host.makeDay.
  destruct (Z.leb_spec y 99); [ lia | ]. rewrite andb_false_r.
  rewrite Z.div_small, Z.mod_small by lia. f_equal. lia.
Qed.

Lemma startOfMonth_mkDate d :
  CalendarView.startOfMonth d = mkDate (getFullYear d) (getMonth d) 1.
Proof.
  pose proof (civilFromDays_range d) as (Hm & _).
  unfold CalendarView.startOfMonth, Host.makeDay.
  rewrite Z.div_small, Z.mod_small by lia. f_equal. lia.
Qed.

Lemma mkDate_first_inj y m y' m' :
  0 <= m <= 11 -> 0 <= m' <= 11 ->
  mkDate y m 1 = mkDate y' m' 1 -> y = y' /\ m = m'.
Proof.
  intros Hm Hm' E.
  pose proof (daysInMonth_pos y m Hm). pose proof (daysInMonth_pos y' m' Hm').
  destruct (getters_mkDate y m 1 Hm ltac:(lia)) as (Y & M & _).
  destruct (getters_mkDate y' m' 1 Hm' ltac:(lia)) as (Y' & M' & _).
  rewrite E in Y, M. split; congruence.
Qed.

(** The year view shows the twelve months from August of the current
    calendar year to July of the next one, quarter by quarter.  So the
    month of the current date is among them from August to December only:
    from January to July the view shows the operating year that starts in
    the coming August, not the one the current date lies in.  (Years from
    100 on: [new Date(year, month, 1)] reads a year below 100 as 1900 +
    year.) *)
Theorem allQuartersData_months (today : Date) :
  100 <= getFullYear today ->
  let y := getFullYear today in
  yearViewMonths today =
    [ mkDate y 7 1; mkDate y 8 1; mkDate y 9 1;
      mkDate y 10 1; mkDate y 11 1; mkDate (y + 1) 0 1;
      mkDate (y + 1) 1 1; mkDate (y + 1) 2 1; mkDate (y + 1) 3 1;
      mkDate (y + 1) 4 1; mkDate (y + 1) 5 1; mkDate (y + 1) 6 1 ] /\
  (In (CalendarView.startOfMonth today) (yearViewMonths today) <->
   7 <= getMonth today).
Proof.
  intros Hy. cbv zeta.
  assert (E : yearViewMonths today =
    [ mkDate (getFullYear today) 7 1; mkDate (getFullYear today) 8 1;
      mkDate (getFullYear today) 9 1; mkDate (getFullYear today) 10 1;
      mkDate (getFullYear today) 11 1; mkDate (getFullYear today + 1) 0 1;
      mkDate (getFullYear today + 1) 1 1; mkDate (getFullYear today + 1) 2 1;
      mkDate (getFullYear today + 1) 3 1; mkDate (getFullYear today + 1) 4 1;
      mkDate (getFullYear today + 1) 5 1; mkDate (getFullYear today + 1) 6 1 ]).
  { unfold yearViewMonths, CalendarView.allQuartersData, CalendarView.quarters.
    cbv zeta.
    cbn [List.map List.flat_map app CalendarView.months CalendarView.month
         CalendarView.monthData].
    eval_tests.
    rewrite !newDateYMD_mkDate by lia. reflexivity. }
  split; [ exact E | ].
  rewrite E, startOfMonth_mkDate.
  pose proof (civilFromDays_range today) as (Hm & _).
  split.
  - intros Hin. cbn [In] in Hin.
    repeat match type of Hin with
           | _ \/ _ => destruct Hin as [Hin | Hin]
           end;
      try contradiction;
      symmetry in Hin; apply mkDate_first_inj in Hin; lia.
  - intros H7. cbn [In].
    assert (C : getMonth today = 7 \/ getMonth today = 8 \/ getMonth today = 9 \/
                getMonth today = 10 \/ getMonth today = 11) by lia.
    destruct C as [-> | [-> | [-> | [-> | ->]]]];
      [ left | right; left | do 2 right; left | do 3 right; left
      | do 4 right; left ]; reflexivity.
Qed.

Lemma allQuartersData_months_witness :
  100 <= getFullYear (mkDate 2026 2 10) /\
  ~ In (mkDate 2026 2 1) (yearViewMonths (mkDate 2026 2 10)) /\
  In (mkDate 2027 2 1) (yearViewMonths (mkDate 2026 2 10)).
Proof.
  assert (Hy : 100 <= getFullYear (mkDate 2026 2 10)) by (vm_compute; discriminate).
  split; [ exact Hy | ].
  destruct (allQuartersData_months (mkDate 2026 2 10) Hy) as [E Hin].
  split.
  - intros H.
    change (mkDate 2026 2 1) with (CalendarView.startOfMonth (mkDate 2026 2 10)) in H.
    apply Hin in H. vm_compute in H. apply H. reflexivity.
  - rewrite E. do 7 right. left. vm_compute. reflexivity.
Defined.

(** *** Quick add *)

Lemma parseNaturalLanguage_blank today input :
  trim input = [] -> DateParser.parseNaturalLanguage today input = None.
Proof.
  intros H. pose proof (parseNaturalLanguage_cases today input) as C.
  cbv zeta in C.
  destruct (DateParser.parseNaturalLanguage today input) as [r|];
    [ exfalso | reflexivity ].
  destruct C as (_ & _ & Hd & _).
  unfold parsedDateOf, cleanInputOf in Hd. rewrite H in Hd.
  vm_compute in Hd. discriminate Hd.
Qed.

(** Quick add ignores a blank input and reports an input without a draft;
    from a draft it creates an event with the draft's title, date, start
    time and end time, of the draft's type or else a MEETING.  The event
    never has an end date: the end date of a draft ("Offsite 15-17 oct") is
    dropped, the event is on the first day only. *)
Theorem handleQuickAdd_event (today : Date) (input : jsstring) :
  (trim input = [] -> Sidebar.handleQuickAdd today input = Sidebar.Ignored) /\
  (trim input <> [] -> DateParser.parseNaturalLanguage today input = None ->
     Sidebar.handleQuickAdd today input = Sidebar.ParseError) /\
  (forall parsed,
     DateParser.parseNaturalLanguage today input = Some parsed ->
     exists event,
       Sidebar.handleQuickAdd today input = Sidebar.Create event /\
       Obj.get event "title" = Some (DateParser.title parsed) /\
       Obj.get event "date" = Some (DateParser.date parsed) /\
       Obj.get event "startTime" = DateParser.startTime parsed /\
       Obj.get event "endTime" = DateParser.endTime parsed /\
       Obj.get event "type" =
         Some (match DateParser.type parsed with
               | Some t => Sidebar.typeName t
               | None => lit "MEETING"
               end) /\
       Obj.get event "endDate" = None).
Proof.
  unfold Sidebar.handleQuickAdd. split; [ | split ].
  - intros ->. reflexivity.
  - intros Hne ->. destruct (trim input); [ contradiction | reflexivity ].
  - intros parsed Hp. rewrite Hp.
    destruct (trim input) as [|c t] eqn:Ht.
    { rewrite (parseNaturalLanguage_blank today input Ht) in Hp. discriminate. }
    eexists. split; [ reflexivity | ].
    unfold Sidebar.eventData, Obj.get.
    repeat split;
      repeat first
        [ rewrite lookup_insert_eq
        | rewrite lookup_insert_ne by (vm_compute; discriminate)
        | rewrite lookup_empty ];
      reflexivity.
Qed.

Lemma handleQuickAdd_event_witness :
  exists event,
    Sidebar.handleQuickAdd day0 (lit "Offsite 15-17 oct") = Sidebar.Create event /\
    Obj.get event "date" = Some (lit "2025-10-15") /\
    Obj.get event "endDate" = None.
Proof.
  assert (P : DateParser.parseNaturalLanguage day0 (lit "Offsite 15-17 oct") =
              Some (DateParser.mkParsedEvent (lit "Offsiteoct") (lit "2025-10-15")
                      (Some (lit "2025-10-17")) (Some (lit "15:00")) None None))
    by (vm_compute; reflexivity).
  destruct (handleQuickAdd_event day0 (lit "Offsite 15-17 oct")) as (_ & _ & H).
  destruct (H _ P) as (event & E & _ & D & _ & _ & _ & N).
  exists event. split; [ exact E | ]. split; [ exact D | exact N ].
Defined.

(** *** The card of an event in a week *)

Lemma sameText_eqb a b :
  0 < getFullYear a <= 9999 -> 0 < getFullYear b <= 9999 ->
  SpanningEventCard.sameText a b = (a =? b).
Proof.
  intros Ha Hb. pose proof (sameDay_eqb b a Hb Ha) as H.
  unfold Calendar.sameDay in H. unfold SpanningEventCard.sameText.
  destruct (Calendar.format (Some a)), (Calendar.format (Some b));
    try discriminate.
  inversion H. reflexivity.
Qed.

Lemma daysUpFrom_In d n x :
  In x (daysUpFrom d n) <-> d <= x < d + Z.of_nat n.
Proof.
  unfold daysUpFrom. rewrite in_map_iff. split.
  - intros (i & <- & Hi). apply in_seq in Hi. lia.
  - intros H. exists (Z.to_nat (x - d)). split; [ lia | ]. apply in_seq. lia.
Qed.

Lemma eachDayOfInterval_In s f x :
  In x (eachDayOfInterval (Some s) (Some f)) <-> Z.min s f <= x <= Z.max s f.
Proof.
  unfold eachDayOfInterval. destruct (Z.gtb_spec s f).
  - rewrite <- in_rev, daysUpFrom_In. lia.
  - rewrite daysUpFrom_In. lia.
Qed.

(** The days of a week that lie between two days. *)
Lemma filter_between lo hi : forall n d0,
  List.filter (fun w => (lo <=? w) && (w <=? hi)) (daysUpFrom d0 n) =
  daysUpFrom (Z.max lo d0)
    (Z.to_nat (Z.min hi (d0 + Z.of_nat n - 1) - Z.max lo d0 + 1)).
Proof.
  induction n as [|n IH]; intros d0.
  - replace (Z.to_nat _) with 0%nat by lia. reflexivity.
  - rewrite daysUpFrom_cons. cbn [List.filter]. rewrite IH.
    destruct (Z.leb_spec lo d0) as [Hlo | Hlo]; cbn [andb].
    + destruct (Z.leb_spec d0 hi) as [Hhi | Hhi].
      * replace (Z.max lo d0) with d0 by lia.
        replace (Z.to_nat (Z.min hi (d0 + Z.of_nat (S n) - 1) - d0 + 1))
          with (S (Z.to_nat (Z.min hi (d0 + 1 + Z.of_nat n - 1) -
                             Z.max lo (d0 + 1) + 1))) by lia.
        rewrite daysUpFrom_cons. f_equal. f_equal. lia.
      * replace (Z.to_nat (Z.min hi (d0 + 1 + Z.of_nat n - 1) -
                           Z.max lo (d0 + 1) + 1)) with 0%nat by lia.
        replace (Z.to_nat (Z.min hi (d0 + Z.of_nat (S n) - 1) -
                           Z.max lo d0 + 1)) with 0%nat by lia.
        reflexivity.
    + replace (Z.max lo (d0 + 1)) with (Z.max lo d0) by lia.
      f_equal. lia.
Qed.

Lemma findIndexFrom_eqb x : forall n d0 a,
  (forall i, (i < n)%nat ->
     SpanningEventCard.sameText (d0 + Z.of_nat i) x = (d0 + Z.of_nat i =? x)) ->
  d0 <= x < d0 + Z.of_nat n ->
  SpanningEventCard.findIndexFrom
    (fun day => SpanningEventCard.sameText day x) (daysUpFrom d0 n) a =
  a + (x - d0).
Proof.
  induction n as [|n IH]; intros d0 a Hs Hx; [ lia | ].
  rewrite daysUpFrom_cons. cbn [SpanningEventCard.findIndexFrom].
  pose proof (Hs 0%nat ltac:(lia)) as H0. cbn [Z.of_nat] in H0.
  rewrite Z.add_0_r in H0. rewrite H0.
  destruct (Z.eqb_spec d0 x) as [-> | Hne]; [ lia | ].
  rewrite IH; [ lia | | lia ].
  intros i Hi. specialize (Hs (S i) ltac:(lia)).
  replace (d0 + Z.of_nat (S i)) with (d0 + 1 + Z.of_nat i) in Hs by lia.
  exact Hs.
Qed.

(** For a week of days in a row and an event from the day [s] to the day
    [f], the card is drawn exactly when a day of the week lies between the
    two days, in whatever order they are (the days of a backwards interval
    are listed too): it starts at the first such day of the week and spans
    these days.  (Days of the years 1 to 9999.) *)
Theorem position_in_week (s f d0 : Date) (n : nat) :
  let lo := Z.min s f in
  let hi := Z.max s f in
  let first := Z.max lo d0 in
  let last := Z.min hi (d0 + Z.of_nat n - 1) in
  0 < getFullYear lo -> getFullYear hi <= 9999 ->
  0 < getFullYear d0 -> getFullYear (d0 + Z.of_nat n - 1) <= 9999 ->
  SpanningEventCard.position (Some s) (Some f) (daysUpFrom d0 n) =
    if first <=? last
    then Some (SpanningEventCard.mkBar (first - d0)
                 (Z.to_nat (last - first + 1)))
    else None.
Proof.
  cbv zeta. intros Ylo Yhi Y0 Yn.
  set (lo := Z.min s f) in *. set (hi := Z.max s f) in *.
  assert (Yw : forall w, In w (daysUpFrom d0 n) -> 0 < getFullYear w <= 9999).
  { intros w Hw. apply daysUpFrom_In in Hw.
    pose proof (getFullYear_monotone d0 w ltac:(lia)).
    pose proof (getFullYear_monotone w (d0 + Z.of_nat n - 1) ltac:(lia)). lia. }
  assert (Ye : forall e, lo <= e <= hi -> 0 < getFullYear e <= 9999).
  { intros e He.
    pose proof (getFullYear_monotone lo e ltac:(lia)).
    pose proof (getFullYear_monotone e hi ltac:(lia)). lia. }
  unfold SpanningEventCard.position. cbv zeta.
  rewrite (List.filter_ext_in _ (fun w => (lo <=? w) && (w <=? hi))).
  2:{ intros w Hw. apply eq_true_iff_eq.
      rewrite existsb_exists, andb_true_iff, !Z.leb_le. split.
      - intros (e & He & Hs). apply eachDayOfInterval_In in He. fold lo hi in He.
        rewrite sameText_eqb in Hs by auto. apply Z.eqb_eq in Hs. lia.
      - intros H. exists w. split.
        + apply eachDayOfInterval_In. fold lo hi. lia.
        + rewrite sameText_eqb by auto. apply Z.eqb_refl. }
  rewrite filter_between.
  destruct (Z.leb_spec (Z.max lo d0) (Z.min hi (d0 + Z.of_nat n - 1))) as [Hle | Hgt].
  - remember (Z.to_nat (Z.min hi (d0 + Z.of_nat n - 1) - Z.max lo d0 + 1)) as k eqn:Ek.
    destruct k as [|k]; [ lia | ].
    rewrite daysUpFrom_cons. cbn [List.length].
    rewrite daysUpFrom_length. f_equal. f_equal.
    unfold SpanningEventCard.findIndex. rewrite findIndexFrom_eqb; [ lia | | lia ].
    intros i Hi. apply sameText_eqb.
    + apply Yw. apply daysUpFrom_In. lia.
    + apply Ye. lia.
  - replace (Z.to_nat _) with 0%nat by lia. reflexivity.
Qed.

Lemma position_in_week_witness :
  SpanningEventCard.position (Some (mkDate 2025 6 10)) (Some (mkDate 2025 6 8))
    week0 = Some (SpanningEventCard.mkBar 1 3).
Proof.
  unfold week0.
  rewrite (position_in_week (mkDate 2025 6 10) (mkDate 2025 6 8)
             (mkDate 2025 6 7) 5);
    try (vm_compute; first [ reflexivity | discriminate ]).
Defined.
